(** * LumiAI web client: the avatar stream feed of [app.js]

    A shallow embedding of the streaming part of [LumiEnhancedApp]
    (src/web/static/js/app.js): the canvas renderer [drawToCanvas], the
    polling feed [initializeMjpgStream], the socket feed
    [initializeWebSocketStream], and the controller operations
    [toggleStreamMethod], [cleanupStream], [startLive2DStream],
    [initializeLive2DStream] and [onTabSwitch].

    The browser is single threaded: every handler runs to completion, and
    everything else (timers, image loads, socket events, clicks) reaches the
    program as an event.  The embedding therefore has two layers:

    - the handlers of the class, written in a small state-and-exception monad
      [Js] over the record [World] (the fields of [this], the closure
      variables of the two feed initialisers, and the browser objects the
      handlers talk to);
    - an event loop [run] that delivers a timed trace of external events and
      fires the pending [setTimeout] callbacks when they fall due.

    Numbers: timestamps and pixel sizes are integers ([Z]).  The quotients
    computed by [drawToCanvas] are JavaScript numbers; they are modelled by
    [JsNum], the binary64 numbers: the finite ones as the rationals they
    denote, with the two infinities and NaN, and every operation rounded to
    the nearest binary64 number ([round64]), ties to even.  The sign of
    zero is not modelled.

    Timers fire at their due time, or at the next turn of the loop if the
    clock has already passed it.  Console output other than [console.error]
    is left out.  Of the socket events this layer models only [connect] and
    [live2d_frame]; of its state, the camera and VTube Studio status
    events, the service monitor, the chat and the theme code touch only the
    status indicator and the messages sent to the server.

    That code is the subject of the second part, "The rest of the page":
    the tabs, the chat overlay and its gestures, the themes, the chat, the
    status cards and the constructor, in the monad [Sh] over the record
    [Shell], which holds the [World] of the stream next to the rest of the
    document; and the classes [ServiceManager] and [TabManager], as
    transformers of records of their own. *)

From Stdlib Require Import ZArith QArith Qround Qpower Lia Lqa.
From stdpp Require Import base option list strings.

Local Open Scope string_scope.
Local Open Scope Z_scope.

(** ** JavaScript values and numbers *)

(** The payload of a socket event: the values [data.frame] can take. *)
Inductive JsVal : Type :=
  | JUndefined
  | JNull
  | JBool (b : bool)
  | JNum (n : Z)
  | JStr (s : string).

(** [if (v)] / [!v]. *)
Definition truthy (v : JsVal) : bool :=
  match v with
  | JUndefined | JNull => false
  | JBool b => b
  | JNum n => negb (n =? 0)
  | JStr s => negb (String.eqb s "")
  end.

(** The value of an arithmetic expression: a binary64 number.  [Num q] is
    the finite number [q]; the operations below round their exact result
    to the nearest binary64 number. *)
Inductive JsNum : Type :=
  | Num (q : Q)
  | Infinity
  | NegInfinity
  | NaN.

Definition num_neg (a : JsNum) : JsNum :=
  match a with
  | Num q => Num (- q)
  | Infinity => NegInfinity
  | NegInfinity => Infinity
  | NaN => NaN
  end.

(** *** Rounding to binary64

    A binary64 number has 53 significant bits and an exponent from -1022
    to 1023.  A positive rational [q] with [2 ^ e <= q < 2 ^ (e + 1)] lies
    between two neighbouring multiples of [2 ^ (e - 52)] and is rounded to
    the nearer one, to the one with the even multiplier on a tie.  Below
    [2 ^ -1022] the spacing stays [2 ^ -1074]; a result of [2 ^ 1024] or
    more is infinite. *)

Definition pow2 (e : Z) : Q := (2 ^ e)%Q.

(** The integer nearest to [q], the even one on a tie. *)
Definition rne (q : Q) : Z :=
  let f := Qfloor q in
  match (q - inject_Z f ?= 1 # 2)%Q with
  | Lt => f
  | Gt => f + 1
  | Eq => if Z.even f then f else f + 1
  end.

(** The integral part of the binary logarithm of a positive rational. *)
Definition Qlog2 (q : Q) : Z :=
  let e := Z.log2 (Qnum q) - Z.log2 (Zpos (Qden q)) in
  if Qle_bool (pow2 e) q then e else e - 1.

Definition round_pos (q : Q) : JsNum :=
  let e := Z.max (Qlog2 q) (-1022) in
  let ulp := pow2 (e - 52) in
  let r := (inject_Z (rne (q / ulp)) * ulp)%Q in
  if Qle_bool (pow2 1024) r then Infinity else Num (Qred r).

(** The binary64 number nearest to [q], as a fraction in lowest terms. *)
Definition round64 (q : Q) : JsNum :=
  let q := Qred q in
  match (0 ?= q)%Q with
  | Eq => Num 0
  | Lt => round_pos q
  | Gt => num_neg (round_pos (- q))
  end.

(** Half the spacing of the binary64 numbers around a positive [q]. *)
Definition half_ulp (q : Q) : Q := pow2 (Z.max (Qlog2 q) (-1022) - 53).

(** An integer as a number. *)
Definition ofZ (n : Z) : JsNum := round64 (inject_Z n).

Definition Qpos_b (q : Q) : bool := match (0 ?= q)%Q with Lt => true | _ => false end.
Definition Qzero_b (q : Q) : bool := match (0 ?= q)%Q with Eq => true | _ => false end.

(** [a / b]. *)
Definition num_div (a b : JsNum) : JsNum :=
  match a, b with
  | NaN, _ | _, NaN => NaN
  | Num x, Num y =>
      if Qzero_b y
      then (if Qzero_b x then NaN else if Qpos_b x then Infinity else NegInfinity)
      else round64 (x / y)
  | Num _, (Infinity | NegInfinity) => Num 0
  | Infinity, Num y => if Qpos_b y || Qzero_b y then Infinity else NegInfinity
  | NegInfinity, Num y => if Qpos_b y || Qzero_b y then NegInfinity else Infinity
  | (Infinity | NegInfinity), (Infinity | NegInfinity) => NaN
  end.

(** [a * b]. *)
Definition num_mul (a b : JsNum) : JsNum :=
  let inf_times (pos : bool) (y : Q) :=
    if Qzero_b y then NaN
    else if Bool.eqb pos (Qpos_b y) then Infinity else NegInfinity in
  match a, b with
  | NaN, _ | _, NaN => NaN
  | Num x, Num y => round64 (x * y)
  | Num x, Infinity => inf_times true x
  | Num x, NegInfinity => inf_times false x
  | Infinity, Num y => inf_times true y
  | NegInfinity, Num y => inf_times false y
  | Infinity, Infinity | NegInfinity, NegInfinity => Infinity
  | Infinity, NegInfinity | NegInfinity, Infinity => NegInfinity
  end.

(** [a - b]. *)
Definition num_sub (a b : JsNum) : JsNum :=
  match a, b with
  | NaN, _ | _, NaN => NaN
  | Num x, Num y => round64 (x - y)
  | Num _, Infinity => NegInfinity
  | Num _, NegInfinity => Infinity
  | Infinity, Num _ | Infinity, NegInfinity => Infinity
  | NegInfinity, Num _ | NegInfinity, Infinity => NegInfinity
  | Infinity, Infinity | NegInfinity, NegInfinity => NaN
  end.

#[global] Arguments round64 : simpl never.
#[global] Arguments ofZ : simpl never.
#[global] Arguments num_div : simpl never.
#[global] Arguments num_mul : simpl never.
#[global] Arguments num_sub : simpl never.

(** [a > b]; every comparison with NaN is false. *)
Definition num_gt (a b : JsNum) : bool :=
  match a, b with
  | NaN, _ | _, NaN => false
  | Num x, Num y => match (y ?= x)%Q with Lt => true | _ => false end
  | Infinity, Infinity => false
  | Infinity, _ => true
  | _, Infinity => false
  | NegInfinity, _ => false
  | Num _, NegInfinity => true
  end.

(** ** Browser objects *)

(** Where an image element was pointed to: the polling feed requests
    [mjpgUrl + '?t=' + timestamp], the socket feed assigns the frame text. *)
Inductive Src : Type :=
  | Url (base : string) (t : Z)
  | DataUri (text : string).

(** A loaded [Image]: its source and intrinsic size. *)
Record Image : Type := mkImage {
  src : Src;
  width : Z;
  height : Z
}.

(** The [<canvas>] created by [setupCanvas]. *)
Record Canvas : Type := mkCanvas {
  cid : nat;
  cwidth : Z;
  cheight : Z
}.

(** Calls received by a 2-D context. *)
Inductive DrawOp : Type :=
  | ClearRect (x y w h : JsNum)
  | DrawImage (img : Image) (dx dy dw dh : JsNum).

Record CtxCall : Type := mkCtxCall {
  call_time : Z;
  call_ctx : nat;
  call_op : DrawOp
}.

(** The [#live2d-status] element as [updateLive2DStatus] writes it. *)
Record StatusView : Type := mkStatusView {
  textContent : string;
  className : string
}.

(** Bodies of the callbacks handed to [setTimeout]. *)
Inductive Task : Type :=
  | TInitStream                (* toggleStreamMethod, 100 ms *)
  | TRestartStream             (* startLive2DStream, 100 ms *)
  | TTabInit                   (* onTabSwitch('main'), 500 ms *)
  | TLoadNextFrame (c : nat)   (* loaderImg.onload: loadNextFrame of loader c *)
  | TRetry (c : nat)           (* loaderImg.onerror, 1000 ms *)
  | TFlushPending (k : nat)    (* live2d_frame handler of socket k *)
  | TEmitStart                 (* connect handler, 500 ms *)
  | TStartBackground           (* initializeWebSocketStream, 1000 ms *)
  | TNotifyFade (n : nat)      (* showNotification, 3000 ms *)
  | TNotifyRemove (n : nat).   (* showNotification, 300 ms later *)

Record Timer : Type := mkTimer {
  tid : nat;
  due : Z;
  task : Task
}.

(** Closure of one call of [initializeMjpgStream]: [isFirstLoad] and the
    hidden [loaderImg], of which only the request in flight matters. *)
Record Loader : Type := mkLoader {
  isFirstLoad : bool;
  inflight : option Src
}.

(** Closure of one call of [initializeWebSocketStream] together with the
    socket it created. *)
Record Socket : Type := mkSocket {
  connected : bool;
  disconnected : bool;         (* [disconnect()] was called *)
  frameCount : Z;
  pendingFrame : JsVal
}.

(** A request issued by [loadNextFrame]. *)
Record Request : Type := mkRequest {
  req_time : Z;
  req_loader : nat;
  req_src : Src
}.

(** ** The application object *)

(** The fields of [this] that the stream code reads or writes. *)
Record App : Type := mkApp {
  useMjpgStream : bool;
  mjpgUrl : string;
  currentStream : option Canvas;
  streamInitialized : bool;
  canvasContext : option nat;          (* context of the canvas with this id *)
  lastFrameTime : Z;
  frameInterval : Z;
  currentImage : option Image;
  isLoading : bool;
  mjpgRefreshInterval : option nat;
  canvasRenderTimeout : option nat;
  live2dSocket : option nat
}.

(** The program state: [this], the closures, and the browser. *)
Record World : Type := mkWorld {
  app : App;
  now : Z;                             (* Date.now() *)
  timers : list Timer;                 (* pending setTimeout callbacks *)
  nextTimer : nat;
  nextCanvas : nat;
  loaders : list Loader;
  sockets : list Socket;
  decoding : list (option string);     (* images created by processWebSocketFrame *)
  displayBox : option (Z * Z);         (* .live2d-display, if the page has it *)
  statusElement : option StatusView;   (* #live2d-status, if the page has it *)
  notifications : list (string * string);
  requests : list Request;
  ctxCalls : list CtxCall;
  emitted : list (nat * string);
  consoleErrors : list string;
  uncaught : list string
}.

(** Field assignment.  [set_f v a] is [a] after [this.f = v]; [with_f v w] replaces
    one component of the world. *)

Definition set_useMjpgStream (v : bool) (a : App) : App :=
  mkApp v (mjpgUrl a) (currentStream a) (streamInitialized a) (canvasContext a)
    (lastFrameTime a) (frameInterval a) (currentImage a) (isLoading a)
    (mjpgRefreshInterval a) (canvasRenderTimeout a) (live2dSocket a).

Definition set_mjpgUrl (v : string) (a : App) : App :=
  mkApp (useMjpgStream a) v (currentStream a) (streamInitialized a) (canvasContext
    a) (lastFrameTime a) (frameInterval a) (currentImage a) (isLoading a)
    (mjpgRefreshInterval a) (canvasRenderTimeout a) (live2dSocket a).

Definition set_currentStream (v : option Canvas) (a : App) : App :=
  mkApp (useMjpgStream a) (mjpgUrl a) v (streamInitialized a) (canvasContext a)
    (lastFrameTime a) (frameInterval a) (currentImage a) (isLoading a)
    (mjpgRefreshInterval a) (canvasRenderTimeout a) (live2dSocket a).

Definition set_streamInitialized (v : bool) (a : App) : App :=
  mkApp (useMjpgStream a) (mjpgUrl a) (currentStream a) v (canvasContext a)
    (lastFrameTime a) (frameInterval a) (currentImage a) (isLoading a)
    (mjpgRefreshInterval a) (canvasRenderTimeout a) (live2dSocket a).

Definition set_canvasContext (v : option nat) (a : App) : App :=
  mkApp (useMjpgStream a) (mjpgUrl a) (currentStream a) (streamInitialized a) v
    (lastFrameTime a) (frameInterval a) (currentImage a) (isLoading a)
    (mjpgRefreshInterval a) (canvasRenderTimeout a) (live2dSocket a).

Definition set_lastFrameTime (v : Z) (a : App) : App :=
  mkApp (useMjpgStream a) (mjpgUrl a) (currentStream a) (streamInitialized a)
    (canvasContext a) v (frameInterval a) (currentImage a) (isLoading a)
    (mjpgRefreshInterval a) (canvasRenderTimeout a) (live2dSocket a).

Definition set_currentImage (v : option Image) (a : App) : App :=
  mkApp (useMjpgStream a) (mjpgUrl a) (currentStream a) (streamInitialized a)
    (canvasContext a) (lastFrameTime a) (frameInterval a) v (isLoading a)
    (mjpgRefreshInterval a) (canvasRenderTimeout a) (live2dSocket a).

Definition set_isLoading (v : bool) (a : App) : App :=
  mkApp (useMjpgStream a) (mjpgUrl a) (currentStream a) (streamInitialized a)
    (canvasContext a) (lastFrameTime a) (frameInterval a) (currentImage a) v
    (mjpgRefreshInterval a) (canvasRenderTimeout a) (live2dSocket a).

Definition set_mjpgRefreshInterval (v : option nat) (a : App) : App :=
  mkApp (useMjpgStream a) (mjpgUrl a) (currentStream a) (streamInitialized a)
    (canvasContext a) (lastFrameTime a) (frameInterval a) (currentImage a)
    (isLoading a) v (canvasRenderTimeout a) (live2dSocket a).

Definition set_canvasRenderTimeout (v : option nat) (a : App) : App :=
  mkApp (useMjpgStream a) (mjpgUrl a) (currentStream a) (streamInitialized a)
    (canvasContext a) (lastFrameTime a) (frameInterval a) (currentImage a)
    (isLoading a) (mjpgRefreshInterval a) v (live2dSocket a).

Definition set_live2dSocket (v : option nat) (a : App) : App :=
  mkApp (useMjpgStream a) (mjpgUrl a) (currentStream a) (streamInitialized a)
    (canvasContext a) (lastFrameTime a) (frameInterval a) (currentImage a)
    (isLoading a) (mjpgRefreshInterval a) (canvasRenderTimeout a) v.

Definition with_app (v : App) (w : World) : World :=
  mkWorld v (now w) (timers w) (nextTimer w) (nextCanvas w) (loaders w) (sockets w)
    (decoding w) (displayBox w) (statusElement w) (notifications w) (requests w)
    (ctxCalls w) (emitted w) (consoleErrors w) (uncaught w).

Definition with_now (v : Z) (w : World) : World :=
  mkWorld (app w) v (timers w) (nextTimer w) (nextCanvas w) (loaders w) (sockets w)
    (decoding w) (displayBox w) (statusElement w) (notifications w) (requests w)
    (ctxCalls w) (emitted w) (consoleErrors w) (uncaught w).

Definition with_timers (v : list Timer) (w : World) : World :=
  mkWorld (app w) (now w) v (nextTimer w) (nextCanvas w) (loaders w) (sockets w)
    (decoding w) (displayBox w) (statusElement w) (notifications w) (requests w)
    (ctxCalls w) (emitted w) (consoleErrors w) (uncaught w).

Definition with_nextTimer (v : nat) (w : World) : World :=
  mkWorld (app w) (now w) (timers w) v (nextCanvas w) (loaders w) (sockets w)
    (decoding w) (displayBox w) (statusElement w) (notifications w) (requests w)
    (ctxCalls w) (emitted w) (consoleErrors w) (uncaught w).

Definition with_nextCanvas (v : nat) (w : World) : World :=
  mkWorld (app w) (now w) (timers w) (nextTimer w) v (loaders w) (sockets w)
    (decoding w) (displayBox w) (statusElement w) (notifications w) (requests w)
    (ctxCalls w) (emitted w) (consoleErrors w) (uncaught w).

Definition with_loaders (v : list Loader) (w : World) : World :=
  mkWorld (app w) (now w) (timers w) (nextTimer w) (nextCanvas w) v (sockets w)
    (decoding w) (displayBox w) (statusElement w) (notifications w) (requests w)
    (ctxCalls w) (emitted w) (consoleErrors w) (uncaught w).

Definition with_sockets (v : list Socket) (w : World) : World :=
  mkWorld (app w) (now w) (timers w) (nextTimer w) (nextCanvas w) (loaders w) v
    (decoding w) (displayBox w) (statusElement w) (notifications w) (requests w)
    (ctxCalls w) (emitted w) (consoleErrors w) (uncaught w).

Definition with_decoding (v : list (option string)) (w : World) : World :=
  mkWorld (app w) (now w) (timers w) (nextTimer w) (nextCanvas w) (loaders w)
    (sockets w) v (displayBox w) (statusElement w) (notifications w) (requests w)
    (ctxCalls w) (emitted w) (consoleErrors w) (uncaught w).

Definition with_displayBox (v : option (Z * Z)) (w : World) : World :=
  mkWorld (app w) (now w) (timers w) (nextTimer w) (nextCanvas w) (loaders w)
    (sockets w) (decoding w) v (statusElement w) (notifications w) (requests w)
    (ctxCalls w) (emitted w) (consoleErrors w) (uncaught w).

Definition with_statusElement (v : option StatusView) (w : World) : World :=
  mkWorld (app w) (now w) (timers w) (nextTimer w) (nextCanvas w) (loaders w)
    (sockets w) (decoding w) (displayBox w) v (notifications w) (requests w)
    (ctxCalls w) (emitted w) (consoleErrors w) (uncaught w).

Definition with_notifications (v : list (string * string)) (w : World) : World :=
  mkWorld (app w) (now w) (timers w) (nextTimer w) (nextCanvas w) (loaders w)
    (sockets w) (decoding w) (displayBox w) (statusElement w) v (requests w)
    (ctxCalls w) (emitted w) (consoleErrors w) (uncaught w).

Definition with_requests (v : list Request) (w : World) : World :=
  mkWorld (app w) (now w) (timers w) (nextTimer w) (nextCanvas w) (loaders w)
    (sockets w) (decoding w) (displayBox w) (statusElement w) (notifications w)
    v (ctxCalls w) (emitted w) (consoleErrors w) (uncaught w).

Definition with_ctxCalls (v : list CtxCall) (w : World) : World :=
  mkWorld (app w) (now w) (timers w) (nextTimer w) (nextCanvas w) (loaders w)
    (sockets w) (decoding w) (displayBox w) (statusElement w) (notifications w)
    (requests w) v (emitted w) (consoleErrors w) (uncaught w).

Definition with_emitted (v : list (nat * string)) (w : World) : World :=
  mkWorld (app w) (now w) (timers w) (nextTimer w) (nextCanvas w) (loaders w)
    (sockets w) (decoding w) (displayBox w) (statusElement w) (notifications w)
    (requests w) (ctxCalls w) v (consoleErrors w) (uncaught w).

Definition with_consoleErrors (v : list string) (w : World) : World :=
  mkWorld (app w) (now w) (timers w) (nextTimer w) (nextCanvas w) (loaders w)
    (sockets w) (decoding w) (displayBox w) (statusElement w) (notifications w)
    (requests w) (ctxCalls w) (emitted w) v (uncaught w).

Definition with_uncaught (v : list string) (w : World) : World :=
  mkWorld (app w) (now w) (timers w) (nextTimer w) (nextCanvas w) (loaders w)
    (sockets w) (decoding w) (displayBox w) (statusElement w) (notifications w)
    (requests w) (ctxCalls w) (emitted w) (consoleErrors w) v.

(** ** The handler monad

    A handler either completes or throws; in both cases the assignments it
    made stay. *)

Inductive Completion (A : Type) : Type :=
  | Normal (a : A)
  | Thrown (e : string).
Arguments Normal {A} a.
Arguments Thrown {A} e.

Definition Js (A : Type) : Type := World -> Completion A * World.

Definition ret {A : Type} (a : A) : Js A := fun w => (Normal a, w).

Definition bind {A B : Type} (m : Js A) (k : A -> Js B) : Js B :=
  fun w =>
    match m w with
    | (Normal a, w') => k a w'
    | (Thrown e, w') => (Thrown e, w')
    end.

#[global] Instance Js_ret : MRet Js := @ret.
#[global] Instance Js_bind : MBind Js := fun A B k m => bind m k.

Definition throw {A : Type} (e : string) : Js A := fun w => (Thrown e, w).
Definition get : Js World := fun w => (Normal w, w).
Definition modify (f : World -> World) : Js unit := fun w => (Normal tt, f w).

(** Read [this]; assign to a field of [this]. *)
Definition this : Js App := fun w => (Normal (app w), w).
Definition assign (f : App -> App) : Js unit :=
  modify (fun w => with_app (f (app w)) w).

(** The state a handler leaves behind, and whether it threw. *)
Definition exec {A : Type} (m : Js A) (w : World) : World := snd (m w).
Definition throws {A : Type} (m : Js A) (w : World) : bool :=
  match fst (m w) with Normal _ => false | Thrown _ => true end.

(** ** Browser primitives *)

(** [setTimeout(cb, delay)]: a negative delay counts as zero. *)
Definition setTimeout (cb : Task) (delay : Z) : Js nat :=
  fun w =>
    let id := nextTimer w in
    (Normal id,
     with_nextTimer (S id)
       (with_timers (timers w ++ [mkTimer id (now w + Z.max 0 delay) cb]) w)).

(** [clearTimeout(id)] and [clearInterval(id)]. *)
Definition clearTimeout (id : nat) : Js unit :=
  modify (fun w => with_timers (filter (fun tm => tid tm ≠ id) (timers w)) w).

Definition console_error (msg : string) : Js unit :=
  modify (fun w => with_consoleErrors (consoleErrors w ++ [msg]) w).

(** [ctx.clearRect(..)], [ctx.drawImage(..)] on the context of canvas [ctx]. *)
Definition ctx_call (ctx : nat) (op : DrawOp) : Js unit :=
  modify (fun w => with_ctxCalls (ctxCalls w ++ [mkCtxCall (now w) ctx op]) w).

(** [this.live2dSocket.emit(name)]. *)
Definition emit (name : string) : Js unit :=
  a ← this;
  match live2dSocket a with
  | None => throw "TypeError: Cannot read properties of null (reading 'emit')"
  | Some k => modify (fun w => with_emitted (emitted w ++ [(k, name)]) w)
  end.

(** ** Notifications and the status indicator *)

(** [showNotification(message, type)]: the element is appended to the page,
    faded after 3000 ms and removed 300 ms later. *)
Definition showNotification (message type : string) : Js unit :=
  w ← get;
  modify (fun w => with_notifications (notifications w ++ [(message, type)]) w);;
  _ ← setTimeout (TNotifyFade (length (notifications w))) 3000;
  ret tt.

(** [updateLive2DStatus(source)]. *)
Definition updateLive2DStatus (source : string) : Js unit :=
  w ← get;
  match statusElement w with
  | None => ret tt
  | Some _ =>
      let '(statusText, statusClass) :=
        if String.eqb source "mjpg_stream" then ("🖥️ MJPG Stream", "status-online")
        else if String.eqb source "virtual_camera" then ("📡 WebSocket Stream", "status-online")
        else if String.eqb source "placeholder" then ("📷 Camera Setup Required", "status-offline")
        else if String.eqb source "error" then ("❌ Stream Error", "status-error")
        else ("🔌 Connecting...", "status-offline") in
      modify (with_statusElement
                (Some (mkStatusView statusText ("live2d-status " ++ statusClass))))
  end.

(** ** Frame renderer *)

(** The rectangle computed by [drawToCanvas]:
    [(offsetX, offsetY, renderWidth, renderHeight)]. *)
Definition fitRect (iw ih cw ch : Z) : JsNum * JsNum * JsNum * JsNum :=
  let imgAspect := num_div (ofZ iw) (ofZ ih) in
  let canvasAspect := num_div (ofZ cw) (ofZ ch) in
  if num_gt imgAspect canvasAspect then
    (* Image is wider than canvas *)
    let renderWidth := ofZ cw in
    let renderHeight := num_div (ofZ cw) imgAspect in
    let offsetX := ofZ 0 in
    let offsetY := num_div (num_sub (ofZ ch) renderHeight) (ofZ 2) in
    (offsetX, offsetY, renderWidth, renderHeight)
  else
    (* Image is taller than canvas *)
    let renderHeight := ofZ ch in
    let renderWidth := num_mul (ofZ ch) imgAspect in
    let offsetX := num_div (num_sub (ofZ cw) renderWidth) (ofZ 2) in
    let offsetY := ofZ 0 in
    (offsetX, offsetY, renderWidth, renderHeight).

(** [drawToCanvas(image)]; [None] is a null or undefined argument.  The
    calls on the context are recorded; for a loaded image they do not
    throw. *)
Definition drawToCanvas (image : option Image) : Js unit :=
  a ← this;
  match canvasContext a, currentStream a with
  | Some ctx, Some canvas =>
      ctx_call ctx (ClearRect (ofZ 0) (ofZ 0) (ofZ (cwidth canvas)) (ofZ (cheight canvas)));;
      match image with
      | None => throw "TypeError: Cannot read properties of null (reading 'width')"
      | Some img =>
          let '(offsetX, offsetY, renderWidth, renderHeight) :=
            fitRect (width img) (height img) (cwidth canvas) (cheight canvas) in
          ctx_call ctx (DrawImage img offsetX offsetY renderWidth renderHeight)
      end
  | _, _ => ret tt
  end.

(** ** Pull feed: [initializeMjpgStream] *)

Definition set_inflight (v : option Src) (l : Loader) : Loader :=
  mkLoader (isFirstLoad l) v.
Definition set_isFirstLoad (v : bool) (l : Loader) : Loader :=
  mkLoader v (inflight l).

(** [loadNextFrame] of loader [c]: assigning [loaderImg.src] starts a
    request and replaces the one the element was still waiting for. *)
Definition loadNextFrame (c : nat) : Js unit :=
  a ← this;
  if negb (useMjpgStream a) || isLoading a then ret tt
  else
    assign (set_isLoading true);;
    w ← get;
    let timestamp := now w in
    let url := Url (mjpgUrl a) timestamp in
    modify (fun w => with_loaders (alter (set_inflight (Some url)) c (loaders w)) w);;
    modify (fun w => with_requests (requests w ++ [mkRequest (now w) c url]) w).

(** [loaderImg.onload] of loader [c]; [img] is the loaded element. *)
Definition loader_onload (c : nat) (img : Image) : Js unit :=
  assign (set_isLoading false);;
  (* Throttle frame rate *)
  w ← get;
  let a := app w in
  if now w - lastFrameTime a <? frameInterval a then
    (* Skip this frame, try again soon *)
    _ ← setTimeout (TLoadNextFrame c) (frameInterval a - (now w - lastFrameTime a));
    ret tt
  else
    assign (set_lastFrameTime (now w));;
    (* Draw to canvas *)
    drawToCanvas (Some img);;
    w ← get;
    (if default false (isFirstLoad <$> loaders w !! c) then
       updateLive2DStatus "mjpg_stream";;
       modify (fun w => with_loaders (alter (set_isFirstLoad false) c (loaders w)) w)
     else ret tt);;
    (* Load next frame *)
    a ← this;
    _ ← setTimeout (TLoadNextFrame c) (frameInterval a);
    ret tt.

(** [loaderImg.onerror] of loader [c]. *)
Definition loader_onerror (c : nat) : Js unit :=
  assign (set_isLoading false);;
  console_error "MJPG stream error";;
  updateLive2DStatus "error";;
  (* Retry after delay *)
  _ ← setTimeout (TRetry c) 1000;
  ret tt.

(** The callback of that retry timer. *)
Definition retry (c : nat) : Js unit :=
  a ← this;
  if useMjpgStream a then loadNextFrame c else ret tt.

Definition initializeMjpgStream : Js unit :=
  w ← get;
  let c := length (loaders w) in
  modify (fun w => with_loaders (loaders w ++ [mkLoader true None]) w);;
  (* Start loading frames *)
  loadNextFrame c;;
  updateLive2DStatus "mjpg_stream".

(** ** Push feed: [initializeWebSocketStream] *)

Definition set_connected (v : bool) (s : Socket) : Socket :=
  mkSocket v (disconnected s) (frameCount s) (pendingFrame s).
Definition set_disconnected (v : bool) (s : Socket) : Socket :=
  mkSocket (connected s) v (frameCount s) (pendingFrame s).
Definition set_frameCount (v : Z) (s : Socket) : Socket :=
  mkSocket (connected s) (disconnected s) v (pendingFrame s).
Definition set_pendingFrame (v : JsVal) (s : Socket) : Socket :=
  mkSocket (connected s) (disconnected s) (frameCount s) v.

Definition update_socket (k : nat) (f : Socket -> Socket) : Js unit :=
  modify (fun w => with_sockets (alter f k (sockets w)) w).

(** The closure variable [pendingFrame] of socket [k]. *)
Definition read_pendingFrame (k : nat) : Js JsVal :=
  w ← get;
  ret (default JNull (pendingFrame <$> sockets w !! k)).

(** [processWebSocketFrame(frameData)]: a text starting with [data:image/]
    is handed to a new [Image], whose [onload] or [onerror] fires later. *)
Definition processWebSocketFrame (frameData : JsVal) : Js unit :=
  if negb (truthy frameData) then ret tt
  else
    match frameData with
    | JStr text =>
        if negb (String.prefix "data:image/" text) then ret tt
        else modify (fun w => with_decoding (decoding w ++ [Some text]) w)
    | _ => throw "TypeError: frameData.startsWith is not a function"
    end.


(** [img.onload] and [img.onerror] of such an image. *)
Definition frame_onload (img : Image) : Js unit :=
  drawToCanvas (Some img);;
  updateLive2DStatus "virtual_camera".

Definition frame_onerror : Js unit :=
  console_error "Failed to load WebSocket frame";;
  updateLive2DStatus "error".

(** The [live2d_frame] handler of socket [k]; [frame] is [data.frame]. *)
Definition on_live2d_frame (k : nat) (frame : JsVal) : Js unit :=
  update_socket k (fun s => set_frameCount (frameCount s + 1) s);;
  (* Throttle frame rate *)
  w ← get;
  let a := app w in
  if now w - lastFrameTime a <? frameInterval a then
    update_socket k (set_pendingFrame frame)
  else
    assign (set_lastFrameTime (now w));;
    processWebSocketFrame frame;;
    (* Process any pending frame *)
    pending ← read_pendingFrame k;
    if truthy pending then
      _ ← setTimeout (TFlushPending k) (frameInterval a);
      ret tt
    else ret tt.

(** The callback of that timer. *)
Definition flushPending (k : nat) : Js unit :=
  pending ← read_pendingFrame k;
  processWebSocketFrame pending;;
  update_socket k (set_pendingFrame JNull).

(** The [connect] handler. *)
Definition on_connect : Js unit :=
  (* Request camera status immediately *)
  emit "get_camera_status";;
  (* Start the stream *)
  _ ← setTimeout TEmitStart 500;
  ret tt.

(** The callback registered at the end of [initializeWebSocketStream]. *)
Definition startBackground : Js unit :=
  w ← get;
  match live2dSocket (app w) with
  | Some k =>
      if default false (connected <$> sockets w !! k)
      then emit "start_background_stream"
      else ret tt
  | None => ret tt
  end.

Definition initializeWebSocketStream : Js unit :=
  (* Clear any existing MJPG refresh interval *)
  a ← this;
  match mjpgRefreshInterval a with
  | Some id => clearTimeout id;; assign (set_mjpgRefreshInterval None)
  | None => ret tt
  end;;
  (* Connect to Live2D namespace *)
  w ← get;
  let k := length (sockets w) in
  modify (fun w => with_sockets (sockets w ++ [mkSocket false false 0 JNull]) w);;
  assign (set_live2dSocket (Some k));;
  (* Start background stream after a short delay *)
  _ ← setTimeout TStartBackground 1000;
  updateLive2DStatus "virtual_camera".

(** ** Feed controller *)

(** [setupCanvas]: a new canvas sized to the display element replaces the
    content of that element; its resize listener is [on_resize] below. *)
Definition setupCanvas : Js unit :=
  w ← get;
  match displayBox w with
  | None => throw "TypeError: Cannot set properties of null (setting 'innerHTML')"
  | Some (bw, bh) =>
      let canvas := mkCanvas (nextCanvas w) bw bh in
      modify (with_nextCanvas (S (nextCanvas w)));;
      assign (set_canvasContext (Some (cid canvas)));;
      assign (set_currentStream (Some canvas))
  end.

Definition initializeLive2DStream : Js unit :=
  w ← get;
  match displayBox w with
  | None => console_error "Live2D display element not found"
  | Some _ =>
      (* Prevent multiple initializations *)
      if streamInitialized (app w) then ret tt
      else
        assign (set_streamInitialized true);;
        (* Create canvas for smooth rendering *)
        setupCanvas;;
        a ← this;
        if useMjpgStream a then initializeMjpgStream else initializeWebSocketStream
  end.

(** [socket.disconnect()]. *)
Definition disconnect (k : nat) : Js unit :=
  update_socket k (fun s => set_disconnected true (set_connected false s)).

Definition cleanupStream : Js unit :=
  (* Clear any intervals *)
  a ← this;
  match mjpgRefreshInterval a with
  | Some id => clearTimeout id;; assign (set_mjpgRefreshInterval None)
  | None => ret tt
  end;;
  (* Clear any timeouts *)
  a ← this;
  match canvasRenderTimeout a with
  | Some id => clearTimeout id;; assign (set_canvasRenderTimeout None)
  | None => ret tt
  end;;
  (* Disconnect WebSocket if connected *)
  w ← get;
  match live2dSocket (app w) with
  | Some k =>
      if default false (connected <$> sockets w !! k)
      then disconnect k;; assign (set_live2dSocket None)
      else ret tt
  | None => ret tt
  end;;
  (* Clear current stream *)
  assign (set_currentStream None);;
  assign (set_streamInitialized false);;
  assign (set_currentImage None);;
  assign (set_isLoading false).

Definition toggleStreamMethod : Js unit :=
  a ← this;
  assign (set_useMjpgStream (negb (useMjpgStream a)));;
  a ← this;
  (if useMjpgStream a then
     assign (set_mjpgUrl "/video_feed");;
     showNotification "Switched to MJPG Stream (Raw BGR)" "info"
   else
     showNotification "Switched to WebSocket Stream" "info");;
  (* Clean up current stream *)
  cleanupStream;;
  (* Restart the stream *)
  _ ← setTimeout TInitStream 100;
  ret tt.

Definition startLive2DStream : Js unit :=
  cleanupStream;;
  assign (set_streamInitialized false);;
  _ ← setTimeout TRestartStream 100;
  ret tt.

(** [onTabSwitch('main')]; the message input is not modelled. *)
Definition onTabSwitch_main : Js unit :=
  (* Reinitialize stream when switching to main tab *)
  _ ← setTimeout TTabInit 500;
  ret tt.

(** The callback of that timer. *)
Definition tabInit : Js unit :=
  a ← this;
  if negb (streamInitialized a) then initializeLive2DStream else ret tt.

(** The resize listener installed by [setupCanvas]. *)
Definition on_resize (bw bh : Z) : Js unit :=
  w ← get;
  match displayBox w with
  | None => ret tt
  | Some _ =>
      modify (with_displayBox (Some (bw, bh)));;
      match currentStream (app w) with
      | Some canvas => assign (set_currentStream (Some (mkCanvas (cid canvas) bw bh)))
      | None => ret tt
      end
  end.

(** ** The event loop *)

(** What a timer runs when it fires. *)
Definition run_task (t : Task) : Js unit :=
  match t with
  | TInitStream => initializeLive2DStream
  | TRestartStream =>
      initializeLive2DStream;;
      showNotification "Restarting stream..." "info"
  | TTabInit => tabInit
  | TLoadNextFrame c => loadNextFrame c
  | TRetry c => retry c
  | TFlushPending k => flushPending k
  | TEmitStart => emit "start_background_stream"
  | TStartBackground => startBackground
  | TNotifyFade n => _ ← setTimeout (TNotifyRemove n) 300; ret tt
  | TNotifyRemove n => ret tt
  end.

(** What reaches the program from outside. *)
Inductive Event : Type :=
  | ClickToggle                          (* the toggle-stream button *)
  | ClickRestart                         (* the start-stream button *)
  | ClickMainTab                         (* the tab button of the main tab *)
  | Resize (bw bh : Z)                   (* window resize, new display box *)
  | PullLoaded (c : nat) (iw ih : Z)     (* the request of loader c succeeded *)
  | PullFailed (c : nat)                 (* the request of loader c failed *)
  | SockConnect (k : nat)                (* socket k is connected *)
  | SockFrame (k : nat) (frame : JsVal)  (* live2d_frame on socket k *)
  | FrameLoaded (i : nat) (iw ih : Z)    (* frame image i was decoded *)
  | FrameFailed (i : nat).               (* frame image i failed to decode *)

(** An event for an object that is not waiting for it does not occur: a
    loader without a request in flight gets no response, a socket that was
    disconnected delivers nothing, an image fires one of its handlers once. *)
Definition handle (e : Event) : Js unit :=
  match e with
  | ClickToggle => toggleStreamMethod
  | ClickRestart => startLive2DStream
  | ClickMainTab => onTabSwitch_main
  | Resize bw bh => on_resize bw bh
  | PullLoaded c iw ih =>
      w ← get;
      match inflight <$> loaders w !! c with
      | Some (Some s) =>
          modify (fun w => with_loaders (alter (set_inflight None) c (loaders w)) w);;
          loader_onload c (mkImage s iw ih)
      | _ => ret tt
      end
  | PullFailed c =>
      w ← get;
      match inflight <$> loaders w !! c with
      | Some (Some _) =>
          modify (fun w => with_loaders (alter (set_inflight None) c (loaders w)) w);;
          loader_onerror c
      | _ => ret tt
      end
  | SockConnect k =>
      w ← get;
      match sockets w !! k with
      | Some s =>
          if connected s || disconnected s then ret tt
          else update_socket k (set_connected true);; on_connect
      | None => ret tt
      end
  | SockFrame k frame =>
      w ← get;
      if default false (connected <$> sockets w !! k)
      then on_live2d_frame k frame
      else ret tt
  | FrameLoaded i iw ih =>
      w ← get;
      match decoding w !! i with
      | Some (Some text) =>
          modify (fun w => with_decoding (<[i := None]> (decoding w)) w);;
          frame_onload (mkImage (DataUri text) iw ih)
      | _ => ret tt
      end
  | FrameFailed i =>
      w ← get;
      match decoding w !! i with
      | Some (Some _) =>
          modify (fun w => with_decoding (<[i := None]> (decoding w)) w);;
          frame_onerror
      | _ => ret tt
      end
  end.

(** Run a handler as one turn of the event loop; an exception that escapes
    is reported and the loop goes on. *)
Definition dispatch (h : Js unit) (w : World) : World :=
  match h w with
  | (Normal _, w') => w'
  | (Thrown e, w') => with_uncaught (uncaught w' ++ [e]) w'
  end.

(** The pending timer that fires first: the least due time, the older
    timer on a tie. *)
Fixpoint earliest (l : list Timer) : option Timer :=
  match l with
  | [] => None
  | tm :: l' =>
      match earliest l' with
      | Some tm' => if due tm' <? due tm then Some tm' else Some tm
      | None => Some tm
      end
  end.

(** Timers that fire may start timers of their own; [budget] bounds the
    number of firings the pending timers can cause. *)
Definition weight (t : Task) : nat :=
  match t with
  | TInitStream => 2
  | TRestartStream => 4
  | TTabInit => 2
  | TNotifyFade _ => 2
  | _ => 1
  end.

Definition budget (l : list Timer) : nat :=
  foldr (fun tm n => (weight (task tm) + n)%nat) O l.

(** Fire, in order, every timer due at or before [t]. *)
Fixpoint fire_due (fuel : nat) (t : Z) (w : World) : World :=
  match fuel with
  | O => w
  | S fuel' =>
      match earliest (timers w) with
      | Some tm =>
          if due tm <=? t then
            let w1 := with_timers (filter (fun x => tid x ≠ tid tm) (timers w)) w in
            let w2 := with_now (Z.max (now w1) (due tm)) w1 in
            fire_due fuel' t (dispatch (run_task (task tm)) w2)
          else w
      | None => w
      end
  end.

(** Let time pass until [t]. *)
Definition advance (t : Z) (w : World) : World :=
  let w1 := fire_due (budget (timers w)) t w in
  with_now (Z.max (now w1) t) w1.

(** Deliver an event at a time: the timers due by then fire first. *)
Definition deliver (te : Z * Event) (w : World) : World :=
  dispatch (handle (snd te)) (advance (fst te) w).

(** Deliver a trace of timed events, oldest first. *)
Definition run (trace : list (Z * Event)) (w : World) : World :=
  foldl (fun w te => deliver te w) w trace.

(** ** Start of the page *)

(** The fields set by the constructor. *)
Definition constructor_app : App :=
  {| useMjpgStream := true;
     mjpgUrl := "/video_feed";
     currentStream := None;
     streamInitialized := false;
     canvasContext := None;
     lastFrameTime := 0;
     frameInterval := 100;
     currentImage := None;
     isLoading := false;
     mjpgRefreshInterval := None;
     canvasRenderTimeout := None;
     live2dSocket := None |}.

(** The world when the constructor starts at time [t0], on a page with
    display box [box] and status element [status]. *)
Definition page (t0 : Z) (box : option (Z * Z)) (status : option StatusView) : World :=
  {| app := constructor_app;
     now := t0;
     timers := [];
     nextTimer := 1;
     nextCanvas := 0;
     loaders := [];
     sockets := [];
     decoding := [];
     displayBox := box;
     statusElement := status;
     notifications := [];
     requests := [];
     ctxCalls := [];
     emitted := [];
     consoleErrors := [];
     uncaught := [] |}.

(** [new LumiEnhancedApp()]: [initializeApp] shows the main tab
    ([initializeTabs], [switchTab], [onTabSwitch]) and then starts the
    stream ([setupImmersiveLayout], [initializeLive2DBackground],
    [initializeLive2DStream]). *)
Definition boot (t0 : Z) (box : option (Z * Z)) (status : option StatusView) : World :=
  dispatch (onTabSwitch_main;; initializeLive2DStream) (page t0 box status).

(** ** Observations *)

(** The frames painted so far: time and image of every [drawImage]. *)
Definition presented (w : World) : list (Z * Image) :=
  omap (fun c => match call_op c with
                 | DrawImage img _ _ _ _ => Some (call_time c, img)
                 | ClearRect _ _ _ _ => None
                 end) (ctxCalls w).

Definition request_times (w : World) : list Z := req_time <$> requests w.

(** Presentations of each feed: the polling feed draws its [loaderImg],
    whose source is a URL; the socket feed draws images made from frame
    text. *)
Definition is_pull (p : Z * Image) : bool :=
  match src (snd p) with Url _ _ => true | DataUri _ => false end.

Definition pulled (w : World) : list (Z * Image) :=
  filter (fun p => is_pull p = true) (presented w).
Definition pushed (w : World) : list (Z * Image) :=
  filter (fun p => is_pull p = false) (presented w).

(** Consecutive elements of a list of times are at least [b] apart. *)
Fixpoint spaced (b : Z) (l : list Z) : Prop :=
  match l with
  | t1 :: (t2 :: _) as l' => b <= t2 - t1 /\ spaced b l'
  | _ => True
  end.

(** ** Invariants *)

(** [m] keeps [P]: whatever [m] returns or throws, a world satisfying [P]
    is left in a world satisfying [P]. *)
Definition keeps {A : Type} (P : World -> Prop) (m : Js A) : Prop :=
  forall w, P w -> P (snd (m w)).

(** The stream URL is the one the constructor chose. *)
Definition url_ok (w : World) : Prop := mjpgUrl (app w) = "/video_feed".

(** The times at which the polling feed presented. *)
Definition pull_times (w : World) : list Z := fst <$> pulled w.

(** The rate gate of the polling feed: the last accepted frame is not in
    the future, the polling feed presented nothing after it, and its
    presentations are a frame interval apart. *)
Definition throttled (w : World) : Prop :=
  lastFrameTime (app w) <= now w /\
  Forall (fun t => t <= lastFrameTime (app w)) (pull_times w) /\
  spaced (frameInterval (app w)) (pull_times w).

(** Every request in flight on a loader is a request for a URL. *)
Definition polled_src (w : World) : Prop :=
  Forall (fun l => match inflight l with Some (DataUri _) => False | _ => True end)
         (loaders w).

(** [m] surely keeps [P]: from a world satisfying [P] it completes without
    throwing and leaves a world satisfying [P]. *)
Definition sure {A : Type} (P : World -> Prop) (m : Js A) : Prop :=
  forall w, P w -> P (snd (m w)) /\ exists a, fst (m w) = Normal a.

(** ** Scenarios

    All start from a page of 800 by 600 pixels whose status element is
    still empty, loaded at time 1000; the frame interval is the
    constructor's 100 ms. *)

(** A frame payload as the server sends it. *)
Definition jpeg (name : string) : JsVal := JStr ("data:image/jpeg;base64," ++ name).

Definition pull_world : World :=
  boot 1000 (Some (800, 600)) (Some (mkStatusView "" "")).

(** The first polled frame arrives, the user switches to the socket feed,
    and the socket connects. *)
Definition push_world : World :=
  run [(1040, PullLoaded 0 640 480); (1050, ClickToggle); (1200, SockConnect 0)]
      pull_world.

(** Three socket frames at 2000, 2030 and 2060; the first is decoded at once. *)
Definition three_frames : list (Z * Event) :=
  [(2000, SockFrame 0 (jpeg "A")); (2000, FrameLoaded 0 640 480);
   (2030, SockFrame 0 (jpeg "B"));
   (2060, SockFrame 0 (jpeg "C"))].

(** Socket frames at 2000, 2030, 2100 and 2250, each decoded as soon as
    the program hands it to an image. *)
Definition four_frames : list (Z * Event) :=
  [(2000, SockFrame 0 (jpeg "A")); (2000, FrameLoaded 0 640 480);
   (2030, SockFrame 0 (jpeg "B"));
   (2100, SockFrame 0 (jpeg "C")); (2100, FrameLoaded 1 640 480);
   (2200, FrameLoaded 2 640 480);
   (2250, SockFrame 0 (jpeg "D")); (2250, FrameLoaded 3 640 480)].

(** The stream is restarted while the first request is slow; the old
    request answers at 1200, the new one at 1250. *)
Definition restart_prefix : list (Z * Event) :=
  [(1010, ClickRestart); (1200, PullLoaded 0 640 480)].

Definition restart_trace : list (Z * Event) :=
  restart_prefix ++ [(1250, PullLoaded 1 640 480)].

(** The mode is toggled while the first request is in flight; the response
    arrives at 1300. *)
Definition late_response : list (Z * Event) :=
  [(1010, ClickToggle); (1300, PullLoaded 0 640 480)].

(** The request fails three times in a row, 50 ms after it was issued. *)
Definition three_failures : list (Z * Event) :=
  [(1050, PullFailed 0); (2100, PullFailed 0); (3150, PullFailed 0)].

(** A frame is accepted by the polling feed and the mode is toggled 10 ms
    later. *)
Definition toggle_after_frame : list (Z * Event) :=
  [(1040, PullLoaded 0 640 480); (1050, ClickToggle)].

(** The mode is toggled to the socket feed and back before the socket has
    connected; the socket then connects and delivers a frame. *)
Definition toggle_back : list (Z * Event) :=
  [(1010, ClickToggle); (1120, ClickToggle); (1300, SockConnect 0);
   (1400, SockFrame 0 (jpeg "A")); (1400, FrameLoaded 0 640 480)].


From stdpp Require pretty.

(** * The rest of the page

    The other handlers of [LumiEnhancedApp], and the two helper classes
    [ServiceManager] and [TabManager] of the same file. *)

(** ** Camera controls *)

(** [scanCameras]: the scan button of the service card. *)
Definition scanCameras : Js unit :=
  a ← this;
  match live2dSocket a with
  | Some _ =>
      emit "scan_cameras";;
      showNotification "Scanning for cameras..." "info"
  | None => ret tt
  end.

(** The page polls and has no socket of the avatar namespace. *)
Definition pull_only (w : World) : Prop :=
  useMjpgStream (app w) = true /\ live2dSocket (app w) = None.

(** ** Data received from the server

    The value of a JSON text, or of a property that is read from such a
    value.  Numbers are whole; [DNum n] is the binary64 number nearest to
    [n], which is [n] itself below [2 ^ 53].  Texts are sequences of
    bytes, in UTF-8. *)
#[warnings="-register-all"] Inductive Data : Type :=
  | DUndefined
  | DNull
  | DBool (b : bool)
  | DNum (n : Z)
  | DStr (s : string)
  | DArr (items : list Data)
  | DObj (fields : list (string * Data)).

(** [if (d)]. *)
Definition data_truthy (d : Data) : bool :=
  match d with
  | DUndefined | DNull => false
  | DBool b => b
  | DNum n => negb (n =? 0)
  | DStr s => negb (String.eqb s "")
  | DArr _ | DObj _ => true
  end.

(** The fields of an object are kept in the order they were written; a
    later field of the same name replaces an earlier one. *)
Definition field (fields : list (string * Data)) (name : string) : Data :=
  match List.find (fun kv => String.eqb (fst kv) name) (rev fields) with
  | Some kv => snd kv
  | None => DUndefined
  end.

(** [d.name] for the names this program reads, none of which is a property
    of a text, an array, a number or a boolean; [None] is the TypeError of
    reading a property of [null] or [undefined]. *)
Definition prop (d : Data) (name : string) : option Data :=
  match d with
  | DUndefined | DNull => None
  | DObj fields => Some (field fields name)
  | _ => Some DUndefined
  end.

(** [d?.name]. *)
Definition opt_prop (d : Data) (name : string) : Data :=
  default DUndefined (prop d name).

(** [a || b]. *)
Definition or_else (a b : Data) : Data := if data_truthy a then a else b.

(** [a === 'text']. *)
Definition is_text (a : Data) (text : string) : bool :=
  match a with DStr s => String.eqb s text | _ => false end.

(** [Number.prototype.toString] for a whole number: the digits of the
    decimal with the fewest significant digits that still denotes the
    binary64 number, in plain notation below [10 ^ 21]. *)
Definition denotes (v c : Z) : bool :=
  match round64 (inject_Z c) with
  | Num q => Qeq_bool q (inject_Z v)
  | _ => false
  end.

Definition count_digits (v : Z) : Z := Z.of_nat (String.length (pretty.pretty v)).

Fixpoint shortest (fuel : nat) (k : Z) (v : Z) : Z :=
  match fuel with
  | O => v
  | S fuel' =>
      let e := count_digits v - k in
      if e <? 0 then v
      else
        let p := 10 ^ e in
        let lo := v / p * p in
        let hi := lo + p in
        match denotes v lo, denotes v hi with
        | true, true =>
            if v - lo <? hi - v then lo
            else if hi - v <? v - lo then hi
            else if Z.even (v / p) then lo else hi
        | true, false => lo
        | false, true => hi
        | false, false => shortest fuel' (k + 1) v
        end
  end.

Fixpoint strip_zeros (fuel : nat) (c : Z) : Z :=
  match fuel with
  | O => c
  | S fuel' => if (c mod 10 =? 0) && negb (c =? 0) then strip_zeros fuel' (c / 10) else c
  end.

Definition exponential (c : Z) : string :=
  let s := pretty.pretty (strip_zeros 400 c) in
  let e := pretty.pretty (count_digits c - 1) in
  match s with
  | String d EmptyString => String d ("e+" ++ e)%string
  | String d rest => String d ("." ++ rest ++ "e+" ++ e)%string
  | EmptyString => ""
  end.

Definition number_to_string (n : Z) : string :=
  match round64 (inject_Z n) with
  | Num q =>
      let v := Qnum q in
      if v =? 0 then "0"
      else
        let c := shortest 20 1 (Z.abs v) in
        let body := if c <? 10 ^ 21 then pretty.pretty c else exponential c in
        if v <? 0 then ("-" ++ body)%string else body
  | Infinity => "Infinity"
  | NegInfinity => "-Infinity"
  | NaN => "NaN"
  end.

(** [`${d}`]. *)
Fixpoint to_string (d : Data) : string :=
  match d with
  | DUndefined => "undefined"
  | DNull => "null"
  | DBool b => if b then "true" else "false"
  | DNum n => number_to_string n
  | DStr s => s
  | DArr items =>
      (fix join (l : list Data) : string :=
         let item e := match e with DUndefined | DNull => "" | _ => to_string e end in
         match l with
         | [] => ""
         | [e] => item e
         | e :: l' => String.append (item e) (String.append "," (join l'))
         end) items
  | DObj _ => "[object Object]"
  end.

(** The own properties that [{...d}] copies. *)
Definition own_props (d : Data) : list (string * Data) :=
  match d with
  | DObj fields => fields
  | DArr items => imap (fun i e => (pretty.pretty i, e)) items
  | DStr s =>
      imap (fun i c => (pretty.pretty i, DStr (String c EmptyString)))
           (String.list_ascii_of_string s)
  | _ => []
  end.

(** ** The page shell

    [LumiEnhancedApp] beside the stream: the tabs and the swipe gestures,
    the chat overlay, the theme and the chat box.  The state [Shell] holds
    the stream state, the other fields of [this], the closure variables of
    the gesture handlers, and the elements of the document that the
    handlers look up; an element the page may lack is an [option].

    Coordinates are whole pixels.  Tab and theme names are plain words (no
    quote, no backslash), as a CSS attribute selector needs them.  Styles
    other than the overlay's [transform] are left out. *)

(** [.chat-overlay]: its class [expanded] and the [translateY] of its
    [style.transform], in pixels ([None] when the style is empty). *)
Record Overlay : Type := mkOverlay {
  expanded : bool;
  transform : option JsNum
}.

(** [#message-input]. *)
Record Input : Type := mkInput {
  value : string;
  focused : bool
}.

(** A service card as [createServiceCard] builds it, possibly lacking
    parts: the class of its [.status-indicator], its [.service-status]
    with the text of the last [span] in it, and the text of its
    [.service-details]. *)
Record Card : Type := mkCard {
  indicator : option string;
  statusText : option (option string);
  detailsText : option string
}.

(** Messages sent on the main socket. *)
Inductive ServerMsg : Type :=
  | ChatMessage (message : string)            (* chat_message *)
  | ThemeChanged (theme mode : string)        (* theme_changed *)
  | ConnectToVts                              (* connect_to_vts *)
  | VtsStatusUpdate (status : list (string * Data)).   (* vts_status_update *)

(** Callbacks that the shell hands to [setTimeout]. *)
Inductive ShTask : Type :=
  | TFocusInput                               (* toggleOverlay, 300 ms *)
  | TToggleOverlay.                           (* optimizeForMobile, 500 ms *)

Record Shell : Type := mkShell {
  world : World;                                 (* stream state *)
  currentTheme : string;
  currentMode : string;
  currentTab : string;
  isMobile : bool;
  isOverlayExpanded : bool;
  startX : Z;                                    (* closure of setupTouchGestures *)
  currentX : Z;
  startY : Z;                                    (* closure of setupSwipeToExpand *)
  currentY : Z;
  isSwiping : bool;
  tabContents : list (string * bool);            (* .tab-content: id, active *)
  tabButtons : list (string * bool);             (* .tab-button: data-tab, active *)
  themeCards : list (string * bool);             (* .theme-card: data-theme, active *)
  dataTheme : option string;                     (* data-theme of the root element *)
  dataMode : option string;                      (* data-mode of the root element *)
  chatOverlay : option Overlay;                  (* .chat-overlay *)
  expandToggle : option (option string);         (* #expand-toggle and the class of its <i> *)
  messageInput : option Input;                   (* #message-input *)
  sendButton : option bool;                      (* #send-button: disabled *)
  chatMessages : option (list (string * string)); (* #chat-messages: text, sender *)
  typingIndicator : option bool;                 (* #typing-indicator: hidden *)
  hasBackground : bool;                          (* .live2d-background *)
  localStorage : list (string * string);
  sent : list ServerMsg;                         (* this.socket.emit *)
  fetches : list string;                         (* fetch *)
  pending : list (Z * ShTask);                   (* setTimeout of the shell: due time, callback *)
  rejected : list string;                        (* unhandled promise rejections *)
  vtsStatus : list (string * Data);
  cameraStatus : list (string * Data);
  cards : list (string * Card)                   (* [data-service] cards *)
}.

(** Field assignment: [put_f v s] is [s] with component [f] replaced. *)

Definition put_world (v : World) (s : Shell) : Shell :=
  mkShell v (currentTheme s) (currentMode s) (currentTab s) (isMobile s)
    (isOverlayExpanded s) (startX s) (currentX s) (startY s) (currentY s) (isSwiping
    s) (tabContents s) (tabButtons s) (themeCards s) (dataTheme s) (dataMode s)
    (chatOverlay s) (expandToggle s) (messageInput s) (sendButton s) (chatMessages
    s) (typingIndicator s) (hasBackground s) (localStorage s) (sent s) (fetches s)
    (pending s) (rejected s) (vtsStatus s) (cameraStatus s) (cards s).

Definition put_currentTheme (v : string) (s : Shell) : Shell :=
  mkShell (world s) v (currentMode s) (currentTab s) (isMobile s) (isOverlayExpanded
    s) (startX s) (currentX s) (startY s) (currentY s) (isSwiping s) (tabContents s)
    (tabButtons s) (themeCards s) (dataTheme s) (dataMode s) (chatOverlay s)
    (expandToggle s) (messageInput s) (sendButton s) (chatMessages s)
    (typingIndicator s) (hasBackground s) (localStorage s) (sent s) (fetches s)
    (pending s) (rejected s) (vtsStatus s) (cameraStatus s) (cards s).

Definition put_currentMode (v : string) (s : Shell) : Shell :=
  mkShell (world s) (currentTheme s) v (currentTab s) (isMobile s)
    (isOverlayExpanded s) (startX s) (currentX s) (startY s) (currentY s) (isSwiping
    s) (tabContents s) (tabButtons s) (themeCards s) (dataTheme s) (dataMode s)
    (chatOverlay s) (expandToggle s) (messageInput s) (sendButton s) (chatMessages
    s) (typingIndicator s) (hasBackground s) (localStorage s) (sent s) (fetches s)
    (pending s) (rejected s) (vtsStatus s) (cameraStatus s) (cards s).

Definition put_currentTab (v : string) (s : Shell) : Shell :=
  mkShell (world s) (currentTheme s) (currentMode s) v (isMobile s)
    (isOverlayExpanded s) (startX s) (currentX s) (startY s) (currentY s) (isSwiping
    s) (tabContents s) (tabButtons s) (themeCards s) (dataTheme s) (dataMode s)
    (chatOverlay s) (expandToggle s) (messageInput s) (sendButton s) (chatMessages
    s) (typingIndicator s) (hasBackground s) (localStorage s) (sent s) (fetches s)
    (pending s) (rejected s) (vtsStatus s) (cameraStatus s) (cards s).

Definition put_isMobile (v : bool) (s : Shell) : Shell :=
  mkShell (world s) (currentTheme s) (currentMode s) (currentTab s) v
    (isOverlayExpanded s) (startX s) (currentX s) (startY s) (currentY s) (isSwiping
    s) (tabContents s) (tabButtons s) (themeCards s) (dataTheme s) (dataMode s)
    (chatOverlay s) (expandToggle s) (messageInput s) (sendButton s) (chatMessages
    s) (typingIndicator s) (hasBackground s) (localStorage s) (sent s) (fetches s)
    (pending s) (rejected s) (vtsStatus s) (cameraStatus s) (cards s).

Definition put_isOverlayExpanded (v : bool) (s : Shell) : Shell :=
  mkShell (world s) (currentTheme s) (currentMode s) (currentTab s) (isMobile s) v
    (startX s) (currentX s) (startY s) (currentY s) (isSwiping s) (tabContents s)
    (tabButtons s) (themeCards s) (dataTheme s) (dataMode s) (chatOverlay s)
    (expandToggle s) (messageInput s) (sendButton s) (chatMessages s)
    (typingIndicator s) (hasBackground s) (localStorage s) (sent s) (fetches s)
    (pending s) (rejected s) (vtsStatus s) (cameraStatus s) (cards s).

Definition put_startX (v : Z) (s : Shell) : Shell :=
  mkShell (world s) (currentTheme s) (currentMode s) (currentTab s) (isMobile s)
    (isOverlayExpanded s) v (currentX s) (startY s) (currentY s) (isSwiping s)
    (tabContents s) (tabButtons s) (themeCards s) (dataTheme s) (dataMode s)
    (chatOverlay s) (expandToggle s) (messageInput s) (sendButton s) (chatMessages
    s) (typingIndicator s) (hasBackground s) (localStorage s) (sent s) (fetches s)
    (pending s) (rejected s) (vtsStatus s) (cameraStatus s) (cards s).

Definition put_currentX (v : Z) (s : Shell) : Shell :=
  mkShell (world s) (currentTheme s) (currentMode s) (currentTab s) (isMobile s)
    (isOverlayExpanded s) (startX s) v (startY s) (currentY s) (isSwiping s)
    (tabContents s) (tabButtons s) (themeCards s) (dataTheme s) (dataMode s)
    (chatOverlay s) (expandToggle s) (messageInput s) (sendButton s) (chatMessages
    s) (typingIndicator s) (hasBackground s) (localStorage s) (sent s) (fetches s)
    (pending s) (rejected s) (vtsStatus s) (cameraStatus s) (cards s).

Definition put_startY (v : Z) (s : Shell) : Shell :=
  mkShell (world s) (currentTheme s) (currentMode s) (currentTab s) (isMobile s)
    (isOverlayExpanded s) (startX s) (currentX s) v (currentY s) (isSwiping s)
    (tabContents s) (tabButtons s) (themeCards s) (dataTheme s) (dataMode s)
    (chatOverlay s) (expandToggle s) (messageInput s) (sendButton s) (chatMessages
    s) (typingIndicator s) (hasBackground s) (localStorage s) (sent s) (fetches s)
    (pending s) (rejected s) (vtsStatus s) (cameraStatus s) (cards s).

Definition put_currentY (v : Z) (s : Shell) : Shell :=
  mkShell (world s) (currentTheme s) (currentMode s) (currentTab s) (isMobile s)
    (isOverlayExpanded s) (startX s) (currentX s) (startY s) v (isSwiping s)
    (tabContents s) (tabButtons s) (themeCards s) (dataTheme s) (dataMode s)
    (chatOverlay s) (expandToggle s) (messageInput s) (sendButton s) (chatMessages
    s) (typingIndicator s) (hasBackground s) (localStorage s) (sent s) (fetches s)
    (pending s) (rejected s) (vtsStatus s) (cameraStatus s) (cards s).

Definition put_isSwiping (v : bool) (s : Shell) : Shell :=
  mkShell (world s) (currentTheme s) (currentMode s) (currentTab s) (isMobile s)
    (isOverlayExpanded s) (startX s) (currentX s) (startY s) (currentY s) v
    (tabContents s) (tabButtons s) (themeCards s) (dataTheme s) (dataMode s)
    (chatOverlay s) (expandToggle s) (messageInput s) (sendButton s) (chatMessages
    s) (typingIndicator s) (hasBackground s) (localStorage s) (sent s) (fetches s)
    (pending s) (rejected s) (vtsStatus s) (cameraStatus s) (cards s).

Definition put_tabContents (v : list (string * bool)) (s : Shell) : Shell :=
  mkShell (world s) (currentTheme s) (currentMode s) (currentTab s) (isMobile s)
    (isOverlayExpanded s) (startX s) (currentX s) (startY s) (currentY s) (isSwiping
    s) v (tabButtons s) (themeCards s) (dataTheme s) (dataMode s) (chatOverlay s)
    (expandToggle s) (messageInput s) (sendButton s) (chatMessages s)
    (typingIndicator s) (hasBackground s) (localStorage s) (sent s) (fetches s)
    (pending s) (rejected s) (vtsStatus s) (cameraStatus s) (cards s).

Definition put_tabButtons (v : list (string * bool)) (s : Shell) : Shell :=
  mkShell (world s) (currentTheme s) (currentMode s) (currentTab s) (isMobile s)
    (isOverlayExpanded s) (startX s) (currentX s) (startY s) (currentY s) (isSwiping
    s) (tabContents s) v (themeCards s) (dataTheme s) (dataMode s) (chatOverlay s)
    (expandToggle s) (messageInput s) (sendButton s) (chatMessages s)
    (typingIndicator s) (hasBackground s) (localStorage s) (sent s) (fetches s)
    (pending s) (rejected s) (vtsStatus s) (cameraStatus s) (cards s).

Definition put_themeCards (v : list (string * bool)) (s : Shell) : Shell :=
  mkShell (world s) (currentTheme s) (currentMode s) (currentTab s) (isMobile s)
    (isOverlayExpanded s) (startX s) (currentX s) (startY s) (currentY s) (isSwiping
    s) (tabContents s) (tabButtons s) v (dataTheme s) (dataMode s) (chatOverlay s)
    (expandToggle s) (messageInput s) (sendButton s) (chatMessages s)
    (typingIndicator s) (hasBackground s) (localStorage s) (sent s) (fetches s)
    (pending s) (rejected s) (vtsStatus s) (cameraStatus s) (cards s).

Definition put_dataTheme (v : option string) (s : Shell) : Shell :=
  mkShell (world s) (currentTheme s) (currentMode s) (currentTab s) (isMobile s)
    (isOverlayExpanded s) (startX s) (currentX s) (startY s) (currentY s) (isSwiping
    s) (tabContents s) (tabButtons s) (themeCards s) v (dataMode s) (chatOverlay s)
    (expandToggle s) (messageInput s) (sendButton s) (chatMessages s)
    (typingIndicator s) (hasBackground s) (localStorage s) (sent s) (fetches s)
    (pending s) (rejected s) (vtsStatus s) (cameraStatus s) (cards s).

Definition put_dataMode (v : option string) (s : Shell) : Shell :=
  mkShell (world s) (currentTheme s) (currentMode s) (currentTab s) (isMobile s)
    (isOverlayExpanded s) (startX s) (currentX s) (startY s) (currentY s) (isSwiping
    s) (tabContents s) (tabButtons s) (themeCards s) (dataTheme s) v (chatOverlay s)
    (expandToggle s) (messageInput s) (sendButton s) (chatMessages s)
    (typingIndicator s) (hasBackground s) (localStorage s) (sent s) (fetches s)
    (pending s) (rejected s) (vtsStatus s) (cameraStatus s) (cards s).

Definition put_chatOverlay (v : option Overlay) (s : Shell) : Shell :=
  mkShell (world s) (currentTheme s) (currentMode s) (currentTab s) (isMobile s)
    (isOverlayExpanded s) (startX s) (currentX s) (startY s) (currentY s) (isSwiping
    s) (tabContents s) (tabButtons s) (themeCards s) (dataTheme s) (dataMode s) v
    (expandToggle s) (messageInput s) (sendButton s) (chatMessages s)
    (typingIndicator s) (hasBackground s) (localStorage s) (sent s) (fetches s)
    (pending s) (rejected s) (vtsStatus s) (cameraStatus s) (cards s).

Definition put_expandToggle (v : option (option string)) (s : Shell) : Shell :=
  mkShell (world s) (currentTheme s) (currentMode s) (currentTab s) (isMobile s)
    (isOverlayExpanded s) (startX s) (currentX s) (startY s) (currentY s) (isSwiping
    s) (tabContents s) (tabButtons s) (themeCards s) (dataTheme s) (dataMode s)
    (chatOverlay s) v (messageInput s) (sendButton s) (chatMessages s)
    (typingIndicator s) (hasBackground s) (localStorage s) (sent s) (fetches s)
    (pending s) (rejected s) (vtsStatus s) (cameraStatus s) (cards s).

Definition put_messageInput (v : option Input) (s : Shell) : Shell :=
  mkShell (world s) (currentTheme s) (currentMode s) (currentTab s) (isMobile s)
    (isOverlayExpanded s) (startX s) (currentX s) (startY s) (currentY s) (isSwiping
    s) (tabContents s) (tabButtons s) (themeCards s) (dataTheme s) (dataMode s)
    (chatOverlay s) (expandToggle s) v (sendButton s) (chatMessages s)
    (typingIndicator s) (hasBackground s) (localStorage s) (sent s) (fetches s)
    (pending s) (rejected s) (vtsStatus s) (cameraStatus s) (cards s).

Definition put_sendButton (v : option bool) (s : Shell) : Shell :=
  mkShell (world s) (currentTheme s) (currentMode s) (currentTab s) (isMobile s)
    (isOverlayExpanded s) (startX s) (currentX s) (startY s) (currentY s) (isSwiping
    s) (tabContents s) (tabButtons s) (themeCards s) (dataTheme s) (dataMode s)
    (chatOverlay s) (expandToggle s) (messageInput s) v (chatMessages s)
    (typingIndicator s) (hasBackground s) (localStorage s) (sent s) (fetches s)
    (pending s) (rejected s) (vtsStatus s) (cameraStatus s) (cards s).

Definition put_chatMessages (v : option (list (string * string))) (s : Shell) : Shell :=
  mkShell (world s) (currentTheme s) (currentMode s) (currentTab s) (isMobile s)
    (isOverlayExpanded s) (startX s) (currentX s) (startY s) (currentY s) (isSwiping
    s) (tabContents s) (tabButtons s) (themeCards s) (dataTheme s) (dataMode s)
    (chatOverlay s) (expandToggle s) (messageInput s) (sendButton s) v
    (typingIndicator s) (hasBackground s) (localStorage s) (sent s) (fetches s)
    (pending s) (rejected s) (vtsStatus s) (cameraStatus s) (cards s).

Definition put_typingIndicator (v : option bool) (s : Shell) : Shell :=
  mkShell (world s) (currentTheme s) (currentMode s) (currentTab s) (isMobile s)
    (isOverlayExpanded s) (startX s) (currentX s) (startY s) (currentY s) (isSwiping
    s) (tabContents s) (tabButtons s) (themeCards s) (dataTheme s) (dataMode s)
    (chatOverlay s) (expandToggle s) (messageInput s) (sendButton s) (chatMessages
    s) v (hasBackground s) (localStorage s) (sent s) (fetches s) (pending s)
    (rejected s) (vtsStatus s) (cameraStatus s) (cards s).

Definition put_hasBackground (v : bool) (s : Shell) : Shell :=
  mkShell (world s) (currentTheme s) (currentMode s) (currentTab s) (isMobile s)
    (isOverlayExpanded s) (startX s) (currentX s) (startY s) (currentY s) (isSwiping
    s) (tabContents s) (tabButtons s) (themeCards s) (dataTheme s) (dataMode s)
    (chatOverlay s) (expandToggle s) (messageInput s) (sendButton s) (chatMessages
    s) (typingIndicator s) v (localStorage s) (sent s) (fetches s) (pending s)
    (rejected s) (vtsStatus s) (cameraStatus s) (cards s).

Definition put_localStorage (v : list (string * string)) (s : Shell) : Shell :=
  mkShell (world s) (currentTheme s) (currentMode s) (currentTab s) (isMobile s)
    (isOverlayExpanded s) (startX s) (currentX s) (startY s) (currentY s) (isSwiping
    s) (tabContents s) (tabButtons s) (themeCards s) (dataTheme s) (dataMode s)
    (chatOverlay s) (expandToggle s) (messageInput s) (sendButton s) (chatMessages
    s) (typingIndicator s) (hasBackground s) v (sent s) (fetches s) (pending s)
    (rejected s) (vtsStatus s) (cameraStatus s) (cards s).

Definition put_sent (v : list ServerMsg) (s : Shell) : Shell :=
  mkShell (world s) (currentTheme s) (currentMode s) (currentTab s) (isMobile s)
    (isOverlayExpanded s) (startX s) (currentX s) (startY s) (currentY s) (isSwiping
    s) (tabContents s) (tabButtons s) (themeCards s) (dataTheme s) (dataMode s)
    (chatOverlay s) (expandToggle s) (messageInput s) (sendButton s) (chatMessages
    s) (typingIndicator s) (hasBackground s) (localStorage s) v (fetches s) (pending
    s) (rejected s) (vtsStatus s) (cameraStatus s) (cards s).

Definition put_fetches (v : list string) (s : Shell) : Shell :=
  mkShell (world s) (currentTheme s) (currentMode s) (currentTab s) (isMobile s)
    (isOverlayExpanded s) (startX s) (currentX s) (startY s) (currentY s) (isSwiping
    s) (tabContents s) (tabButtons s) (themeCards s) (dataTheme s) (dataMode s)
    (chatOverlay s) (expandToggle s) (messageInput s) (sendButton s) (chatMessages
    s) (typingIndicator s) (hasBackground s) (localStorage s) (sent s) v (pending s)
    (rejected s) (vtsStatus s) (cameraStatus s) (cards s).

Definition put_pending (v : list (Z * ShTask)) (s : Shell) : Shell :=
  mkShell (world s) (currentTheme s) (currentMode s) (currentTab s) (isMobile s)
    (isOverlayExpanded s) (startX s) (currentX s) (startY s) (currentY s) (isSwiping
    s) (tabContents s) (tabButtons s) (themeCards s) (dataTheme s) (dataMode s)
    (chatOverlay s) (expandToggle s) (messageInput s) (sendButton s) (chatMessages
    s) (typingIndicator s) (hasBackground s) (localStorage s) (sent s) (fetches s) v
    (rejected s) (vtsStatus s) (cameraStatus s) (cards s).

Definition put_rejected (v : list string) (s : Shell) : Shell :=
  mkShell (world s) (currentTheme s) (currentMode s) (currentTab s) (isMobile s)
    (isOverlayExpanded s) (startX s) (currentX s) (startY s) (currentY s) (isSwiping
    s) (tabContents s) (tabButtons s) (themeCards s) (dataTheme s) (dataMode s)
    (chatOverlay s) (expandToggle s) (messageInput s) (sendButton s) (chatMessages
    s) (typingIndicator s) (hasBackground s) (localStorage s) (sent s) (fetches s)
    (pending s) v (vtsStatus s) (cameraStatus s) (cards s).

Definition put_vtsStatus (v : list (string * Data)) (s : Shell) : Shell :=
  mkShell (world s) (currentTheme s) (currentMode s) (currentTab s) (isMobile s)
    (isOverlayExpanded s) (startX s) (currentX s) (startY s) (currentY s) (isSwiping
    s) (tabContents s) (tabButtons s) (themeCards s) (dataTheme s) (dataMode s)
    (chatOverlay s) (expandToggle s) (messageInput s) (sendButton s) (chatMessages
    s) (typingIndicator s) (hasBackground s) (localStorage s) (sent s) (fetches s)
    (pending s) (rejected s) v (cameraStatus s) (cards s).

Definition put_cameraStatus (v : list (string * Data)) (s : Shell) : Shell :=
  mkShell (world s) (currentTheme s) (currentMode s) (currentTab s) (isMobile s)
    (isOverlayExpanded s) (startX s) (currentX s) (startY s) (currentY s) (isSwiping
    s) (tabContents s) (tabButtons s) (themeCards s) (dataTheme s) (dataMode s)
    (chatOverlay s) (expandToggle s) (messageInput s) (sendButton s) (chatMessages
    s) (typingIndicator s) (hasBackground s) (localStorage s) (sent s) (fetches s)
    (pending s) (rejected s) (vtsStatus s) v (cards s).

Definition put_cards (v : list (string * Card)) (s : Shell) : Shell :=
  mkShell (world s) (currentTheme s) (currentMode s) (currentTab s) (isMobile s)
    (isOverlayExpanded s) (startX s) (currentX s) (startY s) (currentY s) (isSwiping
    s) (tabContents s) (tabButtons s) (themeCards s) (dataTheme s) (dataMode s)
    (chatOverlay s) (expandToggle s) (messageInput s) (sendButton s) (chatMessages
    s) (typingIndicator s) (hasBackground s) (localStorage s) (sent s) (fetches s)
    (pending s) (rejected s) (vtsStatus s) (cameraStatus s) v.
Definition set_expanded (v : bool) (o : Overlay) : Overlay := mkOverlay v (transform o).
Definition set_transform (v : option JsNum) (o : Overlay) : Overlay :=
  mkOverlay (expanded o) v.
Definition set_value (v : string) (i : Input) : Input := mkInput v (focused i).
Definition set_focused (v : bool) (i : Input) : Input := mkInput (value i) v.

(** Handlers of the shell: the same monad over [Shell]. *)
Definition Sh (A : Type) : Type := Shell -> Completion A * Shell.

#[global] Instance Sh_ret : MRet Sh := fun A a s => (Normal a, s).
#[global] Instance Sh_bind : MBind Sh := fun A B k m s =>
  match m s with
  | (Normal a, s') => k a s'
  | (Thrown e, s') => (Thrown e, s')
  end.

Definition sh_throw {A : Type} (e : string) : Sh A := fun s => (Thrown e, s).
Definition sh_get : Sh Shell := fun s => (Normal s, s).
Definition sh_modify (f : Shell -> Shell) : Sh unit := fun s => (Normal tt, f s).

(** A handler of the stream, run on the stream state of the shell. *)
Definition lift {A : Type} (m : Js A) : Sh A :=
  fun s => (fst (m (world s)), put_world (snd (m (world s))) s).

Definition sh_exec {A : Type} (m : Sh A) (s : Shell) : Shell := snd (m s).
Definition sh_throws {A : Type} (m : Sh A) (s : Shell) : bool :=
  match fst (m s) with Normal _ => false | Thrown _ => true end.

(** A listener run as one turn of the event loop: an exception that
    escapes is reported, and the listeners of later events run all the
    same. *)
Definition sh_dispatch (h : Sh unit) (s : Shell) : Shell :=
  match h s with
  | (Normal _, s') => s'
  | (Thrown e, s') =>
      put_world (with_uncaught (uncaught (world s') ++ [e]) (world s')) s'
  end.

(** The synchronous part of an [async] method: what it throws does not
    reach the caller, it rejects the promise that the method returns. *)
Definition async (m : Sh unit) : Sh unit :=
  fun s =>
    match m s with
    | (Normal _, s') => (Normal tt, s')
    | (Thrown e, s') => (Normal tt, put_rejected (rejected s' ++ [e]) s')
    end.

Definition sh_setTimeout (cb : ShTask) (delay : Z) : Sh unit :=
  sh_modify (fun s => put_pending (pending s ++ [(now (world s) + delay, cb)]) s).

(** [this.socket.emit(..)] and [fetch(url)]. *)
Definition socket_emit (msg : ServerMsg) : Sh unit :=
  sh_modify (fun s => put_sent (sent s ++ [msg]) s).
Definition fetch (url : string) : Sh unit :=
  sh_modify (fun s => put_fetches (fetches s ++ [url]) s).

(** *** Tabs *)

(** [classList.remove('active')] on every element of a list. *)
Definition deactivate (l : list (string * bool)) : list (string * bool) :=
  (fun x => (fst x, false)) <$> l.

(** The first element of that name, as [getElementById] and
    [querySelector] find it. *)
Definition has (name : string) (l : list (string * bool)) : bool :=
  existsb (fun x => String.eqb (fst x) name) l.

(** [classList.add('active')] on that element. *)
Fixpoint activate_first (name : string) (l : list (string * bool)) : list (string * bool) :=
  match l with
  | [] => []
  | x :: l' =>
      if String.eqb (fst x) name then (fst x, true) :: l'
      else x :: activate_first name l'
  end.

Definition focusMessageInput : Sh unit :=
  s ← sh_get;
  match messageInput s with
  | Some input =>
      if isOverlayExpanded s
      then sh_modify (put_messageInput (Some (set_focused true input)))
      else mret tt
  | None => mret tt
  end.

(** [loadAnalyticsData]: the request; what is done with the response is
    not modelled. *)
Definition loadAnalyticsData : Sh unit := async (fetch "/api/dashboard").

Definition loadThemeGallery : Sh unit := mret tt.

Definition onTabSwitch (tabName : string) : Sh unit :=
  if String.eqb tabName "main" then
    focusMessageInput;;
    (* Reinitialize stream when switching to main tab *)
    lift onTabSwitch_main
  else if String.eqb tabName "analytics" then loadAnalyticsData
  else if String.eqb tabName "appearance" then loadThemeGallery
  else mret tt.

Definition switchTab (tabName : string) : Sh unit :=
  (* Hide all tab contents *)
  sh_modify (fun s => put_tabContents (deactivate (tabContents s)) s);;
  (* Remove active class from all tab buttons *)
  sh_modify (fun s => put_tabButtons (deactivate (tabButtons s)) s);;
  (* Show selected tab content *)
  s ← sh_get;
  let targetTab := String.append tabName "-tab" in
  if has targetTab (tabContents s) && has tabName (tabButtons s) then
    sh_modify (fun s => put_tabContents (activate_first targetTab (tabContents s)) s);;
    sh_modify (fun s => put_tabButtons (activate_first tabName (tabButtons s)) s);;
    sh_modify (put_currentTab tabName);;
    (* Tab-specific initializations *)
    onTabSwitch tabName
  else mret tt.

(** [tabs.indexOf(x)]. *)
Fixpoint indexOf (tabs : list string) (x : string) : Z :=
  match tabs with
  | [] => -1
  | y :: tabs' =>
      if String.eqb y x then 0
      else let i := indexOf tabs' x in if i <? 0 then -1 else i + 1
  end.

(** [tabs[i]] for an index that is a whole number; outside the array the
    result is [undefined], which the template of [switchTab] prints. *)
Definition item (tabs : list string) (i : Z) : string :=
  if i <? 0 then "undefined" else default "undefined" (tabs !! Z.to_nat i).

Definition swipeLeft : Sh unit :=
  s ← sh_get;
  let tabs := ["main"; "analytics"; "appearance"] in
  let currentIndex := indexOf tabs (currentTab s) in
  if currentIndex <? Z.of_nat (length tabs) - 1
  then switchTab (item tabs (currentIndex + 1))
  else mret tt.

Definition swipeRight : Sh unit :=
  s ← sh_get;
  let tabs := ["main"; "analytics"; "appearance"] in
  let currentIndex := indexOf tabs (currentTab s) in
  if currentIndex >? 0
  then switchTab (item tabs (currentIndex - 1))
  else mret tt.

(** The three listeners of [setupTouchGestures]; [x] is
    [e.touches[0].clientX]. *)
Definition doc_touchstart (x : Z) : Sh unit := sh_modify (put_startX x).
Definition doc_touchmove (x : Z) : Sh unit := sh_modify (put_currentX x).
Definition doc_touchend : Sh unit :=
  s ← sh_get;
  let diff := startX s - currentX s in
  let minSwipeDistance := 60 in
  if Z.abs diff >? minSwipeDistance then
    if diff >? 0 then swipeLeft else swipeRight
  else mret tt.

(** The tabs of a list that carry the class [active]. *)
Definition active (l : list (string * bool)) : list string :=
  fst <$> filter (fun x => snd x = true) l.

(** *** Chat overlay *)

(** The callback of the timer of [toggleOverlay]. *)
Definition focusInput : Sh unit :=
  s ← sh_get;
  match messageInput s with
  | Some input => sh_modify (put_messageInput (Some (set_focused true input)))
  | None => mret tt
  end.

Definition toggleOverlay : Sh unit :=
  s ← sh_get;
  match chatOverlay s, expandToggle s with
  | Some _, Some icon =>
      sh_modify (put_isOverlayExpanded (negb (isOverlayExpanded s)));;
      s ← sh_get;
      sh_modify (fun s => put_chatOverlay
                            (set_expanded (isOverlayExpanded s) <$> chatOverlay s) s);;
      match icon with
      | None => sh_throw "TypeError: Cannot set properties of null (setting 'className')"
      | Some _ =>
          if isOverlayExpanded s then
            sh_modify (put_expandToggle (Some (Some "fas fa-chevron-down")));;
            (* Focus input when expanded *)
            sh_setTimeout TFocusInput 300
          else
            sh_modify (put_expandToggle (Some (Some "fas fa-chevron-up")))
      end
  | _, _ => mret tt
  end.

(** Whether a call of [toggleOverlay] would throw: the page has the
    overlay and the toggle, but the toggle has no [<i>]. *)
Definition toggle_breaks (s : Shell) : bool :=
  match chatOverlay s, expandToggle s with
  | Some _, Some None => true
  | _, _ => false
  end.

(** [Math.min(a, b)]. *)
Definition num_min (a b : JsNum) : JsNum :=
  match a, b with
  | NaN, _ | _, NaN => NaN
  | _, _ => if num_gt a b then b else a
  end.

Definition updateSwipeVisualFeedback (diff : Z) : Sh unit :=
  s ← sh_get;
  match chatOverlay s with
  | None => mret tt
  | Some overlay =>
      (* Add subtle visual feedback during swipe *)
      if (diff >? 0) && negb (isOverlayExpanded s) then
        sh_modify (put_chatOverlay (Some (set_transform
          (Some (num_neg (num_min (num_mul (ofZ diff) (Num (1 # 2))) (ofZ 20))))
          overlay)))
      else if (diff <? 0) && isOverlayExpanded s then
        sh_modify (put_chatOverlay (Some (set_transform
          (Some (num_min (num_mul (ofZ (Z.abs diff)) (Num (1 # 2))) (ofZ 20)))
          overlay)))
      else mret tt
  end.

Definition clearSwipeVisualFeedback : Sh unit :=
  sh_modify (fun s => put_chatOverlay (set_transform None <$> chatOverlay s) s).

(** The three listeners that [setupSwipeToExpand] puts on the header of
    the overlay; [y] is [e.touches[0].clientY]. *)
Definition header_touchstart (y : Z) : Sh unit :=
  sh_modify (put_startY y);;
  sh_modify (put_isSwiping true).

Definition header_touchmove (y : Z) : Sh unit :=
  s ← sh_get;
  if negb (isSwiping s) then mret tt
  else
    sh_modify (put_currentY y);;
    let diff := startY s - y in
    (* Visual feedback during swipe *)
    if Z.abs diff >? 10 then updateSwipeVisualFeedback diff else mret tt.

Definition header_touchend : Sh unit :=
  s ← sh_get;
  if negb (isSwiping s) then mret tt
  else
    let diff := startY s - currentY s in
    let minSwipeDistance := 40 in
    (if Z.abs diff >? minSwipeDistance then
       if (diff >? 0) && negb (isOverlayExpanded s) then
         (* Swipe up - expand *)
         toggleOverlay
       else if (diff <? 0) && isOverlayExpanded s then
         (* Swipe down - collapse *)
         toggleOverlay
       else mret tt
     else mret tt);;
    clearSwipeVisualFeedback;;
    sh_modify (put_isSwiping false);;
    sh_modify (put_startY 0);;
    sh_modify (put_currentY 0).

(** A swipe on the header: the browser delivers [touchstart] at [y0],
    [touchmove] to [y1] and [touchend], each to its listener. *)
Definition header_swipe (y0 y1 : Z) (s : Shell) : Shell :=
  sh_dispatch header_touchend
    (sh_dispatch (header_touchmove y1) (sh_dispatch (header_touchstart y0) s)).

(** A tap on the header of the overlay on a mobile page, beside the
    toggle button: the browser delivers [touchstart], [touchend] and then
    [click], whose listener on the header is [toggleOverlay]. *)
Definition header_tap (y : Z) (s : Shell) : Shell :=
  sh_dispatch toggleOverlay
    (sh_dispatch header_touchend (sh_dispatch (header_touchstart y) s)).

(** *** Theme *)

(** [localStorage.getItem(key)] and [localStorage.setItem(key, v)]. *)
Fixpoint getItem (key : string) (l : list (string * string)) : option string :=
  match l with
  | [] => None
  | kv :: l' => if String.eqb (fst kv) key then Some (snd kv) else getItem key l'
  end.

Definition setItem (key v : string) (l : list (string * string)) : list (string * string) :=
  (key, v) :: filter (fun kv => fst kv ≠ key) l.

(** [x || d] for a text or [null]. *)
Definition or_default (x : option string) (d : string) : string :=
  match x with
  | Some v => if String.eqb v "" then d else v
  | None => d
  end.

Definition updateThemeSelection (activeTheme : string) : Sh unit :=
  sh_modify (fun s =>
    put_themeCards
      ((fun card => (fst card, String.eqb (fst card) activeTheme)) <$> themeCards s) s).

(** [updateBackgroundGradient]: the style sheet it replaces is left out;
    the status indicator is created if the page has none. *)
Definition updateBackgroundGradient : Sh unit :=
  s ← sh_get;
  if hasBackground s then
    (* Add status indicator if it doesn't exist *)
    match statusElement (world s) with
    | None =>
        lift (modify (with_statusElement
                        (Some (mkStatusView "🔌 Connecting..."
                                 "live2d-status status-offline"))))
    | Some _ => mret tt
    end
  else mret tt.

(** [changeTheme(themeName, mode, save)]; [None] is the default [null]. *)
Definition changeTheme (themeName : string) (mode : option string) (save : bool) : Sh unit :=
  async (
    (* Remove previous theme *)
    sh_modify (put_dataTheme None);;
    sh_modify (put_dataMode None);;
    (* Apply new theme *)
    sh_modify (put_dataTheme (Some themeName));;
    match mode with
    | Some m =>
        if negb (String.eqb m "") then
          sh_modify (put_dataMode (Some m));;
          sh_modify (put_currentMode m)
        else mret tt
    | None => mret tt
    end;;
    sh_modify (put_currentTheme themeName);;
    (* Update theme cards *)
    updateThemeSelection themeName;;
    (* Update background gradient *)
    updateBackgroundGradient;;
    (* Save to localStorage *)
    (if save then
       sh_modify (fun s => put_localStorage (setItem "lumi-theme" themeName (localStorage s)) s);;
       sh_modify (fun s => put_localStorage
                             (setItem "lumi-mode" (currentMode s) (localStorage s)) s)
     else mret tt);;
    (* Notify server if needed *)
    s ← sh_get;
    socket_emit (ThemeChanged themeName (currentMode s))).

Definition applyStoredTheme : Sh unit :=
  s ← sh_get;
  let storedTheme := or_default (getItem "lumi-theme" (localStorage s)) "deep-purple" in
  let storedMode := or_default (getItem "lumi-mode" (localStorage s)) "light" in
  changeTheme storedTheme (Some storedMode) false.

(** *** Chat box *)

Definition addMessage (text sender : string) : Sh unit :=
  s ← sh_get;
  match chatMessages s with
  | None => sh_throw "TypeError: Cannot read properties of null (reading 'appendChild')"
  | Some l => sh_modify (put_chatMessages (Some (l ++ [(text, sender)])%list))
  end.

Definition showTypingIndicator : Sh unit :=
  sh_modify (fun s => put_typingIndicator ((fun _ => false) <$> typingIndicator s) s).

Definition set_disabled (v : bool) : Sh unit :=
  s ← sh_get;
  match sendButton s with
  | None => sh_throw "TypeError: Cannot set properties of null (setting 'disabled')"
  | Some _ => sh_modify (put_sendButton (Some v))
  end.

Definition hideTypingIndicator : Sh unit :=
  sh_modify (fun s => put_typingIndicator ((fun _ => true) <$> typingIndicator s) s);;
  (* Re-enable send button *)
  set_disabled false.

Section Chat.
(** [String.prototype.trim]. *)
Variable trim : string -> string.

Definition sendMessage : Sh unit :=
  async (
    s ← sh_get;
    match messageInput s with
    | None => sh_throw "TypeError: Cannot read properties of null (reading 'value')"
    | Some input =>
        let message := trim (value input) in
        if String.eqb message "" then mret tt
        else
          (* Add user message to chat *)
          addMessage message "user";;
          sh_modify (put_messageInput (Some (set_value "" input)));;
          showTypingIndicator;;
          (* Disable send button during processing *)
          set_disabled true;;
          (* Auto-expand overlay on mobile when sending message *)
          s ← sh_get;
          (if isMobile s && negb (isOverlayExpanded s) then toggleOverlay else mret tt);;
          (* Send via Socket.IO *)
          socket_emit (ChatMessage message)
    end).

(** The [keypress] listener of the input: Enter without Shift. *)
Definition on_keypress (key : string) (shiftKey : bool) : Sh unit :=
  if String.eqb key "Enter" && negb shiftKey then sendMessage else mret tt.
End Chat.

(** The [chat_response] and [chat_error] handlers of the main socket. *)
Definition on_chat_response (response : string) : Sh unit :=
  hideTypingIndicator;;
  addMessage response "ai".

Definition on_chat_error : Sh unit :=
  hideTypingIndicator;;
  addMessage "Sorry, I encountered an error. Please try again." "ai".

(** *** Service cards and the status of the avatar services *)

(** The first element of a [data-service], as [querySelector] finds it;
    [f] is applied to it. *)
Fixpoint update_card (service : string) (f : Card -> Card) (l : list (string * Card))
    : list (string * Card) :=
  match l with
  | [] => []
  | c :: l' =>
      if String.eqb (fst c) service then (fst c, f (snd c)) :: l'
      else c :: update_card service f l'
  end.

Definition find_card (service : string) (l : list (string * Card)) : option Card :=
  snd <$> List.find (fun c => String.eqb (fst c) service) l.

(** The body of [updateServiceCard] once the card is found. *)
Definition show_status (online : Data) (details : string) (c : Card) : Card :=
  match statusText c, detailsText c, indicator c with
  | Some st, Some _, Some _ =>
      mkCard
        (* Update status indicator *)
        (Some (String.append "status-indicator "
                 (if data_truthy online then "status-online" else "status-offline")))
        (* Update status text *)
        (Some ((fun _ => if data_truthy online then "Online" else "Offline") <$> st))
        (* Update details *)
        (Some details)
  | _, _, _ => c
  end.

Definition updateServiceCard (service : string) (online : Data) (details : string)
    : Sh unit :=
  sh_modify (fun s => put_cards (update_card service (show_status online details) (cards s)) s).

(** Read [d.name] in a handler. *)
Definition sh_prop (d : Data) (name : string) : Sh Data :=
  match prop d name with
  | Some v => mret v
  | None => sh_throw "TypeError: Cannot read properties of null or undefined"
  end.

Definition updateVTSStatus (status : Data) : Sh unit :=
  sh_modify (fun s => put_vtsStatus (vtsStatus s ++ own_props status) s);;
  connected ← sh_prop status "connected";
  let source := opt_prop status "source" in
  let details :=
    if data_truthy connected then
      if data_truthy (opt_prop status "modelLoaded")
      then "Model loaded & streaming"
      else "Live2D model streaming"
    else if is_text source "virtual_camera" || is_text source "mjpg_stream" then
      "Using virtual camera feed"
    else if is_text source "placeholder" then
      "Virtual camera setup needed"
    else "Not connected to VTube Studio" in
  updateServiceCard "vts"
    (or_else connected
       (DBool (is_text source "virtual_camera" || is_text source "mjpg_stream")))
    details;;
  (* Update main socket with VTS status *)
  s ← sh_get;
  socket_emit (VtsStatusUpdate (vtsStatus s)).

Definition updateCameraStatus (status : Data) : Sh unit :=
  sh_modify (fun s => put_cameraStatus (cameraStatus s ++ own_props status) s);;
  s ← sh_get;
  let available := field (cameraStatus s) "available" in
  let connected := field (vtsStatus s) "connected" in
  (* Update service card *)
  updateServiceCard "vts"
    (or_else available connected)
    (if data_truthy available then
       String.append "Camera "
         (String.append (to_string (field (cameraStatus s) "index")) " active")
     else if data_truthy connected then "VTS connected"
     else "Camera not found");;
  (* Update Live2D status display *)
  let statusSource :=
    if useMjpgStream (app (world s)) then "mjpg_stream" else "virtual_camera" in
  lift (updateLive2DStatus (if data_truthy available then statusSource else "placeholder"));;
  (* Show notification if camera becomes available *)
  now_available ← sh_prop status "available";
  (if data_truthy now_available &&
      negb (data_truthy (field (cameraStatus s) "_wasAvailable"))
   then lift (showNotification "✅ Virtual camera connected!" "success")
   else mret tt);;
  sh_modify (fun s => put_cameraStatus
                        (cameraStatus s ++ [("_wasAvailable", now_available)]) s).

(** [updateServiceStatus(statusData)] of the application. *)
Definition updateServiceStatus (statusData : Data) : Sh unit :=
  (* Update Ollama status *)
  features ← sh_prop statusData "features";
  config ← sh_prop statusData "config";
  updateServiceCard "ollama"
    (or_else (opt_prop features "ai_engine") (DBool false))
    (String.append "Model: "
       (to_string (or_else (opt_prop config "ollama_model") (DStr "Unknown"))));;
  (* Update Discord status *)
  updateServiceCard "discord"
    (or_else (opt_prop config "discord_enabled") (DBool false))
    (if data_truthy (opt_prop config "discord_enabled")
     then "Bot connected" else "Bot disabled");;
  (* Update VTS status - Use actual VTS connection status *)
  s ← sh_get;
  let connected := field (vtsStatus s) "connected" in
  let available := field (cameraStatus s) "available" in
  updateServiceCard "vts"
    (or_else connected available)
    (if data_truthy connected then "VTS connected & streaming"
     else if data_truthy available then "Virtual camera active"
     else "VTS disconnected");;
  (* Update Plugins status *)
  plugins ← sh_prop statusData "plugins";
  updateServiceCard "plugins"
    (DBool (data_truthy plugins))
    (String.append "Enabled: "
       (String.append (to_string (or_else (opt_prop plugins "enabled") (DNum 0)))
          (String.append "/"
             (to_string (or_else (opt_prop plugins "loaded") (DNum 0)))))).

(** [try { m } catch (error) { handler }]. *)
Definition try_catch (m handler : Sh unit) : Sh unit :=
  fun s =>
    match m s with
    | (Normal a, s') => (Normal a, s')
    | (Thrown _, s') => handler s'
    end.

(** [checkVTSStatus]: the request, and what is done with its result;
    [None] is a failed request or a body that is not JSON. *)
Definition checkVTSStatus : Sh unit := async (fetch "/api/vts_status").

Definition checkVTSStatus_response (body : option Data) : Sh unit :=
  async (try_catch
    match body with
    | None => sh_throw "TypeError: Failed to fetch"
    | Some status =>
        vts_connected ← sh_prop status "vts_connected";
        streaming ← sh_prop status "streaming";
        updateVTSStatus
          (DObj [("connected", or_else vts_connected (DBool false));
                 ("streaming", or_else streaming (DBool false));
                 ("modelLoaded", or_else vts_connected (DBool false))]);;
        updateCameraStatus
          (DObj [("available", or_else (opt_prop status "camera_available") (DBool false));
                 ("index", or_else (opt_prop status "camera_index") DNull)]);;
        (* If VTS is connected but not streaming, start streaming *)
        s ← sh_get;
        match live2dSocket (app (world s)) with
        | Some _ =>
            if data_truthy vts_connected && negb (data_truthy streaming)
            then lift (emit "start_background_stream")
            else mret tt
        | None => mret tt
        end
    end
    (lift (console_error "Error checking VTS status"))).

(** [monitorServices]: the request, and what is done with its result. *)
Definition monitorServices : Sh unit := async (fetch "/api/status").

Definition monitorServices_response (body : option Data) : Sh unit :=
  async (try_catch
    match body with
    | None => sh_throw "TypeError: Failed to fetch"
    | Some status =>
        updateServiceStatus status;;
        (* Also check VTS status specifically *)
        checkVTSStatus
    end
    (lift (console_error "Error monitoring services");;
     updateServiceStatus (DObj [("status", DStr "error")]))).

(** The page has the content and the button of a tab. *)
Definition has_tab (tabName : string) (s : Shell) : bool :=
  has (String.append tabName "-tab") (tabContents s) && has tabName (tabButtons s).

(** A card has the three parts that [updateServiceCard] needs. *)
Definition card_complete (c : Card) : bool :=
  match statusText c, detailsText c, indicator c with
  | Some _, Some _, Some _ => true
  | _, _, _ => false
  end.

(** *** Scenarios of the shell *)

(** A card fresh from [createServiceCard], and the four cards of the page. *)
Definition new_card : Card :=
  mkCard (Some "status-indicator status-offline") (Some (Some "Offline"))
         (Some "Checking status...").

Definition service_cards : list (string * Card) :=
  [("ollama", new_card); ("discord", new_card); ("vts", new_card); ("plugins", new_card)].

(** A page with the three tabs, the analytics tab showing. *)
Definition tabs_page : Shell :=
  {| world := pull_world;
     currentTheme := "deep-purple"; currentMode := "light"; currentTab := "analytics";
     isMobile := true; isOverlayExpanded := false;
     startX := 0; currentX := 0; startY := 0; currentY := 0; isSwiping := false;
     tabContents := [("main-tab", false); ("analytics-tab", true); ("appearance-tab", false)];
     tabButtons := [("main", false); ("analytics", true); ("appearance", false)];
     themeCards := [("deep-purple", true); ("ocean", false)];
     dataTheme := Some "deep-purple"; dataMode := Some "light";
     chatOverlay := Some (mkOverlay false None);
     expandToggle := Some (Some "fas fa-chevron-up");
     messageInput := Some (mkInput "" false);
     sendButton := Some false;
     chatMessages := Some [];
     typingIndicator := Some true;
     hasBackground := true;
     localStorage := [];
     sent := []; fetches := []; pending := []; rejected := [];
     vtsStatus := [("connected", DBool false); ("streaming", DBool false);
                   ("modelLoaded", DBool false)];
     cameraStatus := [("available", DBool false); ("index", DNull);
                      ("streaming", DBool false)];
     cards := service_cards |}.

(** [String.prototype.trim]: white space and line terminators are removed
    from both ends.  These are the characters U+0009 to U+000D, U+0020,
    U+00A0, U+1680, U+2000 to U+200A, U+2028, U+2029, U+202F, U+205F,
    U+3000 and U+FEFF, here in their UTF-8 encoding of one, two or three
    bytes. *)
Definition code (c : Ascii.ascii) : N := Ascii.N_of_ascii c.

Definition blank1 (a : Ascii.ascii) : bool :=
  ((9 <=? code a) && (code a <=? 13) || (code a =? 32))%N.

Definition blank2 (a b : Ascii.ascii) : bool :=
  ((code a =? 194) && (code b =? 160))%N.

Definition blank3 (a b c : Ascii.ascii) : bool :=
  let x := code a in
  let y := code b in
  let z := code c in
  ((x =? 225) && (y =? 154) && (z =? 128) ||
   (x =? 226) && (y =? 128) &&
     ((128 <=? z) && (z <=? 138) || (z =? 168) || (z =? 169) || (z =? 175)) ||
   (x =? 226) && (y =? 129) && (z =? 159) ||
   (x =? 227) && (y =? 128) && (z =? 128) ||
   (x =? 239) && (y =? 187) && (z =? 191))%N.

(** From the start of a text. *)
Fixpoint skip_blanks (fuel : nat) (l : list Ascii.ascii) : list Ascii.ascii :=
  match fuel with
  | O => l
  | S fuel' =>
      match l with
      | a :: b :: c :: r =>
          if blank1 a then skip_blanks fuel' (b :: c :: r)
          else if blank2 a b then skip_blanks fuel' (c :: r)
          else if blank3 a b c then skip_blanks fuel' r
          else l
      | [a; b] =>
          if blank1 a then skip_blanks fuel' [b]
          else if blank2 a b then []
          else l
      | [a] => if blank1 a then [] else l
      | [] => []
      end
  end.

(** From the end of a text, given last byte first. *)
Fixpoint skip_blanks_back (fuel : nat) (l : list Ascii.ascii) : list Ascii.ascii :=
  match fuel with
  | O => l
  | S fuel' =>
      match l with
      | c :: b :: a :: r =>
          if blank1 c then skip_blanks_back fuel' (b :: a :: r)
          else if blank2 b c then skip_blanks_back fuel' (a :: r)
          else if blank3 a b c then skip_blanks_back fuel' r
          else l
      | [c; b] =>
          if blank1 c then skip_blanks_back fuel' [b]
          else if blank2 b c then []
          else l
      | [c] => if blank1 c then [] else l
      | [] => []
      end
  end.

Definition trim_blanks (s : string) : string :=
  let l := String.list_ascii_of_string s in
  let l1 := skip_blanks (length l) l in
  String.string_of_list_ascii (rev (skip_blanks_back (length l1) (rev l1))).
(** ** The service manager

    [ServiceManager] keeps a [Map] of services, draws a card for each, and
    polls the status endpoint.  An [async] method is split at its [await]:
    the part that sends the request, and the part that runs when the
    result is there. *)

(** What [updateServiceStatus] is given. *)
Record Status : Type := mkStatus {
  online : Data;
  details : string;
  lastChecked : option Z
}.

(** An entry of [this.services]. *)
Record Service : Type := mkService {
  service_name : string;
  icon : string;
  endpoint : string;
  checkInterval : Z;
  enabled : bool;
  lastStatus : option Status
}.

(** Requests made with [fetch]. *)
Inductive Fetch : Type :=
  | Get (url : string)
  | PostEnabled (url : string) (value : bool).

Record Manager : Type := mkManager {
  services : list (string * Service);    (* the Map, in insertion order *)
  serviceCards : list (string * Card);   (* [data-service] elements *)
  clock : Z;                             (* new Date() *)
  fetched : list Fetch;
  errors : list string                   (* console.error *)
}.

Definition set_enabled (v : bool) (x : Service) : Service :=
  mkService (service_name x) (icon x) (endpoint x) (checkInterval x) v (lastStatus x).
Definition set_lastStatus (v : option Status) (x : Service) : Service :=
  mkService (service_name x) (icon x) (endpoint x) (checkInterval x) (enabled x) v.

Definition with_services (v : list (string * Service)) (m : Manager) : Manager :=
  mkManager v (serviceCards m) (clock m) (fetched m) (errors m).
Definition with_serviceCards (v : list (string * Card)) (m : Manager) : Manager :=
  mkManager (services m) v (clock m) (fetched m) (errors m).
Definition with_fetched (v : list Fetch) (m : Manager) : Manager :=
  mkManager (services m) (serviceCards m) (clock m) v (errors m).
Definition with_errors (v : list string) (m : Manager) : Manager :=
  mkManager (services m) (serviceCards m) (clock m) (fetched m) v.

(** [Map.get] and the assignment to a property of the entry it returns. *)
Fixpoint map_get {V : Type} (key : string) (l : list (string * V)) : option V :=
  match l with
  | [] => None
  | kv :: l' => if String.eqb (fst kv) key then Some (snd kv) else map_get key l'
  end.

Fixpoint map_update {V : Type} (key : string) (f : V -> V) (l : list (string * V))
    : list (string * V) :=
  match l with
  | [] => []
  | kv :: l' =>
      if String.eqb (fst kv) key then (fst kv, f (snd kv)) :: l'
      else kv :: map_update key f l'
  end.

(** [initializeServices]. *)
Definition initial_services : list (string * Service) :=
  [("ollama", mkService "Ollama" "fas fa-brain" "/api/status" 30000 true None);
   ("discord", mkService "Discord Bot" "fab fa-discord" "/api/status" 30000 true None);
   ("vts", mkService "VTube Studio" "fas fa-desktop" "/api/status" 30000 true None);
   ("plugins", mkService "Plugin System" "fas fa-puzzle-piece" "/api/status" 30000 true None)].

(** [determineServiceStatus]; [None] is a TypeError. *)
Definition determineServiceStatus (serviceId : string) (statusData : Data) : option Data :=
  if String.eqb serviceId "ollama" then
    features ← prop statusData "features";
    Some (or_else (opt_prop features "ai_engine") (DBool false))
  else if String.eqb serviceId "discord" then
    config ← prop statusData "config";
    Some (or_else (opt_prop config "discord_enabled") (DBool false))
  else if String.eqb serviceId "vts" then
    config ← prop statusData "config";
    Some (or_else (opt_prop config "vts_enabled") (DBool false))
  else if String.eqb serviceId "plugins" then
    plugins ← prop statusData "plugins";
    Some (DBool (data_truthy plugins))
  else Some (DBool false).

Definition getServiceDetails (serviceId : string) (statusData : Data) : option string :=
  if String.eqb serviceId "ollama" then
    config ← prop statusData "config";
    Some (String.append "Model: "
            (to_string (or_else (opt_prop config "ollama_model") (DStr "Unknown"))))
  else if String.eqb serviceId "discord" then
    config ← prop statusData "config";
    Some (if data_truthy (opt_prop config "discord_enabled")
          then "Bot connected" else "Bot disabled")
  else if String.eqb serviceId "vts" then
    config ← prop statusData "config";
    Some (if data_truthy (opt_prop config "vts_enabled")
          then "VTS connected" else "VTS disabled")
  else if String.eqb serviceId "plugins" then
    plugins ← prop statusData "plugins";
    Some (String.append "Enabled: "
            (String.append (to_string (or_else (opt_prop plugins "enabled") (DNum 0)))
               (String.append "/"
                  (to_string (or_else (opt_prop plugins "loaded") (DNum 0))))))
  else Some "Status unknown".

(** [updateServiceStatus(serviceId, status)] of the manager. *)
Definition manager_updateServiceStatus (serviceId : string) (status : Status)
    (m : Manager) : Manager :=
  match find_card serviceId (serviceCards m) with
  | None => m
  | Some _ =>
      let m1 :=
        with_serviceCards
          (update_card serviceId (show_status (online status) (details status))
             (serviceCards m)) m in
      (* Store service status *)
      with_services (map_update serviceId (set_lastStatus (Some status)) (services m1)) m1
  end.

(** [checkService]: up to the request, and from its result on; [None] is
    a failed request or a body that is not JSON. *)
Definition checkService (serviceId : string) (m : Manager) : Manager :=
  match map_get serviceId (services m) with
  | Some service =>
      if enabled service
      then with_fetched (fetched m ++ [Get (endpoint service)]) m
      else m
  | None => m
  end.

Definition checkService_result (serviceId : string) (body : option Data)
    (m : Manager) : Manager :=
  let checked :=
    data ← body;
    is_online ← determineServiceStatus serviceId data;
    text ← getServiceDetails serviceId data;
    Some (mkStatus is_online text (Some (clock m))) in
  match checked with
  | Some status => manager_updateServiceStatus serviceId status m
  | None =>
      manager_updateServiceStatus serviceId
        (mkStatus (DBool false) "Connection failed" (Some (clock m)))
        (with_errors (errors m ++ [String.append "Error checking service " serviceId]) m)
  end.

(** [toggleService]: up to the request, and from its result on; [None] is
    a failed request, [Some ok] a response. *)
Definition manager_toggleService (serviceId : string) (value : bool)
    (m : Manager) : Manager :=
  match map_get serviceId (services m) with
  | None => m
  | Some _ =>
      let m1 := with_services (map_update serviceId (set_enabled value) (services m)) m in
      with_fetched
        (fetched m1 ++
         [PostEnabled (String.append "/api/config/services/" serviceId) value]) m1
  end.

Definition manager_toggleService_result (serviceId : string) (value : bool)
    (result : option bool) (m : Manager) : Manager :=
  match result with
  | Some true =>
      manager_updateServiceStatus serviceId
        (mkStatus (DBool value)
           (if value then "Service enabled" else "Service disabled")
           (Some (clock m))) m
  | Some false => m
  | None =>
      with_errors (errors m ++ [String.append "Error toggling service " serviceId]) m
  end.

Definition getServiceStatus (serviceId : string) (m : Manager) : Status :=
  match map_get serviceId (services m) with
  | Some service => default (mkStatus (DBool false) "Unknown" None) (lastStatus service)
  | None => mkStatus (DBool false) "Unknown" None
  end.

Definition getAllServicesStatus (m : Manager) : list (string * Status) :=
  (fun kv => (fst kv, getServiceStatus (fst kv) m)) <$> services m.

(** A freshly built manager whose container holds the four cards. *)
Definition new_manager (t0 : Z) : Manager :=
  mkManager initial_services service_cards t0 [] [].

(** ** The tab manager

    [TabManager] keeps a [Map] of tabs and builds the buttons of the
    navigation bar from it.  Priorities are whole numbers.  The tab
    buttons of the document are the buttons of the navigation bar. *)

Record TabConfig : Type := mkTabConfig {
  tab_name : string;
  tab_icon : string;
  component : string;
  priority : Z
}.

Record TabManager : Type := mkTabManager {
  tabs : list (string * TabConfig);      (* the Map, in insertion order *)
  hasNavigation : bool;                  (* .tab-navigation *)
  buttons : list (string * bool);        (* .tab-button: data-tab, active *)
  contents : list (string * bool);       (* .tab-content: id, active *)
  hasInput : bool;                       (* #message-input *)
  appTab : string;                       (* this.app.currentTab *)
  analyticsInterval : option nat;
  intervals : list nat;                  (* intervals that are running *)
  nextInterval : nat;
  focusTimers : nat;                     (* pending timers that focus the input *)
  requested : list string;               (* fetch *)
  warnings : list string                 (* console.warn *)
}.

Definition with_tabs (v : list (string * TabConfig)) (m : TabManager) : TabManager :=
  mkTabManager v (hasNavigation m) (buttons m) (contents m) (hasInput m) (appTab m)
    (analyticsInterval m) (intervals m) (nextInterval m) (focusTimers m) (requested m)
    (warnings m).
Definition with_buttons (v : list (string * bool)) (m : TabManager) : TabManager :=
  mkTabManager (tabs m) (hasNavigation m) v (contents m) (hasInput m) (appTab m)
    (analyticsInterval m) (intervals m) (nextInterval m) (focusTimers m) (requested m)
    (warnings m).
Definition with_contents (v : list (string * bool)) (m : TabManager) : TabManager :=
  mkTabManager (tabs m) (hasNavigation m) (buttons m) v (hasInput m) (appTab m)
    (analyticsInterval m) (intervals m) (nextInterval m) (focusTimers m) (requested m)
    (warnings m).
Definition with_appTab (v : string) (m : TabManager) : TabManager :=
  mkTabManager (tabs m) (hasNavigation m) (buttons m) (contents m) (hasInput m) v
    (analyticsInterval m) (intervals m) (nextInterval m) (focusTimers m) (requested m)
    (warnings m).
Definition with_intervals (handle : option nat) (running : list nat) (next : nat)
    (m : TabManager) : TabManager :=
  mkTabManager (tabs m) (hasNavigation m) (buttons m) (contents m) (hasInput m) (appTab m)
    handle running next (focusTimers m) (requested m) (warnings m).
Definition with_focusTimers (v : nat) (m : TabManager) : TabManager :=
  mkTabManager (tabs m) (hasNavigation m) (buttons m) (contents m) (hasInput m) (appTab m)
    (analyticsInterval m) (intervals m) (nextInterval m) v (requested m) (warnings m).
Definition with_requested (v : list string) (m : TabManager) : TabManager :=
  mkTabManager (tabs m) (hasNavigation m) (buttons m) (contents m) (hasInput m) (appTab m)
    (analyticsInterval m) (intervals m) (nextInterval m) (focusTimers m) v (warnings m).
Definition with_warnings (v : list string) (m : TabManager) : TabManager :=
  mkTabManager (tabs m) (hasNavigation m) (buttons m) (contents m) (hasInput m) (appTab m)
    (analyticsInterval m) (intervals m) (nextInterval m) (focusTimers m) (requested m) v.

(** [Map.set]: an existing key keeps its place. *)
Fixpoint map_set {V : Type} (key : string) (v : V) (l : list (string * V))
    : list (string * V) :=
  match l with
  | [] => [(key, v)]
  | kv :: l' =>
      if String.eqb (fst kv) key then (key, v) :: l'
      else kv :: map_set key v l'
  end.

(** [Map.delete]. *)
Definition map_delete {V : Type} (key : string) (l : list (string * V))
    : list (string * V) :=
  filter (fun kv => fst kv ≠ key) l.

(** [entries.sort((a, b) => a[1].priority - b[1].priority)]: the sort of
    an array is stable. *)
Fixpoint insert_by_priority (x : string * TabConfig) (l : list (string * TabConfig))
    : list (string * TabConfig) :=
  match l with
  | [] => [x]
  | y :: l' =>
      if priority (snd x) <=? priority (snd y) then x :: y :: l'
      else y :: insert_by_priority x l'
  end.

Definition sort_by_priority (l : list (string * TabConfig)) : list (string * TabConfig) :=
  foldr insert_by_priority [] l.

Definition createTabNavigation (m : TabManager) : TabManager :=
  if negb (hasNavigation m) then m
  else
    (* Create tab buttons in priority order *)
    with_buttons ((fun kv => (fst kv, false)) <$> sort_by_priority (tabs m)) m.

Definition initial_tabs : list (string * TabConfig) :=
  [("main", mkTabConfig "Main" "fas fa-comments" "chat-interface" 1);
   ("analytics",
    mkTabConfig "Analytics & Settings" "fas fa-chart-bar" "analytics-settings" 2);
   ("appearance", mkTabConfig "Appearance" "fas fa-palette" "appearance-tab" 3)].

Definition startAnalyticsUpdates (m : TabManager) : TabManager :=
  with_intervals (Some (nextInterval m)) (intervals m ++ [nextInterval m])
    (S (nextInterval m)) m.

Definition stopAnalyticsUpdates (m : TabManager) : TabManager :=
  match analyticsInterval m with
  | Some id =>
      if (id =? 0)%nat then m
      else with_intervals (analyticsInterval m)
             (filter (fun i => i ≠ id) (intervals m)) (nextInterval m) m
  | None => m
  end.

(** The callback of an interval of [startAnalyticsUpdates]. *)
Definition analytics_tick (m : TabManager) : TabManager :=
  if String.eqb (appTab m) "analytics"
  then with_requested (requested m ++ ["/api/dashboard"]) m
  else m.

Definition initializeMainTab (m : TabManager) : TabManager :=
  (* Focus message input *)
  if hasInput m then with_focusTimers (S (focusTimers m)) m else m.

Definition initializeAnalyticsTab (m : TabManager) : TabManager :=
  (* Load fresh analytics data *)
  let m1 := with_requested (requested m ++ ["/api/dashboard"]) m in
  (* Start real-time updates if needed *)
  startAnalyticsUpdates m1.

Definition onTabActivated (tabId : string) (m : TabManager) : TabManager :=
  match map_get tabId (tabs m) with
  | None => m
  | Some _ =>
      let m1 :=
        if String.eqb tabId "main" then initializeMainTab m
        else if String.eqb tabId "analytics" then initializeAnalyticsTab m
        else m in
      (* Update app state *)
      with_appTab tabId m1
  end.

Definition switchToTab (tabId : string) (m : TabManager) : TabManager :=
  match map_get tabId (tabs m) with
  | None =>
      with_warnings
        (warnings m ++ [String.append "Tab " (String.append tabId " not found")]) m
  | Some _ =>
      (* Hide all tab contents *)
      let m1 := with_contents (deactivate (contents m)) m in
      (* Remove active class from all buttons *)
      let m2 := with_buttons (deactivate (buttons m1)) m1 in
      (* Show target tab *)
      let targetTab := String.append tabId "-tab" in
      if has targetTab (contents m2) && has tabId (buttons m2) then
        let m3 := with_contents (activate_first targetTab (contents m2)) m2 in
        let m4 := with_buttons (activate_first tabId (buttons m3)) m3 in
        (* Trigger tab-specific initialization *)
        onTabActivated tabId m4
      else m2
  end.

(** Method to add dynamic tabs (for plugins, etc.) *)
Definition addTab (tabId : string) (tabConfig : TabConfig) (m : TabManager) : TabManager :=
  createTabNavigation (with_tabs (map_set tabId tabConfig (tabs m)) m).

Definition removeTab (tabId : string) (m : TabManager) : TabManager :=
  createTabNavigation (with_tabs (map_delete tabId (tabs m)) m).

(** The priorities of the buttons of the navigation bar, in their order. *)
Definition button_priorities (m : TabManager) : list Z :=
  omap (fun b => priority <$> map_get (fst b) (tabs m)) (buttons m).

(** [new TabManager(app)] on a page with the navigation bar and the three
    tab contents, the main tab showing. *)
Definition new_tab_manager : TabManager :=
  createTabNavigation
    (mkTabManager initial_tabs true []
       [("main-tab", true); ("analytics-tab", false); ("appearance-tab", false)]
       true "main" None [] 1 0 [] []).

(** A list of numbers does not decrease. *)
Fixpoint ascending (l : list Z) : Prop :=
  match l with
  | a :: (b :: _) as l' => a <= b /\ ascending l'
  | _ => True
  end.

(** ** The constructor

    [new LumiEnhancedApp()] on a document: the assignments of the
    constructor, [initializeApp], and [loadInitialData].  Registering a
    listener changes nothing by itself, but fails on an element that is
    missing.  The buttons that [setupCameraControls] and
    [setupDebugControls] add to the card, the interval of the service
    monitor and the debug output are left out. *)

Definition setupEventListeners : Sh unit :=
  s ← sh_get;
  match sendButton s, messageInput s with
  | Some _, Some _ => mret tt
  | _, _ =>
      sh_throw "TypeError: Cannot read properties of null (reading 'addEventListener')"
  end.

Definition initializeTabs : Sh unit :=
  (* Show initial tab *)
  switchTab "main".

Definition initializeServiceMonitoring : Sh unit :=
  (* Start monitoring services *)
  monitorServices.

Definition initializeLive2DBackground : Sh unit :=
  s ← sh_get;
  (if hasBackground s then updateBackgroundGradient else mret tt);;
  (* Connect to Live2D streaming *)
  lift initializeLive2DStream.

Definition optimizeForMobile : Sh unit :=
  s ← sh_get;
  (* Auto-expand overlay on mobile when switching to main tab *)
  if String.eqb (currentTab s) "main" then sh_setTimeout TToggleOverlay 500 else mret tt.

Definition initializeApp : Sh unit :=
  setupEventListeners;;
  initializeTabs;;
  applyStoredTheme;;
  initializeServiceMonitoring;;
  initializeLive2DBackground;;
  s ← sh_get;
  if isMobile s then optimizeForMobile else mret tt.

Definition loadInitialData : Sh unit :=
  (* Load initial service status *)
  monitorServices;;
  (* Load initial analytics *)
  loadAnalyticsData.

Definition new_LumiEnhancedApp : Sh unit :=
  sh_modify (fun s =>
    put_currentTheme "deep-purple"
      (put_currentMode "light"
         (put_currentTab "main"
            (put_isOverlayExpanded false
               (put_vtsStatus
                  [("connected", DBool false); ("streaming", DBool false);
                   ("modelLoaded", DBool false)]
                  (put_cameraStatus
                     [("available", DBool false); ("index", DNull);
                      ("streaming", DBool false)]
                     (put_world (with_app constructor_app (world s)) s)))))));;
  initializeApp;;
  loadInitialData.

(** The status indicator once [updateBackgroundGradient] has run. *)
Definition status_after_gradient (background : bool) (status : option StatusView)
    : option StatusView :=
  if background then
    match status with
    | None => Some (mkStatusView "🔌 Connecting..." "live2d-status status-offline")
    | Some v => Some v
    end
  else status.

(** The parts of the document and of the shell that a step of the
    constructor passes on unchanged. *)
Definition same_frame (s s' : Shell) : Prop :=
  hasBackground s' = hasBackground s /\ isMobile s' = isMobile s /\
  localStorage s' = localStorage s /\ pending s' = pending s /\
  fetches s' = fetches s.

(** * Properties *)

Local Open Scope list_scope.

(** Unfold the monad and the browser primitives. *)
Ltac js_red :=
  cbv beta iota delta
    [mbind mret Js_bind Js_ret bind ret get modify this assign throw exec throws
     ctx_call console_error setTimeout clearTimeout emit update_socket];
  simpl.

(** ** Numbers: rounding to binary64 *)

Lemma rne_error (q : Q) :
  (inject_Z (rne q) - q <= 1 # 2)%Q /\ (q - inject_Z (rne q) <= 1 # 2)%Q.
Proof.
  unfold rne. pose proof (Qfloor_le q) as H1. pose proof (Qlt_floor q) as H2.
  rewrite inject_Z_plus in H2. change (inject_Z 1) with 1%Q in H2.
  destruct (Qcompare_spec (q - inject_Z (Qfloor q)) (1 # 2)) as [E|E|E];
    [destruct (Z.even _)| |];
    rewrite ?inject_Z_plus; change (inject_Z 1) with 1%Q; lra.
Qed.

Lemma rne_Z (q : Q) (k : Z) : (q == inject_Z k)%Q -> rne q = k.
Proof.
  intros E. unfold rne. rewrite (Qfloor_comp _ _ E), Qfloor_Z.
  destruct (Qcompare_spec (q - inject_Z k) (1 # 2)) as [H|H|H]; [lra|done|lra].
Qed.

Lemma pow2_pos (e : Z) : (0 < pow2 e)%Q.
Proof. by apply Qpower_0_lt. Qed.

Lemma pow2_plus (a b : Z) : (pow2 (a + b) == pow2 a * pow2 b)%Q.
Proof. by apply Qpower_plus. Qed.

Lemma pow2_le (a b : Z) : a <= b -> (pow2 a <= pow2 b)%Q.
Proof. intros H. by apply Qpower_le_compat_l. Qed.

Lemma pow2_Z (n : Z) : 0 <= n -> (pow2 n == inject_Z (2 ^ n))%Q.
Proof. intros H. unfold pow2. by rewrite (Zpower_Qpower 2 n H). Qed.

Lemma pow2_minus (a b : Z) : (pow2 (a - b) == pow2 a / pow2 b)%Q.
Proof. by apply Qpower_minus. Qed.

Lemma Qlog2_lower (q : Q) : (0 < q)%Q -> (pow2 (Qlog2 q) <= q)%Q.
Proof.
  intros Hq. unfold Qlog2.
  destruct (Qle_bool _ q) eqn:E; [by apply Qle_bool_iff|]. clear E.
  destruct q as [n d]. cbn [Qnum Qden].
  assert (0 < n) as Hn by (unfold Qlt in Hq; simpl in Hq; lia).
  pose proof (Z.log2_spec n Hn) as [Ha _].
  pose proof (Z.log2_spec (Z.pos d) (Pos2Z.is_pos d)) as [_ Hb].
  pose proof (Z.log2_nonneg n) as Na. pose proof (Z.log2_nonneg (Z.pos d)) as Nb.
  set (a := Z.log2 n) in *. set (b := Z.log2 (Z.pos d)) in *.
  replace (a - b - 1) with (a - Z.succ b) by lia.
  rewrite pow2_minus, !pow2_Z by lia.
  rewrite (Qmake_Qdiv n d).
  apply Qle_shift_div_r; [unfold Qlt; simpl; lia|].
  unfold Qdiv. rewrite <- Qmult_assoc, (Qmult_comm (/ _)), Qmult_assoc.
  apply Qle_shift_div_l; [unfold Qlt; simpl; lia|].
  rewrite <- !inject_Z_mult. rewrite <- Zle_Qle. nia.
Qed.

Lemma Qlog2_upper (q : Q) : (0 < q)%Q -> (q < pow2 (Qlog2 q + 1))%Q.
Proof.
  intros Hq. unfold Qlog2.
  destruct (Qle_bool _ q) eqn:E.
  2:{ apply Qnot_le_lt. intros H. apply Qle_bool_iff in H.
      replace (_ - 1 + 1) with (Z.log2 (Qnum q) - Z.log2 (Z.pos (Qden q))) in H by lia.
      congruence. }
  clear E. destruct q as [n d]. cbn [Qnum Qden].
  assert (0 < n) as Hn by (unfold Qlt in Hq; simpl in Hq; lia).
  pose proof (Z.log2_spec n Hn) as [_ Ha].
  pose proof (Z.log2_spec (Z.pos d) (Pos2Z.is_pos d)) as [Hb _].
  pose proof (Z.log2_nonneg n) as Na. pose proof (Z.log2_nonneg (Z.pos d)) as Nb.
  set (a := Z.log2 n) in *. set (b := Z.log2 (Z.pos d)) in *.
  replace (a - b + 1) with (Z.succ a - b) by lia.
  rewrite pow2_minus, !pow2_Z by lia.
  rewrite (Qmake_Qdiv n d).
  apply Qlt_shift_div_l; [unfold Qlt; simpl; lia|].
  unfold Qdiv. rewrite <- Qmult_assoc, (Qmult_comm (/ _)), Qmult_assoc.
  apply Qlt_shift_div_r; [unfold Qlt; simpl; lia|].
  rewrite <- !inject_Z_mult. rewrite <- Zlt_Qlt. nia.
Qed.

Lemma half_ulp_normal (q : Q) :
  (pow2 (-1022) <= q)%Q -> (half_ulp q <= q * pow2 (-53))%Q.
Proof.
  intros Hq. unfold half_ulp.
  assert (0 < q)%Q as Hpos.
  { eapply Qlt_le_trans; [apply (pow2_pos (-1022))|done]. }
  replace (Z.max (Qlog2 q) (-1022) - 53) with (Z.max (Qlog2 q) (-1022) + -53) by lia.
  rewrite pow2_plus. apply Qmult_le_r; [apply pow2_pos|].
  destruct (Z.max_spec (Qlog2 q) (-1022)) as [[_ ->]|[_ ->]]; [done|].
  by apply Qlog2_lower.
Qed.

Lemma half_ulp_any (q : Q) :
  (0 < q)%Q -> (half_ulp q <= q * pow2 (-53) + pow2 (-1075))%Q.
Proof.
  intros Hpos. unfold half_ulp.
  pose proof (pow2_pos (-53)) as P1. pose proof (pow2_pos (-1075)) as P2.
  destruct (Z.max_spec (Qlog2 q) (-1022)) as [[_ ->]|[_ ->]].
  - change (-1022 - 53) with (-1075). 
    assert (0 <= q * pow2 (-53))%Q by (apply Qmult_le_0_compat; lra). lra.
  - replace (Qlog2 q - 53) with (Qlog2 q + -53) by lia. rewrite pow2_plus.
    assert (pow2 (Qlog2 q) * pow2 (-53) <= q * pow2 (-53))%Q.
    { apply Qmult_le_r; [done|]. by apply Qlog2_lower. }
    lra.
Qed.

(** The value chosen by [round_pos] is within half a spacing of [q]. *)
Lemma round_pos_near (q : Q) :
  (0 < q)%Q ->
  let r := (inject_Z (rne (q / pow2 (Z.max (Qlog2 q) (-1022) - 52))) *
            pow2 (Z.max (Qlog2 q) (-1022) - 52))%Q in
  (r - q <= half_ulp q)%Q /\ (q - r <= half_ulp q)%Q.
Proof.
  intros Hq r. subst r. unfold half_ulp.
  set (e := Z.max (Qlog2 q) (-1022)).
  pose proof (pow2_pos (e - 52)) as Pu.
  assert (pow2 (e - 53) == pow2 (e - 52) * (1 # 2))%Q as ->.
  { replace (e - 53) with (e - 52 + -1) by lia. by rewrite pow2_plus. }
  set (ulp := pow2 (e - 52)) in *.
  destruct (rne_error (q / ulp)) as [H1 H2].
  set (m := inject_Z (rne (q / ulp))) in *.
  assert (q == q / ulp * ulp)%Q as Eq by (field; lra).
  split.
  - assert ((m - q / ulp) * ulp <= (1 # 2) * ulp)%Q as H by (apply Qmult_le_r; done).
    lra.
  - assert ((q / ulp - m) * ulp <= (1 # 2) * ulp)%Q as H by (apply Qmult_le_r; done).
    lra.
Qed.

Lemma round_pos_Num (q : Q) :
  (0 < q)%Q -> (q <= pow2 1023)%Q ->
  exists r, round_pos q = Num r /\
    (r - q <= half_ulp q)%Q /\ (q - r <= half_ulp q)%Q.
Proof.
  intros Hq Hmax. destruct (round_pos_near q Hq) as [H1 H2]. cbv zeta in H1, H2.
  unfold round_pos. cbv zeta.
  set (r := (inject_Z _ * _)%Q) in *.
  destruct (Qle_bool (pow2 1024) r) eqn:E.
  - exfalso. apply Qle_bool_iff in E.
    pose proof (half_ulp_any q Hq) as Hh.
    assert (q * pow2 (-53) <= pow2 1023 * pow2 (-53))%Q as Hm.
    { apply Qmult_le_r; [apply pow2_pos|done]. }
    assert (pow2 1023 + pow2 1023 * pow2 (-53) + pow2 (-1075) < pow2 1024)%Q as Hc.
    { by vm_compute. }
    lra.
  - exists (Qred r). split; [done|]. by rewrite Qred_correct.
Qed.

(** Equal rationals round to the same value. *)
Lemma round64_compat (q q' : Q) : (q == q')%Q -> round64 q = round64 q'.
Proof. intros E. unfold round64. by rewrite (Qred_complete _ _ E). Qed.

Lemma round64_0 : round64 0 = Num 0.
Proof. done. Qed.

(** In the range of the normal numbers the relative error of rounding is
    at most [2 ^ -53]. *)
Lemma round64_normal (q : Q) :
  (pow2 (-1022) <= q)%Q -> (q <= pow2 1023)%Q ->
  exists r, round64 q = Num r /\
    (q * (1 - pow2 (-53)) <= r)%Q /\ (r <= q * (1 + pow2 (-53)))%Q.
Proof.
  intros Hlo Hhi. 
  assert (0 < q)%Q as Hq.
  { eapply Qlt_le_trans; [apply (pow2_pos (-1022))|done]. }
  unfold round64. cbv zeta. pose proof (Qred_correct q) as Er.
  set (q' := Qred q) in *.
  assert (0 < q')%Q as Hq' by lra.
  rewrite (proj1 (Qlt_alt 0 q') Hq').
  destruct (round_pos_Num q') as (r & E & H1 & H2); [done|lra|].
  assert (half_ulp q' <= q' * pow2 (-53))%Q as Hh by (apply half_ulp_normal; lra).
  pose proof (pow2_pos (-53)) as P1.
  assert (q' * pow2 (-53) == q * pow2 (-53))%Q as Em by by rewrite Er.
  exists r. split; [done|]. lra.
Qed.

(** In general, underflow included, the error is at most [2 ^ -53] of a
    bound of the magnitude plus [2 ^ -1075]. *)
Lemma round64_within (q B : Q) :
  (- B <= q)%Q -> (q <= B)%Q -> (B <= pow2 1023)%Q ->
  exists r, round64 q = Num r /\
    (- (B * pow2 (-53) + pow2 (-1075)) <= r - q)%Q /\
    (r - q <= B * pow2 (-53) + pow2 (-1075))%Q.
Proof.
  intros Hlo Hhi HB.
  pose proof (pow2_pos (-53)) as P1. pose proof (pow2_pos (-1075)) as P2.
  assert (0 <= B)%Q as HB0 by lra.
  assert (0 <= B * pow2 (-53))%Q as HBu by (apply Qmult_le_0_compat; lra).
  unfold round64. cbv zeta. pose proof (Qred_correct q) as Er.
  set (q' := Qred q) in *.
  destruct (Qcompare_spec 0 q') as [E|E|E].
  - exists 0%Q. split; [done|]. lra.
  - destruct (round_pos_Num q') as (r & Ern & H1 & H2); [done|lra|].
    pose proof (half_ulp_any q' E) as Hh.
    assert (q' * pow2 (-53) <= B * pow2 (-53))%Q by (apply Qmult_le_r; lra).
    exists r. split; [done|]. lra.
  - assert (0 < - q')%Q as E' by lra.
    destruct (round_pos_Num (- q')) as (r & Ern & H1 & H2); [done|lra|].
    pose proof (half_ulp_any (- q') E') as Hh.
    assert (- q' * pow2 (-53) <= B * pow2 (-53))%Q by (apply Qmult_le_r; lra).
    exists (- r)%Q. rewrite Ern. split; [done|]. lra.
Qed.

Lemma Qred_inject_Z (n : Z) : Qred (inject_Z n) = inject_Z n.
Proof.
  unfold Qred, inject_Z.
  pose proof (Z.ggcd_gcd n 1) as Hg. pose proof (Z.ggcd_correct_divisors n 1) as Hd.
  destruct (Z.ggcd n 1) as [g [aa bb]]. simpl in *.
  rewrite Z.gcd_1_r in Hg. subst g. destruct Hd as [H1 H2].
  rewrite Z.mul_1_l in H1, H2. by subst.
Qed.

(** Integers below [2 ^ 53] are binary64 values. *)
Lemma round64_Z (n : Z) :
  - 2 ^ 53 < n < 2 ^ 53 -> round64 (inject_Z n) = Num (inject_Z n).
Proof.
  assert (forall n, 0 < n < 2 ^ 53 -> round_pos (inject_Z n) = Num (inject_Z n)) as Hpos.
  { clear n. intros n [Hn Hlt].
    assert (0 < inject_Z n)%Q as Hq by (unfold Qlt; simpl; lia).
    pose proof (Qlog2_lower _ Hq) as Hl.
    assert (Qlog2 (inject_Z n) < 53) as He.
    { apply (Qpower_lt_compat_l_inv 2); [|done].
      eapply Qle_lt_trans; [exact Hl|]. fold (pow2 53). rewrite pow2_Z by lia.
      by rewrite <- Zlt_Qlt. }
    unfold round_pos. cbv zeta.
    set (e := Z.max (Qlog2 (inject_Z n)) (-1022)).
    assert (e <= 52) as He' by lia.
    assert (pow2 (e - 52) * pow2 (52 - e) == 1)%Q as Einv.
    { rewrite <- pow2_plus. by replace (e - 52 + (52 - e)) with 0 by lia. }
    pose proof (pow2_pos (e - 52)) as Pu.
    assert (inject_Z n / pow2 (e - 52) == inject_Z (n * 2 ^ (52 - e)))%Q as Em.
    { rewrite inject_Z_mult, <- pow2_Z by lia.
      apply Qmult_inj_r with (z := pow2 (e - 52)); [lra|].
      rewrite <- Qmult_assoc, (Qmult_comm (pow2 (52 - e))), Einv. field. lra. }
    rewrite (rne_Z _ _ Em).
    assert (inject_Z (n * 2 ^ (52 - e)) * pow2 (e - 52) == inject_Z n)%Q as Er.
    { rewrite inject_Z_mult, <- pow2_Z by lia.
      rewrite <- Qmult_assoc, (Qmult_comm (pow2 (52 - e))), Einv. ring. }
    assert (Qle_bool (pow2 1024) (inject_Z (n * 2 ^ (52 - e)) * pow2 (e - 52)) = false)
      as ->.
    { apply not_true_is_false. intros H. apply Qle_bool_iff in H. rewrite Er in H.
      assert (inject_Z n < inject_Z (2 ^ 53))%Q by by rewrite <- Zlt_Qlt.
      assert (inject_Z (2 ^ 53) < pow2 1024)%Q by by vm_compute.
      lra. }
    by rewrite (Qred_complete _ _ Er), Qred_inject_Z. }
  intros [Hlo Hhi]. unfold round64. cbv zeta.
  rewrite Qred_inject_Z.
  destruct (Z.lt_trichotomy 0 n) as [H|[H|H]].
  - assert (0 < inject_Z n)%Q as Hq by (unfold Qlt; simpl; lia).
    rewrite (proj1 (Qlt_alt _ _) Hq). apply Hpos. lia.
  - by subst n.
  - assert (inject_Z n < 0)%Q as Hq by (unfold Qlt; simpl; lia).
    rewrite (proj1 (Qgt_alt _ _) Hq).
    change (- inject_Z n)%Q with (inject_Z (- n)).
    rewrite Hpos by lia. simpl. f_equal. unfold inject_Z, Qopp. simpl.
    by rewrite Z.opp_involutive.
Qed.

Lemma inject_Z_pos (n : Z) : 0 < n -> (0 < inject_Z n)%Q.
Proof. intros H. unfold Qlt; simpl. lia. Qed.

Lemma Qzero_b_false (q : Q) : (0 < q)%Q -> Qzero_b q = false.
Proof. intros H. unfold Qzero_b. rewrite Qlt_alt in H. by rewrite H. Qed.

Lemma num_gt_Num (x y : Q) : num_gt (Num x) (Num y) = true <-> (y < x)%Q.
Proof. unfold num_gt. rewrite Qlt_alt. destruct (y ?= x)%Q; split; congruence. Qed.

Lemma ofZ_small (n : Z) : - 2 ^ 53 < n < 2 ^ 53 -> ofZ n = Num (inject_Z n).
Proof. apply round64_Z. Qed.

(** A quotient of positive numbers of moderate size. *)
Lemma num_div_rel (x y : Q) :
  (0 < y)%Q -> (pow2 (-100) * y <= x)%Q -> (x <= pow2 100 * y)%Q ->
  exists r, num_div (Num x) (Num y) = Num r /\
    (x * (1 - pow2 (-53)) <= r * y)%Q /\ (r * y <= x * (1 + pow2 (-53)))%Q.
Proof.
  intros Hy Hlo Hhi. unfold num_div. rewrite (Qzero_b_false y Hy).
  destruct (round64_normal (x / y)) as (r & E & H1 & H2).
  - apply Qle_trans with (pow2 (-100)); [by apply pow2_le|].
    by apply Qle_shift_div_l.
  - apply Qle_trans with (pow2 100); [|by apply pow2_le].
    by apply Qle_shift_div_r.
  - exists r. split; [done|].
    assert (x / y * y == x)%Q as Exy by (field; lra).
    set (u := pow2 (-53)) in *. clearbody u.
    set (q := (x / y)%Q) in *. clearbody q. clear E.
    split.
    + apply (Qmult_le_r _ _ y Hy) in H1. nra.
    + apply (Qmult_le_r _ _ y Hy) in H2. nra.
Qed.

(** A product of positive numbers of moderate size. *)
Lemma num_mul_rel (x y : Q) :
  (pow2 (-100) <= x * y)%Q -> (x * y <= pow2 100)%Q ->
  exists r, num_mul (Num x) (Num y) = Num r /\
    (x * y * (1 - pow2 (-53)) <= r)%Q /\ (r <= x * y * (1 + pow2 (-53)))%Q.
Proof.
  intros Hlo Hhi. unfold num_mul.
  destruct (round64_normal (x * y)) as (r & E & H1 & H2).
  - apply Qle_trans with (pow2 (-100)); [by apply pow2_le|done].
  - apply Qle_trans with (pow2 100); [done|by apply pow2_le].
  - by exists r.
Qed.

(** A difference and a half, with a bound [B] of the magnitude. *)
Lemma num_sub_within (x y B : Q) :
  (- B <= x - y)%Q -> (x - y <= B)%Q -> (B <= pow2 100)%Q ->
  exists r, num_sub (Num x) (Num y) = Num r /\
    (- (B * pow2 (-53) + pow2 (-1075)) <= r - (x - y))%Q /\
    (r - (x - y) <= B * pow2 (-53) + pow2 (-1075))%Q.
Proof.
  intros Hlo Hhi HB. unfold num_sub. apply round64_within; [done|done|].
  apply Qle_trans with (pow2 100); [done|by apply pow2_le].
Qed.

Lemma Qhalf (x : Q) : (x / 2 == x * (1 # 2))%Q.
Proof. field. Qed.

Lemma num_half_within (x B : Q) :
  (- B <= x)%Q -> (x <= B)%Q -> (B <= pow2 100)%Q ->
  exists r, num_div (Num x) (ofZ 2) = Num r /\
    (- (B * pow2 (-53) + pow2 (-1075)) <= r - x / 2)%Q /\
    (r - x / 2 <= B * pow2 (-53) + pow2 (-1075))%Q.
Proof.
  intros Hlo Hhi HB. rewrite ofZ_small by lia. unfold num_div.
  change (Qzero_b (inject_Z 2)) with false. cbv iota.
  change (inject_Z 2) with 2%Q.
  apply round64_within; [rewrite Qhalf; lra|rewrite Qhalf; lra|].
  apply Qle_trans with (pow2 100); [done|by apply pow2_le].
Qed.

Ltac literals :=
  change (pow2 (-53)) with (1 # 9007199254740992)%Q in *;
  change (pow2 (-50)) with (1 # 1125899906842624)%Q in *;
  change (pow2 (-27)) with (1 # 134217728)%Q in *;
  change (pow2 27) with (134217728 # 1)%Q in *;
  change (pow2 (-100)) with (1 # 1267650600228229401496703205376)%Q in *;
  change (pow2 100) with (1267650600228229401496703205376 # 1)%Q in *.

Lemma size_Q (n : Z) : 0 < n < 2 ^ 26 -> (1 <= inject_Z n)%Q /\ (inject_Z n <= 67108863)%Q.
Proof.
  intros [H1 H2]. change (2 ^ 26) with 67108864 in H2.
  split; [change 1%Q with (inject_Z 1)|change 67108863%Q with (inject_Z 67108863)];
    rewrite <- Zle_Qle; lia.
Qed.

Lemma tiny_1075 : (pow2 (-1075) <= 1 # 1267650600228229401496703205376)%Q.
Proof. by vm_compute. Qed.

(** The quotient of two sizes. *)
Lemma quotient_rel (n d : Z) :
  0 < n < 2 ^ 26 -> 0 < d < 2 ^ 26 ->
  exists a, num_div (ofZ n) (ofZ d) = Num a /\
    (inject_Z n * (1 - pow2 (-53)) <= a * inject_Z d)%Q /\
    (a * inject_Z d <= inject_Z n * (1 + pow2 (-53)))%Q /\
    (pow2 (-27) <= a)%Q /\ (a <= pow2 27)%Q.
Proof.
  intros Hn Hd. destruct (size_Q n Hn) as [N1 N2]. destruct (size_Q d Hd) as [D1 D2].
  rewrite !ofZ_small
    by (change (2 ^ 26) with 67108864 in *; change (2 ^ 53) with 9007199254740992; lia).
  set (N := inject_Z n) in *. set (D := inject_Z d) in *.
  destruct (num_div_rel N D) as (a & E & H1 & H2); [lra|literals; lra|literals; lra|].
  exists a. split; [done|]. split; [done|]. split; [done|].
  literals.
  assert (0 < a)%Q as Ha.
  { apply Qnot_le_lt. intros Hle.
    assert (a * D <= 0 * D)%Q by (apply Qmult_le_r; lra). lra. }
  assert (a * D <= a * 67108863)%Q as H3 by (apply Qmult_le_l; lra).
  assert (a * 1 <= a * D)%Q as H4 by (apply Qmult_le_l; lra).
  split; lra.
Qed.

Lemma sizes_product (n m : Z) :
  0 < n < 2 ^ 26 -> 0 < m < 2 ^ 26 ->
  (inject_Z n * inject_Z m <= 4503599493152769)%Q.
Proof.
  intros Hn Hm. change (2 ^ 26) with 67108864 in *.
  rewrite <- inject_Z_mult. change 4503599493152769%Q with (inject_Z 4503599493152769).
  rewrite <- Zle_Qle. nia.
Qed.

(** One quotient is smaller than the other: so are the rounded ones. *)
Lemma quotient_lt (n d n' d' : Z) (a a' : Q) :
  0 < n < 2 ^ 26 -> 0 < d < 2 ^ 26 -> 0 < n' < 2 ^ 26 -> 0 < d' < 2 ^ 26 ->
  (a * inject_Z d <= inject_Z n * (1 + pow2 (-53)))%Q ->
  (inject_Z n' * (1 - pow2 (-53)) <= a' * inject_Z d')%Q ->
  n * d' < n' * d ->
  (a < a')%Q.
Proof.
  intros Hn Hd Hn' Hd' Ha Ha' Hlt.
  destruct (size_Q n Hn) as [N1 N2]. destruct (size_Q d Hd) as [D1 D2].
  destruct (size_Q n' Hn') as [N1' N2']. destruct (size_Q d' Hd') as [D1' D2'].
  pose proof (sizes_product n d' Hn Hd') as P1.
  pose proof (sizes_product n' d Hn' Hd) as P2.
  assert (inject_Z n * inject_Z d' + 1 <= inject_Z n' * inject_Z d)%Q as Hgap.
  { rewrite <- !inject_Z_mult. change 1%Q with (inject_Z 1).
    rewrite <- inject_Z_plus, <- Zle_Qle. lia. }
  set (N := inject_Z n) in *. set (D := inject_Z d) in *.
  set (N' := inject_Z n') in *. set (D' := inject_Z d') in *.
  literals.
  apply (Qmult_le_r _ _ D') in Ha; [|lra].
  apply (Qmult_le_r _ _ D) in Ha'; [|lra].
  apply (Qmult_lt_r _ _ (D * D')); [|lra].
  assert (0 < D * D')%Q by (apply Qmult_lt_0_compat; lra). lra.
Qed.


(** The margin [(c - r) / 2] for a side [r] that is at most a rounding
    error longer than the side [c] of the surface. *)
Lemma margin_within (c : Z) (r : Q) :
  0 < c < 2 ^ 26 ->
  (0 < r)%Q ->
  (r * (1 - pow2 (-53)) <= inject_Z c * (1 + pow2 (-53)) * (1 + pow2 (-53)))%Q ->
  exists o, num_div (num_sub (ofZ c) (Num r)) (ofZ 2) = Num o /\
    (- (pow2 (-50) * inject_Z c) <= o + r + o - inject_Z c)%Q /\
    (o + r + o - inject_Z c <= pow2 (-50) * inject_Z c)%Q /\
    (- (pow2 (-50) * inject_Z c) <= o)%Q.
Proof.
  intros Hc Hr Hle. destruct (size_Q c Hc) as [C1 C2].
  rewrite ofZ_small
    by (change (2 ^ 26) with 67108864 in *; change (2 ^ 53) with 9007199254740992; lia).
  set (C := inject_Z c) in *. pose proof tiny_1075 as Ht.
  destruct (num_sub_within C r C) as (d & Ed & D1 & D2).
  { literals. lra. } { lra. } { literals. lra. }
  rewrite Ed.
  destruct (num_half_within d (2 * C)) as (o & Eo & O1 & O2).
  { literals. lra. } { literals. lra. } { literals. lra. }
  exists o. split; [done|]. rewrite Qhalf in O1, O2.
  set (eta := pow2 (-1075)) in *. clearbody eta. literals.
  repeat split; lra.
Qed.

Lemma ratio_le_l (a b c d k : Q) :
  (0 < b)%Q -> (0 < d)%Q -> (a * d * k <= c * b)%Q -> (a / b * k <= c / d)%Q.
Proof.
  intros Hb Hd H. apply Qle_shift_div_l; [done|].
  assert (a / b * k * d == a * d * k / b)%Q as -> by (field; lra).
  by apply Qle_shift_div_r.
Qed.

Lemma ratio_le_r (a b c d k : Q) :
  (0 < b)%Q -> (0 < d)%Q -> (c * b <= a * d * k)%Q -> (c / d <= a / b * k)%Q.
Proof.
  intros Hb Hd H. apply Qle_shift_div_r; [done|].
  assert (a / b * k * d == a * d * k / b)%Q as -> by (field; lra).
  by apply Qle_shift_div_l.
Qed.


Lemma ratio_lt_iff (a b c d : Q) :
  (0 < b)%Q -> (0 < d)%Q -> (a / b < c / d)%Q <-> (a * d < c * b)%Q.
Proof.
  intros Hb Hd.
  assert (0 < b * d)%Q as Hbd by (apply Qmult_lt_0_compat; lra).
  rewrite <- (Qmult_lt_r (a / b) (c / d) (b * d) Hbd).
  assert (a / b * (b * d) == a * d)%Q as -> by (field; lra).
  by assert (c / d * (b * d) == c * b)%Q as -> by (field; lra).
Qed.

(** ** Frame renderer *)

(** With a surface and an image, [drawToCanvas] clears and draws once. *)
Lemma drawToCanvas_calls (w : World) (ctx : nat) (canvas : Canvas) (img : Image) :
  canvasContext (app w) = Some ctx ->
  currentStream (app w) = Some canvas ->
  drawToCanvas (Some img) w =
    (Normal tt,
     with_ctxCalls
       (ctxCalls w ++
        [mkCtxCall (now w) ctx
           (ClearRect (ofZ 0) (ofZ 0) (ofZ (cwidth canvas)) (ofZ (cheight canvas)));
         mkCtxCall (now w) ctx
           (let '(ox, oy, rw, rh) :=
              fitRect (width img) (height img) (cwidth canvas) (cheight canvas) in
            DrawImage img ox oy rw rh)]) w).
Proof.
  intros Hctx Hcv. destruct w as [a]. simpl in *.
  unfold drawToCanvas. js_red. rewrite Hctx, Hcv.
  destruct (fitRect _ _ _ _) as [[[ox oy] rw] rh]. js_red.
  unfold with_ctxCalls; simpl. by rewrite <- app_assoc.
Qed.

(** Without a surface it does nothing. *)
Lemma drawToCanvas_no_surface (w : World) (image : option Image) :
  canvasContext (app w) = None \/ currentStream (app w) = None ->
  drawToCanvas image w = (Normal tt, w).
Proof.
  intros H. unfold drawToCanvas. js_red.
  destruct (canvasContext (app w)), (currentStream (app w)), H; done.
Qed.

Lemma drawToCanvas_image_total (w : World) (img : Image) :
  fst (drawToCanvas (Some img) w) = Normal tt.
Proof.
  destruct (canvasContext (app w)) as [ctx|] eqn:Hctx;
    [destruct (currentStream (app w)) as [canvas|] eqn:Hcv|].
  - by rewrite (drawToCanvas_calls _ _ _ _ Hctx Hcv).
  - rewrite drawToCanvas_no_surface; auto.
  - rewrite drawToCanvas_no_surface; auto.
Qed.

Section AspectFit.
Variables iw ih cw ch : Z.
Hypothesis Hiw : 0 < iw < 2 ^ 26.
Hypothesis Hih : 0 < ih < 2 ^ 26.
Hypothesis Hcw : 0 < cw < 2 ^ 26.
Hypothesis Hch : 0 < ch < 2 ^ 26.

(** For sizes below [2 ^ 26] the comparison of the rounded quotients
    decides as the comparison of the exact ones. *)
Lemma aspect_test_exact :
  num_gt (num_div (ofZ iw) (ofZ ih)) (num_div (ofZ cw) (ofZ ch)) = true <->
  cw * ih < iw * ch.
Proof using Hiw Hih Hcw Hch.
  destruct (quotient_rel iw ih Hiw Hih) as (a & Ea & A1 & A2 & _).
  destruct (quotient_rel cw ch Hcw Hch) as (c & Ec & C1 & C2 & _).
  rewrite Ea, Ec, num_gt_Num.
  split.
  - intros Hlt. destruct (Z.lt_trichotomy (cw * ih) (iw * ch)) as [H|[H|H]]; [done| |].
    + exfalso. 
      assert (inject_Z iw / inject_Z ih == inject_Z cw / inject_Z ch)%Q as E.
      { destruct (size_Q ih Hih), (size_Q ch Hch).
        apply Qmult_inj_r with (z := (inject_Z ih * inject_Z ch)%Q).
        { assert (0 < inject_Z ih * inject_Z ch)%Q by (apply Qmult_lt_0_compat; lra). lra. }
        transitivity (inject_Z (iw * ch)); [rewrite inject_Z_mult; field; lra|].
        rewrite <- H, inject_Z_mult. field. lra. }
      rewrite !ofZ_small in Ea, Ec
        by (change (2 ^ 26) with 67108864 in *; change (2 ^ 53) with 9007199254740992; lia).
      unfold num_div in Ea, Ec.
      rewrite (Qzero_b_false (inject_Z ih)) in Ea by (apply inject_Z_pos; lia).
      rewrite (Qzero_b_false (inject_Z ch)) in Ec by (apply inject_Z_pos; lia).
      rewrite (round64_compat _ _ E), Ec in Ea. injection Ea as ->. 
      by apply (Qlt_irrefl a).
    + exfalso. 
      assert (a < c)%Q as Hac.
      { apply (quotient_lt iw ih cw ch); solve [done|lia]. }
      lra.
  - intros Hlt. apply (quotient_lt cw ch iw ih); solve [done|lia].
Qed.

(** Letterbox: the branch taken when the image is relatively wider. *)
Lemma fitRect_wider :
  cw * ih < iw * ch ->
  exists oy rh,
    fitRect iw ih cw ch = (Num 0, Num oy, Num (inject_Z cw), Num rh) /\
    (0 < rh)%Q /\
    (inject_Z iw * rh * (1 - pow2 (-50)) <= inject_Z cw * inject_Z ih)%Q /\
    (inject_Z cw * inject_Z ih <= inject_Z iw * rh * (1 + pow2 (-50)))%Q /\
    (- (pow2 (-50) * inject_Z ch) <= oy + rh + oy - inject_Z ch)%Q /\
    (oy + rh + oy - inject_Z ch <= pow2 (-50) * inject_Z ch)%Q /\
    (- (pow2 (-50) * inject_Z ch) <= oy)%Q.
Proof using Hiw Hih Hcw Hch.
  intros Hlt. unfold fitRect.
  rewrite (proj2 aspect_test_exact Hlt).
  destruct (quotient_rel iw ih Hiw Hih) as (a & Ea & A1 & A2 & A3 & A4).
  destruct (quotient_rel cw ch Hcw Hch) as (c & Ec & C1 & C2 & C3 & C4).
  assert (c < a)%Q as Hca.
  { apply num_gt_Num. rewrite <- Ea, <- Ec.
    by apply aspect_test_exact. }
  destruct (size_Q iw Hiw) as [I1 I2]. destruct (size_Q ih Hih) as [I3 I4].
  destruct (size_Q cw Hcw) as [K1 K2]. destruct (size_Q ch Hch) as [K3 K4].
  rewrite Ea. rewrite (ofZ_small 0) by done.
  rewrite (ofZ_small cw)
    by (change (2 ^ 26) with 67108864 in *; change (2 ^ 53) with 9007199254740992; lia).
  destruct (num_div_rel (inject_Z cw) a) as (rh & Er & R1 & R2); [literals; lra|literals; lra|literals; lra|].
  rewrite Er.
  assert (0 < a)%Q as Ha by (literals; lra).
  assert (0 < rh)%Q as Hrh.
  { apply Qnot_le_lt. intros Hle.
    assert (rh * a <= 0 * a)%Q by (apply Qmult_le_r; lra). literals. lra. }
  destruct (margin_within ch rh Hch Hrh) as (oy & Eo & O1 & O2 & O3).
  {
    assert (rh * c * inject_Z ch <= rh * a * inject_Z ch)%Q as H1.
    { apply Qmult_le_r; [lra|]. apply Qmult_le_l; lra. }
    assert (rh * (inject_Z cw * (1 - pow2 (-53))) <= rh * (c * inject_Z ch))%Q as H2
      by (apply Qmult_le_l; lra).
    assert (rh * a * inject_Z ch <= inject_Z cw * (1 + pow2 (-53)) * inject_Z ch)%Q as H3
      by (apply Qmult_le_r; lra).
    assert (inject_Z cw * (rh * (1 - pow2 (-53))) <= inject_Z cw * (inject_Z ch * (1 + pow2 (-53)) * (1 + pow2 (-53))))%Q
      as H4.
    { assert (0 <= inject_Z cw * inject_Z ch)%Q by (apply Qmult_le_0_compat; lra). literals. lra. }
    apply Qmult_le_l in H4; [done|lra]. }
  rewrite Eo. exists oy, rh. split; [done|]. split; [done|].
  assert (rh * (a * inject_Z ih) <= rh * (inject_Z iw * (1 + pow2 (-53))))%Q as H5
    by (apply Qmult_le_l; lra).
  assert (rh * (inject_Z iw * (1 - pow2 (-53))) <= rh * (a * inject_Z ih))%Q as H6
    by (apply Qmult_le_l; lra).
  assert (inject_Z cw * (1 - pow2 (-53)) * inject_Z ih <= rh * a * inject_Z ih)%Q as H7
    by (apply Qmult_le_r; lra).
  assert (rh * a * inject_Z ih <= inject_Z cw * (1 + pow2 (-53)) * inject_Z ih)%Q as H8
    by (apply Qmult_le_r; lra).
  assert (0 <= inject_Z iw * rh)%Q by (apply Qmult_le_0_compat; lra).
  assert (0 <= inject_Z cw * inject_Z ih)%Q by (apply Qmult_le_0_compat; lra).
  literals. repeat split; lra.
Qed.

(** Pillarbox: the other branch. *)
Lemma fitRect_taller :
  ~ cw * ih < iw * ch ->
  exists ox rw,
    fitRect iw ih cw ch = (Num ox, Num 0, Num rw, Num (inject_Z ch)) /\
    (0 < rw)%Q /\
    (inject_Z iw * inject_Z ch * (1 - pow2 (-50)) <= rw * inject_Z ih)%Q /\
    (rw * inject_Z ih <= inject_Z iw * inject_Z ch * (1 + pow2 (-50)))%Q /\
    (- (pow2 (-50) * inject_Z cw) <= ox + rw + ox - inject_Z cw)%Q /\
    (ox + rw + ox - inject_Z cw <= pow2 (-50) * inject_Z cw)%Q /\
    (- (pow2 (-50) * inject_Z cw) <= ox)%Q.
Proof using Hiw Hih Hcw Hch.
  intros Hge. unfold fitRect.
  destruct (num_gt _ _) eqn:Et.
  { exfalso. apply Hge. by apply aspect_test_exact. }
  destruct (quotient_rel iw ih Hiw Hih) as (a & Ea & A1 & A2 & A3 & A4).
  destruct (quotient_rel cw ch Hcw Hch) as (c & Ec & C1 & C2 & C3 & C4).
  assert (a <= c)%Q as Hac.
  { apply Qnot_lt_le. intros H. apply num_gt_Num in H. congruence. }
  destruct (size_Q iw Hiw) as [I1 I2]. destruct (size_Q ih Hih) as [I3 I4].
  destruct (size_Q cw Hcw) as [K1 K2]. destruct (size_Q ch Hch) as [K3 K4].
  rewrite Ea. rewrite (ofZ_small 0) by done.
  rewrite (ofZ_small ch)
    by (change (2 ^ 26) with 67108864 in *; change (2 ^ 53) with 9007199254740992; lia).
  assert (0 < a)%Q as Ha by (literals; lra).
  assert (inject_Z ch * (1 # 134217728) <= inject_Z ch * a)%Q as M1 by (apply Qmult_le_l; literals; lra).
  assert (inject_Z ch * a <= inject_Z ch * 134217728)%Q as M2 by (apply Qmult_le_l; literals; lra).
  destruct (num_mul_rel (inject_Z ch) a) as (rw & Er & R1 & R2); [literals; lra|literals; lra|].
  rewrite Er.
  assert (0 < rw)%Q as Hrw by (literals; lra).
  assert (inject_Z ch * a <= inject_Z ch * c)%Q as M3 by (apply Qmult_le_l; lra).
  destruct (margin_within cw rw Hcw Hrw) as (ox & Eo & O1 & O2 & O3).
  { literals. lra. }
  rewrite Eo. exists ox, rw. split; [done|]. split; [done|].
  assert (inject_Z ch * (a * inject_Z ih) <= inject_Z ch * (inject_Z iw * (1 + pow2 (-53))))%Q as H5
    by (apply Qmult_le_l; lra).
  assert (inject_Z ch * (inject_Z iw * (1 - pow2 (-53))) <= inject_Z ch * (a * inject_Z ih))%Q as H6
    by (apply Qmult_le_l; lra).
  assert (inject_Z ch * a * (1 - pow2 (-53)) * inject_Z ih <= rw * inject_Z ih)%Q as H7
    by (apply Qmult_le_r; lra).
  assert (rw * inject_Z ih <= inject_Z ch * a * (1 + pow2 (-53)) * inject_Z ih)%Q as H8
    by (apply Qmult_le_r; lra).
  assert (0 <= inject_Z iw * inject_Z ch)%Q by (apply Qmult_le_0_compat; lra).
  literals. repeat split; lra.
Qed.
End AspectFit.

(** *** C9 *)

(** C9, as the source has it.  For an image and a surface of positive
    sizes below [2 ^ 26], [drawToCanvas] clears the surface and draws the
    image once, in a rectangle of positive size.  The two aspect ratios are
    compared as binary64 quotients, which for such sizes decides as the
    exact comparison.  If the image is relatively wider than the surface,
    the rectangle has the width of the surface and starts at the left edge
    (letterbox); otherwise it has the height of the surface and starts at
    the top edge (pillarbox).  The other side and the margin are rounded:
    the aspect ratio of the rectangle is that of the image up to a relative
    error of [2 ^ -50], the two margins and the side add up to the side of
    the surface up to [2 ^ -50] of it, and the margin is not below
    [- 2 ^ -50] of it. *)
Theorem drawToCanvas_aspect_fit
    (w : World) (ctx : nat) (canvas : Canvas) (img : Image) :
  canvasContext (app w) = Some ctx ->
  currentStream (app w) = Some canvas ->
  0 < width img < 2 ^ 26 -> 0 < height img < 2 ^ 26 ->
  0 < cwidth canvas < 2 ^ 26 -> 0 < cheight canvas < 2 ^ 26 ->
  let IW := inject_Z (width img) in
  let IH := inject_Z (height img) in
  let CW := inject_Z (cwidth canvas) in
  let CH := inject_Z (cheight canvas) in
  let eps := pow2 (-50) in
  exists ox oy rw rh : Q,
    drawToCanvas (Some img) w =
      (Normal tt,
       with_ctxCalls
         (ctxCalls w ++
          [mkCtxCall (now w) ctx (ClearRect (Num 0) (Num 0) (Num CW) (Num CH));
           mkCtxCall (now w) ctx (DrawImage img (Num ox) (Num oy) (Num rw) (Num rh))])
         w) /\
    ((0 < rw)%Q /\ (0 < rh)%Q /\
     (IW / IH * (1 - eps) <= rw / rh)%Q /\ (rw / rh <= IW / IH * (1 + eps))%Q) /\
    ((CW / CH < IW / IH)%Q ->
       rw = CW /\ ox = 0%Q /\
       (- (eps * CH) <= oy + rh + oy - CH)%Q /\ (oy + rh + oy - CH <= eps * CH)%Q /\
       (- (eps * CH) <= oy)%Q) /\
    (~ (CW / CH < IW / IH)%Q ->
       rh = CH /\ oy = 0%Q /\
       (- (eps * CW) <= ox + rw + ox - CW)%Q /\ (ox + rw + ox - CW <= eps * CW)%Q /\
       (- (eps * CW) <= ox)%Q).
Proof.
  intros Hctx Hcv Hiw Hih Hcw Hch IW IH CW CH eps.
  destruct (size_Q _ Hiw) as [I1 I2]. destruct (size_Q _ Hih) as [I3 I4].
  destruct (size_Q _ Hcw) as [K1 K2]. destruct (size_Q _ Hch) as [K3 K4].
  fold IW in I1, I2. fold IH in I3, I4. fold CW in K1, K2. fold CH in K3, K4.
  assert ((CW / CH < IW / IH)%Q <-> cwidth canvas * height img < width img * cheight canvas)
    as Hex.
  { rewrite ratio_lt_iff by lra.
    subst IW IH CW CH. rewrite <- !inject_Z_mult. by rewrite <- Zlt_Qlt. }
  rewrite (drawToCanvas_calls _ _ _ _ Hctx Hcv).
  rewrite (ofZ_small 0) by done.
  rewrite !ofZ_small
    by (change (2 ^ 26) with 67108864 in *; change (2 ^ 53) with 9007199254740992; lia).
  destruct (Z_lt_dec (cwidth canvas * height img) (width img * cheight canvas)) as [Hw|Hn].
  - destruct (fitRect_wider _ _ _ _ Hiw Hih Hcw Hch Hw)
      as (oy & rh & -> & Hrh & A1 & A2 & M1 & M2 & M3).
    exists 0%Q, oy, CW, rh. split; [done|].
    split.
    { split; [lra|]. split; [done|]. split.
      - apply ratio_le_l; [lra|lra|]. subst eps IW IH CW. lra.
      - apply ratio_le_r; [lra|lra|]. subst eps IW IH CW. lra. }
    split; [intros _; by repeat split|].
    intros Hn. exfalso. apply Hn. by apply Hex.
  - destruct (fitRect_taller _ _ _ _ Hiw Hih Hcw Hch Hn)
      as (ox & rw & -> & Hrw & A1 & A2 & M1 & M2 & M3).
    exists ox, 0%Q, rw, CH. split; [done|].
    split.
    { split; [done|]. split; [lra|]. split.
      - apply ratio_le_l; [lra|lra|]. subst eps IW IH CH. lra.
      - apply ratio_le_r; [lra|lra|]. subst eps IW IH CH. lra. }
    split; [intros Hw; exfalso; apply Hn; by apply Hex|].
    intros _; by repeat split.
Qed.

(** A 640 by 480 frame on the 800 by 600 surface of the start page: the
    aspect ratios are equal, the frame is drawn 600 pixels high from the
    top edge. *)
Lemma drawToCanvas_aspect_fit_witness :
  exists ox oy rw rh : Q,
    ctxCalls (exec (drawToCanvas (Some (mkImage (Url "/video_feed" 1000) 640 480)))
                   pull_world) =
      [mkCtxCall 1000 0 (ClearRect (Num 0) (Num 0) (Num 800) (Num 600));
       mkCtxCall 1000 0
         (DrawImage (mkImage (Url "/video_feed" 1000) 640 480)
                    (Num ox) (Num oy) (Num rw) (Num rh))] /\
    rh = 600%Q /\ oy = 0%Q /\ (0 < rw)%Q /\
    (- (pow2 (-50) * 800) <= ox + rw + ox - 800)%Q /\
    (ox + rw + ox - 800 <= pow2 (-50) * 800)%Q.
Proof.
  destruct (drawToCanvas_aspect_fit pull_world 0%nat (mkCanvas 0 800 600)
              (mkImage (Url "/video_feed" 1000) 640 480))
    as (ox & oy & rw & rh & Hrun & (Hrw & _) & _ & Htall);
    [reflexivity | reflexivity | simpl; lia | simpl; lia | simpl; lia | simpl; lia |].
  destruct Htall as (H1 & H2 & H3 & H4 & _); [vm_compute; discriminate|].
  exists ox, oy, rw, rh. unfold exec. rewrite Hrun.
  split; [reflexivity|]. by repeat split.
Defined.

(** C9 as stated fails: the aspect ratio is not preserved exactly.  A
    frame of 110 by 720 pixels on a surface of the same size is drawn 720
    pixels high and [110 + 2 ^ -46] pixels wide, from [- 2 ^ -47] pixels
    left of the surface: [110 / 720] is rounded, and so is its product
    with 720. *)
Lemma drawToCanvas_aspect_inexact :
  let w := boot 1000 (Some (110, 720)) (Some (mkStatusView "" "")) in
  let img := mkImage (Url "/video_feed" 1000) 110 720 in
  let rw := (110 + pow2 (-46))%Q in
  currentStream (app w) = Some (mkCanvas 0 110 720) /\
  ctxCalls (exec (drawToCanvas (Some img)) w) =
    [mkCtxCall 1000 0 (ClearRect (Num 0) (Num 0) (Num 110) (Num 720));
     mkCtxCall 1000 0
       (DrawImage img (Num (Qred (- pow2 (-47)))) (Num 0) (Num (Qred rw)) (Num 720))] /\
  ~ (rw / 720 == 110 / 720)%Q /\
  (- pow2 (-47) < 0)%Q.
Proof. by vm_compute. Qed.

(** *** C7 *)

(** C7, as the source has it: [drawToCanvas] does nothing (and throws
    nothing) when the context or the canvas is missing, whatever the image
    argument; and it never throws when it is given an image. *)
Theorem drawToCanvas_safe (w : World) :
  (forall image : option Image,
     canvasContext (app w) = None \/ currentStream (app w) = None ->
     drawToCanvas image w = (Normal tt, w)) /\
  (forall img : Image, throws (drawToCanvas (Some img)) w = false).
Proof.
  split.
  - intros image H. by apply drawToCanvas_no_surface.
  - intros img. unfold throws. by rewrite drawToCanvas_image_total.
Qed.

(** Before the stream starts there is no surface: nothing happens, even
    for a null image. *)
Lemma drawToCanvas_safe_witness :
  drawToCanvas None (page 1000 (Some (800, 600)) None) =
    (Normal tt, page 1000 (Some (800, 600)) None).
Proof.
  apply (proj1 (drawToCanvas_safe (page 1000 (Some (800, 600)) None)) None).
  left. reflexivity.
Defined.

(** C7 as stated fails: with a surface in place, a null image makes
    [drawToCanvas] clear the surface and then throw. *)
Lemma drawToCanvas_null_image_throws :
  throws (drawToCanvas None) pull_world = true /\
  ctxCalls pull_world = [] /\
  ctxCalls (exec (drawToCanvas None) pull_world) =
    [mkCtxCall 1000 0 (ClearRect (Num 0) (Num 0) (Num 800) (Num 600))].
Proof. by vm_compute. Qed.

(** ** Pull feed *)

(** A response that arrives early is not drawn: the handler only clears
    the busy flag and arms a timer for [loadNextFrame], due one frame
    interval after the last accepted frame. *)
Lemma loader_onload_early (w : World) (c : nat) (img : Image) :
  now w - lastFrameTime (app w) < frameInterval (app w) ->
  loader_onload c img w =
    (Normal tt,
     with_nextTimer (S (nextTimer w))
       (with_timers
          (timers w ++
           [mkTimer (nextTimer w) (lastFrameTime (app w) + frameInterval (app w))
                    (TLoadNextFrame c)])
          (with_app (set_isLoading false (app w)) w))).
Proof.
  intros H. unfold loader_onload. js_red.
  apply Z.ltb_lt in H as Hb. rewrite Hb. js_red.
  replace (now w + Z.max 0 (frameInterval (app w) - (now w - lastFrameTime (app w))))
    with (lastFrameTime (app w) + frameInterval (app w)) by lia.
  reflexivity.
Qed.

(** [loadNextFrame] does nothing in socket mode or while a request is in
    flight. *)
Lemma loadNextFrame_skips (w : World) (c : nat) :
  useMjpgStream (app w) = false \/ isLoading (app w) = true ->
  loadNextFrame c w = (Normal tt, w).
Proof.
  intros H. unfold loadNextFrame. js_red.
  destruct (useMjpgStream (app w)), (isLoading (app w)), H; done.
Qed.

(** The failure handler, in full. *)
Lemma loader_onerror_exec (w : World) (c : nat) :
  loader_onerror c w =
    (Normal tt,
     with_nextTimer (S (nextTimer w))
       (with_timers (timers w ++ [mkTimer (nextTimer w) (now w + 1000) (TRetry c)])
          (with_statusElement
             (match statusElement w with
              | Some _ => Some (mkStatusView "❌ Stream Error" "live2d-status status-error")
              | None => None
              end)
             (with_consoleErrors (consoleErrors w ++ ["MJPG stream error"])
                (with_app (set_isLoading false (app w)) w))))).
Proof.
  destruct w as [a ? ? ? ? ? ? ? ? st]. unfold loader_onerror, updateLive2DStatus.
  js_red. by destruct st.
Qed.

(** [loadNextFrame] when it does request, in full. *)
Lemma loadNextFrame_exec (w : World) (c : nat) :
  useMjpgStream (app w) = true ->
  isLoading (app w) = false ->
  loadNextFrame c w =
    (Normal tt,
     with_requests (requests w ++ [mkRequest (now w) c (Url (mjpgUrl (app w)) (now w))])
       (with_loaders (alter (set_inflight (Some (Url (mjpgUrl (app w)) (now w)))) c (loaders w))
          (with_app (set_isLoading true (app w)) w))).
Proof. intros Hm Hl. unfold loadNextFrame. js_red. by rewrite Hm, Hl. Qed.

Lemma advance_idle (t : Z) (w : World) :
  timers w = [] -> advance t w = with_now (Z.max (now w) t) w.
Proof. intros E. unfold advance. by rewrite E. Qed.

(** A single pending timer that is not yet due does not fire. *)
Lemma advance_early (t : Z) (w : World) (tm : Timer) :
  timers w = [tm] -> t < due tm -> advance t w = with_now (Z.max (now w) t) w.
Proof.
  intros E Hlt. unfold advance. rewrite E. simpl.
  destruct (weight (task tm)); simpl; [done|].
  rewrite E. simpl. apply Z.leb_gt in Hlt. by rewrite Hlt.
Qed.

Lemma filter_own_tid (n : nat) (d : Z) (k : Task) :
  filter (fun x => tid x ≠ n) [mkTimer n d k] = [].
Proof. rewrite filter_cons. by rewrite decide_False by (intros H; by apply H). Qed.

(** One turn of the failure loop: with nothing else pending, a failure at
    time [t] of the request in flight is answered by one new request, at
    [t + 1000] and not before, after which the feed waits again. *)
Lemma failure_cycle (w : World) (c : nat) (s : Src) (t : Z) :
  timers w = [] ->
  useMjpgStream (app w) = true ->
  inflight <$> loaders w !! c = Some (Some s) ->
  now w <= t ->
  let w1 := deliver (t, PullFailed c) w in
  let w2 := advance (t + 1000) w1 in
  statusElement w1 =
    match statusElement w with
    | Some _ => Some (mkStatusView "❌ Stream Error" "live2d-status status-error")
    | None => None
    end /\
  timers w1 = [mkTimer (nextTimer w) (t + 1000) (TRetry c)] /\
  (forall t', t <= t' < t + 1000 -> requests (advance t' w1) = requests w) /\
  requests w2 = requests w ++ [mkRequest (t + 1000) c (Url (mjpgUrl (app w)) (t + 1000))] /\
  timers w2 = [] /\
  useMjpgStream (app w2) = true /\
  inflight <$> loaders w2 !! c = Some (Some (Url (mjpgUrl (app w)) (t + 1000))) /\
  now w2 = t + 1000 /\
  uncaught w2 = uncaught w.
Proof.
  intros Ht Hm Hin Hnow w1 w2.
  set (w0 := with_loaders (alter (set_inflight None) c (loaders w)) (with_now t w)).
  assert (w1 = snd (loader_onerror c w0)) as E1.
  { subst w1. unfold deliver. rewrite advance_idle by done. simpl fst. simpl snd.
    replace (Z.max (now w) t) with t by lia.
    unfold dispatch, handle. js_red. rewrite Hin. js_red.
    fold w0. by rewrite loader_onerror_exec. }
  rewrite loader_onerror_exec in E1. simpl in E1. rewrite Ht in E1. simpl in E1.
  clearbody w1. subst w1.
  split; [done|]. split; [done|]. split.
  { intros t' Ht'.
    by rewrite (advance_early t' _ (mkTimer (nextTimer w) (t + 1000) (TRetry c)))
      by (simpl; first [done|lia]). }
  subst w2. unfold advance. simpl. rewrite Z.leb_refl.
  rewrite filter_own_tid. replace (Z.max t (t + 1000)) with (t + 1000) by lia.
  unfold dispatch, retry. js_red. rewrite Hm.
  rewrite loadNextFrame_exec by done. simpl.
  replace (Z.max (t + 1000) (t + 1000)) with (t + 1000) by lia.
  repeat split; try done.
  rewrite !list_lookup_alter_eq.
  destruct (loaders w !! c); by simplify_eq/=.
Qed.

(** ** Invariants of the event loop *)

Section Keeps.
Context {A B : Type} (P : World -> Prop).

Lemma keeps_ret (a : A) : keeps P (mret a).
Proof. by intros w Hw. Qed.

Lemma keeps_bind (m : Js A) (k : A -> Js B) :
  keeps P m -> (forall a, keeps P (k a)) -> keeps P (m ≫= k).
Proof.
  intros Hm Hk w Hw. specialize (Hm w Hw).
  unfold mbind, Js_bind, bind. destruct (m w) as [[a|e] w']; simpl in *; [|done].
  by apply Hk.
Qed.

Lemma keeps_throw (e : string) : keeps P (@throw A e).
Proof. by intros w Hw. Qed.

Lemma keeps_prim (m : Js A) : (forall w, P w -> P (snd (m w))) -> keeps P m.
Proof. done. Qed.
End Keeps.

Create HintDb js_handlers.
Create HintDb js_gate.
#[local] Hint Unfold
  emit showNotification updateLive2DStatus drawToCanvas loadNextFrame
  loader_onerror retry initializeMjpgStream read_pendingFrame
  processWebSocketFrame frame_onerror flushPending
  on_connect startBackground initializeWebSocketStream setupCanvas
  initializeLive2DStream disconnect cleanupStream toggleStreamMethod
  startLive2DStream on_resize onTabSwitch_main tabInit run_task handle : js_handlers.
#[local] Hint Unfold loader_onload on_live2d_frame frame_onload : js_gate.

(** Walk through a handler: [known] applies what is already proved about
    a callee, [leaf] closes the goals left by the primitives. *)
Ltac keeps_step known leaf :=
  lazymatch goal with
  | |- keeps _ (mret _) => apply keeps_ret
  | |- keeps _ (ret _) => apply keeps_ret
  | |- keeps _ (throw _) => apply keeps_throw
  | |- keeps _ (mbind _ _) => apply keeps_bind; [|intros ?]
  | |- keeps _ (match ?x with _ => _ end) => destruct x
  | |- keeps _ _ =>
      first [ known
            | progress autounfold with js_handlers
            | apply keeps_prim; intros ? ?; solve [leaf] ]
  end.

Ltac keeps_walk known leaf := repeat keeps_step known leaf.

Ltac url_leaf := first [ eassumption | reflexivity ].
Ltac url_walk := keeps_walk ltac:(progress autounfold with js_gate) url_leaf.

Lemma url_ok_task (t : Task) : keeps url_ok (run_task t).
Proof. destruct t; url_walk. Qed.

Lemma url_ok_handle (e : Event) : keeps url_ok (handle e).
Proof. destruct e; url_walk. Qed.

(** An invariant of every handler and timer callback that does not depend
    on the timer queue, survives the passing of time and the report of an
    uncaught exception, is an invariant of the event loop. *)
Section Loop.
Variable P : World -> Prop.
Hypothesis P_task : forall t, keeps P (run_task t).
Hypothesis P_handle : forall e, keeps P (handle e).
Hypothesis P_timers : forall w v, P w -> P (with_timers v w).
Hypothesis P_now : forall w t, P w -> P (with_now (Z.max (now w) t) w).
Hypothesis P_uncaught : forall w v, P w -> P (with_uncaught v w).

Lemma keeps_dispatch (h : Js unit) (w : World) : keeps P h -> P w -> P (dispatch h w).
Proof.
  intros Hh Hw. specialize (Hh w Hw). unfold dispatch.
  destruct (h w) as [[[]|e] w']; simpl in *; auto.
Qed.

Lemma keeps_fire_due (fuel : nat) (t : Z) (w : World) : P w -> P (fire_due fuel t w).
Proof.
  revert w. induction fuel as [|fuel IH]; intros w Hw; simpl; [done|].
  destruct (earliest (timers w)) as [tm|]; [|done].
  destruct (due tm <=? t); [|done].
  apply IH, keeps_dispatch; [apply P_task|].
  apply (P_now (with_timers _ w)), P_timers, Hw.
Qed.

Lemma keeps_advance (t : Z) (w : World) : P w -> P (advance t w).
Proof. intros Hw. unfold advance. by apply P_now, keeps_fire_due. Qed.

Lemma keeps_deliver (te : Z * Event) (w : World) : P w -> P (deliver te w).
Proof.
  intros Hw. unfold deliver. apply keeps_dispatch; [apply P_handle|].
  by apply keeps_advance.
Qed.

Lemma keeps_run (trace : list (Z * Event)) (w : World) : P w -> P (run trace w).
Proof.
  revert w. induction trace as [|te trace IH]; intros w Hw; simpl; [done|].
  by apply IH, keeps_deliver.
Qed.
End Loop.

Lemma url_ok_run (trace : list (Z * Event)) (w : World) :
  url_ok w -> url_ok (run trace w).
Proof.
  apply keeps_run; auto using url_ok_task, url_ok_handle.
Qed.

Lemma url_ok_boot t0 box status : url_ok (boot t0 box status).
Proof.
  unfold boot. apply keeps_dispatch.
  - intros w v H; exact H.
  - url_walk.
  - reflexivity.
Qed.

(** ** The rate gate of the polling feed *)

Lemma spaced_snoc (b x : Z) (l : list Z) :
  spaced b l -> Forall (fun t => b <= x - t) l -> spaced b (l ++ [x]).
Proof.
  induction l as [|t1 [|t2 l] IH]; simpl; intros Hs Hf; [done|..].
  - by inversion Hf.
  - destruct Hs as [H12 Hs]. split; [done|]. apply IH; [done|]. by inversion Hf.
Qed.

Lemma pull_times_app (w w' : World) (calls : list CtxCall) :
  ctxCalls w' = ctxCalls w ++ calls ->
  pull_times w' = pull_times w ++ pull_times (with_ctxCalls calls w).
Proof.
  intros E. unfold pull_times, pulled, presented; simpl.
  by rewrite E, omap_app, filter_app, fmap_app.
Qed.

Lemma throttled_frame (w w' : World) :
  lastFrameTime (app w') = lastFrameTime (app w) ->
  frameInterval (app w') = frameInterval (app w) ->
  now w' = now w ->
  pull_times w' = pull_times w ->
  throttled w -> throttled w'.
Proof. unfold throttled. by intros -> -> -> ->. Qed.

(** Opening the gate: the frame interval has passed, the current time
    becomes the time of the last frame, and the image is drawn. *)
Lemma throttled_accept (w : World) (img : Image) :
  throttled w ->
  frameInterval (app w) <= now w - lastFrameTime (app w) ->
  throttled (snd (drawToCanvas (Some img)
                    (with_app (set_lastFrameTime (now w) (app w)) w))).
Proof.
  intros (Hnow & Hall & Hsp) Hgap.
  set (w1 := with_app (set_lastFrameTime (now w) (app w)) w).
  assert (throttled w1) as H1.
  { split; [simpl; lia|]. split; [|done].
    eapply Forall_impl; [exact Hall|]. simpl. intros; lia. }
  destruct (canvasContext (app w1)) as [ctx|] eqn:Hctx;
    [destruct (currentStream (app w1)) as [canvas|] eqn:Hcv|].
  2,3: by rewrite drawToCanvas_no_surface by auto.
  rewrite (drawToCanvas_calls _ _ _ _ Hctx Hcv). simpl snd.
  match goal with |- throttled (with_ctxCalls (_ ++ ?calls) _) =>
    split; [simpl; lia|];
    rewrite (pull_times_app w _ calls) by reflexivity
  end.
  change (lastFrameTime (app (with_ctxCalls _ w1))) with (now w).
  change (frameInterval (app (with_ctxCalls _ w1))) with (frameInterval (app w)).
  assert (Forall (fun t => t <= now w) (pull_times w)) as Hle.
  { eapply Forall_impl; [exact Hall|]. simpl. intros; lia. }
  assert (Forall (fun t => frameInterval (app w) <= now w - t) (pull_times w)) as Hfar.
  { eapply Forall_impl; [exact Hall|]. simpl. intros; lia. }
  unfold pull_times at 2 4, pulled, presented. simpl.
  destruct (fitRect _ _ _ _) as [[[ox oy] rw] rh]. simpl.
  rewrite filter_cons. case_decide; simpl.
  - split; [|by apply spaced_snoc].
    apply Forall_app. split; [done|by repeat constructor].
  - by rewrite app_nil_r.
Qed.

Lemma keeps_get_bind {A : Type} (P : World -> Prop) (k : World -> Js A) :
  (forall w, P w -> P (snd (k w w))) -> keeps P (get ≫= k).
Proof. intros H w Hw. by apply H. Qed.

Lemma bind_normal {A B : Type} (m : Js A) (k : A -> Js B) (w w1 : World) (a : A) :
  m w = (Normal a, w1) -> (m ≫= k) w = k a w1.
Proof. intros E. unfold mbind, Js_bind, bind. by rewrite E. Qed.

Ltac same_leaf := eassumption.

Lemma keeps_apply {A : Type} (P : World -> Prop) (m : Js A) (w : World) :
  keeps P m -> P w -> P (snd (m w)).
Proof. auto. Qed.

Lemma throttled_loader_onload (c : nat) (img : Image) :
  keeps throttled (loader_onload c img).
Proof.
  unfold loader_onload.
  apply keeps_bind; [apply keeps_prim; intros ? ?; same_leaf|intros _].
  apply keeps_get_bind. intros w Hw.
  destruct (now w - lastFrameTime (app w) <? frameInterval (app w)) eqn:E; cbv iota.
  - apply keeps_apply; [keeps_walk fail same_leaf|done].
  - apply Z.ltb_ge in E.
    rewrite (bind_normal _ _ w (with_app (set_lastFrameTime (now w) (app w)) w) tt)
      by reflexivity.
    pose proof (throttled_accept w img Hw E) as Hacc.
    pose proof (drawToCanvas_image_total
                  (with_app (set_lastFrameTime (now w) (app w)) w) img) as Htot.
    destruct (drawToCanvas (Some img) _) as [r w2] eqn:D. simpl in Htot, Hacc. subst r.
    rewrite (bind_normal _ _ _ w2 tt D).
    apply keeps_apply; [keeps_walk fail same_leaf|done].
Qed.

Lemma throttled_on_live2d_frame (k : nat) (frame : JsVal) :
  keeps throttled (on_live2d_frame k frame).
Proof.
  unfold on_live2d_frame.
  apply keeps_bind; [apply keeps_prim; intros ? ?; same_leaf|intros _].
  apply keeps_get_bind. intros w Hw.
  destruct (now w - lastFrameTime (app w) <? frameInterval (app w)) eqn:E; cbv iota.
  - apply keeps_apply; [keeps_walk fail same_leaf|done].
  - rewrite (bind_normal _ _ w (with_app (set_lastFrameTime (now w) (app w)) w) tt)
      by reflexivity.
    apply keeps_apply; [keeps_walk fail same_leaf|].
    destruct Hw as (Hnow & Hall & Hsp). split; [simpl; lia|]. split; [|done].
    eapply Forall_impl; [exact Hall|]. simpl. intros; lia.
Qed.

(** The socket feed draws images made from frame text; they do not count
    as presentations of the polling feed. *)
Lemma throttled_frame_onload (text : string) (iw ih : Z) :
  keeps throttled (frame_onload (mkImage (DataUri text) iw ih)).
Proof.
  unfold frame_onload. apply keeps_bind; [|intros _; keeps_walk fail same_leaf].
  intros w Hw.
  destruct (canvasContext (app w)) as [ctx|] eqn:Hctx;
    [destruct (currentStream (app w)) as [canvas|] eqn:Hcv|].
  2,3: by rewrite drawToCanvas_no_surface by auto.
  rewrite (drawToCanvas_calls _ _ _ _ Hctx Hcv). simpl snd.
  apply (throttled_frame w); [reflexivity|reflexivity|reflexivity| |exact Hw].
  match goal with |- pull_times (with_ctxCalls (_ ++ ?calls) _) = _ =>
    rewrite (pull_times_app w _ calls) by reflexivity
  end.
  unfold pull_times at 2, pulled, presented. simpl.
  destruct (fitRect _ _ _ _) as [[[ox oy] rw] rh]. simpl.
  by rewrite app_nil_r.
Qed.

(** Walk through a handler, using the lemmas above where the gate is
    involved. *)
Ltac throttled_known :=
  idtac;
  lazymatch goal with
  | |- keeps _ (loader_onload _ _) => apply throttled_loader_onload
  | |- keeps _ (on_live2d_frame _ _) => apply throttled_on_live2d_frame
  | |- keeps _ (frame_onload _) => apply throttled_frame_onload
  end.
Ltac throttled_walk := keeps_walk throttled_known same_leaf.

Lemma throttled_task (t : Task) : keeps throttled (run_task t).
Proof. destruct t; throttled_walk. Qed.

Lemma throttled_handle (e : Event) : keeps throttled (handle e).
Proof. destruct e; throttled_walk. Qed.

Lemma throttled_run (trace : list (Z * Event)) (w : World) :
  throttled w -> throttled (run trace w).
Proof.
  apply keeps_run; auto using throttled_task, throttled_handle.
  intros w0 t (Hnow & Hall & Hsp). split; [simpl; lia|done].
Qed.

(** No handler assigns the frame interval. *)
Lemma frameInterval_run (trace : list (Z * Event)) (w : World) :
  frameInterval (app (run trace w)) = frameInterval (app w).
Proof.
  apply (keeps_run (fun w' => frameInterval (app w') = frameInterval (app w)));
    try done.
  - intros t. destruct t; keeps_walk ltac:(progress autounfold with js_gate)
                            ltac:(eassumption).
  - intros e. destruct e; keeps_walk ltac:(progress autounfold with js_gate)
                            ltac:(eassumption).
Qed.

(** The polling feed keeps the rate ceiling: from a state in which it has
    presented nothing after the last accepted frame, and whatever events
    arrive, its presentations stay a frame interval apart. *)
Lemma pull_rate_ceiling (trace : list (Z * Event)) (w : World) :
  throttled w ->
  spaced (frameInterval (app w)) (pull_times (run trace w)).
Proof.
  intros Hw. rewrite <- (frameInterval_run trace w).
  by apply (throttled_run trace w Hw).
Qed.

Lemma throttled_boot (t0 : Z) (box : option (Z * Z)) (status : option StatusView) :
  0 <= t0 -> throttled (boot t0 box status).
Proof.
  intros H. unfold boot. apply keeps_dispatch.
  - by intros w v Hw.
  - throttled_walk.
  - split; [done|]. by split; [constructor|].
Qed.

(** In particular from the start of the page, with the constructor's
    interval of 100 ms. *)
Lemma pull_rate_ceiling_boot
    (t0 : Z) (box : option (Z * Z)) (status : option StatusView)
    (trace : list (Z * Event)) :
  0 <= t0 -> spaced 100 (pull_times (run trace (boot t0 box status))).
Proof.
  intros H0.
  pose proof (pull_rate_ceiling trace _ (throttled_boot t0 box status H0)) as H.
  assert (frameInterval (app (boot t0 box status)) = 100) as E; [|by rewrite E in H].
  unfold boot. apply (keeps_dispatch (fun w => frameInterval (app w) = 100)).
  - by intros w v Hw.
  - keeps_walk ltac:(progress autounfold with js_gate) ltac:(eassumption).
  - reflexivity.
Qed.

(** ** The timer budget is enough *)

Lemma budget_app (l1 l2 : list Timer) : budget (l1 ++ l2) = (budget l1 + budget l2)%nat.
Proof. induction l1 as [|tm l1 IH]; simpl; [done|]. rewrite IH. lia. Qed.

Lemma budget_filter (P : Timer -> Prop) `{!forall x, Decision (P x)} (l : list Timer) :
  (budget (filter P l) <= budget l)%nat.
Proof.
  induction l as [|tm l IH]; simpl; [done|].
  rewrite filter_cons. case_decide; simpl; lia.
Qed.

Lemma weight_pos (k : Task) : (1 <= weight k)%nat.
Proof. destruct k; simpl; lia. Qed.

Ltac js_cases := repeat (case_match; js_red); simplify_eq/=.

(** A callback starts fewer timers than its weight. *)
Lemma task_budget (k : Task) (w : World) :
  (budget (timers (dispatch (run_task k) w)) + 1 <= budget (timers w) + weight k)%nat.
Proof.
  destruct k; unfold dispatch, run_task; autounfold with js_handlers; js_red;
    js_cases; rewrite ?budget_app; simpl;
    try (pose proof (budget_filter (fun tm => tid tm ≠ n) (timers w))); lia.
Qed.

Lemma budget_zero (l : list Timer) : budget l = O -> l = [].
Proof.
  destruct l as [|tm l]; simpl; [done|]. pose proof (weight_pos (task tm)). lia.
Qed.

Lemma earliest_None (l : list Timer) : earliest l = None -> l = [].
Proof.
  destruct l as [|tm l]; simpl; [done|]. destruct (earliest l); [|done].
  by destruct (_ <? _).
Qed.

(** [earliest] returns a pending timer with the least due time. *)
Lemma earliest_Some (l : list Timer) (tm : Timer) :
  earliest l = Some tm -> tm ∈ l /\ Forall (fun x => due tm <= due x) l.
Proof.
  revert tm. induction l as [|x l IH]; simpl; [done|].
  intros tm. destruct (earliest l) as [tm'|] eqn:E.
  - destruct (IH tm' eq_refl) as [Hin Hall].
    destruct (due tm' <? due x) eqn:C; intros [= <-].
    + apply Z.ltb_lt in C. split; [by right|]. constructor; [lia|done].
    + apply Z.ltb_ge in C. split; [by left|]. constructor; [lia|].
      eapply Forall_impl; [exact Hall|]. simpl. intros; lia.
  - intros [= <-]. apply earliest_None in E as ->. split; [by left|].
    by repeat constructor.
Qed.

Lemma budget_remove (l : list Timer) (tm : Timer) :
  tm ∈ l ->
  (budget (filter (fun x => tid x ≠ tid tm) l) + weight (task tm) <= budget l)%nat.
Proof.
  induction l as [|x l IH]; [by intros ?%elem_of_nil|].
  intros Hin. apply elem_of_cons in Hin as [E|Hin]; simpl; rewrite filter_cons.
  - rewrite E, decide_False by (intros H; by apply H).
    pose proof (budget_filter (fun y => tid y ≠ tid x) l). lia.
  - specialize (IH Hin). case_decide; simpl; lia.
Qed.

(** With the budget of the pending timers as fuel, [fire_due] stops only
    when no pending timer is due. *)
Lemma fire_due_complete (fuel : nat) (t : Z) (w : World) :
  (budget (timers w) <= fuel)%nat ->
  Forall (fun tm => t < due tm) (timers (fire_due fuel t w)).
Proof.
  revert w. induction fuel as [|fuel IH]; intros w Hb; simpl.
  - rewrite (budget_zero (timers w)) by lia. constructor.
  - destruct (earliest (timers w)) as [tm|] eqn:E.
    + destruct (earliest_Some _ _ E) as [Hin Hmin].
      destruct (due tm <=? t) eqn:C.
      * apply IH.
        pose proof (budget_remove _ _ Hin).
        pose proof (task_budget (task tm)
          (with_now (Z.max (now w) (due tm))
             (with_timers (filter (fun x => tid x ≠ tid tm) (timers w)) w))).
        simpl in *. lia.
      * apply Z.leb_gt in C. eapply Forall_impl; [exact Hmin|]. simpl. intros; lia.
    + apply earliest_None in E as ->. constructor.
Qed.

(** After [advance t] every timer that is still pending is due after [t]. *)
Lemma advance_complete (t : Z) (w : World) :
  Forall (fun tm => t < due tm) (timers (advance t w)).
Proof. unfold advance. simpl. by apply fire_due_complete. Qed.

(** ** Which feed drew what *)

Ltac polled_leaf :=
  first
    [ eassumption
    | unfold polled_src in *; simpl;
      first
        [ apply Forall_alter; [eassumption|];
          let l := fresh in intros l ? ?; destruct l; simpl; done
        | apply Forall_app; split; [eassumption|]; by repeat constructor ] ].

Lemma polled_src_task (t : Task) : keeps polled_src (run_task t).
Proof.
  destruct t; keeps_walk ltac:(progress autounfold with js_gate) polled_leaf.
Qed.

Lemma polled_src_handle (e : Event) : keeps polled_src (handle e).
Proof.
  destruct e; keeps_walk ltac:(progress autounfold with js_gate) polled_leaf.
Qed.

(** Loaders only ever wait for URLs. *)
Lemma polled_src_run (trace : list (Z * Event)) (w : World) :
  polled_src w -> polled_src (run trace w).
Proof. apply keeps_run; auto using polled_src_task, polled_src_handle. Qed.

Lemma polled_src_boot (t0 : Z) (box : option (Z * Z)) (status : option StatusView) :
  polled_src (boot t0 box status).
Proof.
  unfold boot. apply keeps_dispatch.
  - by intros w v Hw.
  - keeps_walk ltac:(progress autounfold with js_gate) polled_leaf.
  - constructor.
Qed.

(** Drawing an image leaves the presentations of the other feed as they
    were. *)
Lemma drawToCanvas_pushed (w0 : World) (img : Image) :
  is_pull (0, img) = true ->
  keeps (fun w => pushed w = pushed w0) (drawToCanvas (Some img)).
Proof.
  intros Hp w Hw.
  destruct (canvasContext (app w)) as [ctx|] eqn:Hctx;
    [destruct (currentStream (app w)) as [canvas|] eqn:Hcv|].
  2,3: by rewrite drawToCanvas_no_surface by auto.
  rewrite (drawToCanvas_calls _ _ _ _ Hctx Hcv). simpl snd.
  rewrite <- Hw. unfold pushed, presented. simpl.
  rewrite omap_app, filter_app. simpl.
  destruct (fitRect _ _ _ _) as [[[ox oy] rw] rh]. simpl.
  rewrite filter_cons, decide_False; [by rewrite app_nil_r|].
  unfold is_pull in *. simpl in *. by rewrite Hp.
Qed.

Lemma drawToCanvas_pulled (w0 : World) (img : Image) :
  is_pull (0, img) = false ->
  keeps (fun w => pulled w = pulled w0) (drawToCanvas (Some img)).
Proof.
  intros Hp w Hw.
  destruct (canvasContext (app w)) as [ctx|] eqn:Hctx;
    [destruct (currentStream (app w)) as [canvas|] eqn:Hcv|].
  2,3: by rewrite drawToCanvas_no_surface by auto.
  rewrite (drawToCanvas_calls _ _ _ _ Hctx Hcv). simpl snd.
  rewrite <- Hw. unfold pulled, presented. simpl.
  rewrite omap_app, filter_app. simpl.
  destruct (fitRect _ _ _ _) as [[[ox oy] rw] rh]. simpl.
  rewrite filter_cons, decide_False; [by rewrite app_nil_r|].
  unfold is_pull in *. simpl in *. by rewrite Hp.
Qed.

(** A response of the polling feed adds nothing to the presentations of
    the socket feed. *)
Lemma pull_response_not_pushed (w : World) (c : nat) (iw ih : Z) :
  polled_src w ->
  pushed (exec (handle (PullLoaded c iw ih)) w) = pushed w.
Proof.
  intros Hsrc. unfold exec, handle.
  rewrite (bind_normal get _ w w w eq_refl).
  destruct (loaders w !! c) as [l|] eqn:El; simpl; [|done].
  destruct (inflight l) as [[base t|text]|] eqn:Ei; simpl; [| |done].
  - apply (keeps_apply (fun w' => pushed w' = pushed w)); [|done].
    keeps_walk
      ltac:(first [ lazymatch goal with
                    | |- keeps _ (drawToCanvas _) => by apply drawToCanvas_pushed
                    end
                  | progress autounfold with js_gate ])
      ltac:(eassumption).
  - unfold polled_src in Hsrc. rewrite Forall_lookup in Hsrc.
    specialize (Hsrc c l El). by rewrite Ei in Hsrc.
Qed.

(** A decoded socket frame adds nothing to the presentations of the
    polling feed. *)
Lemma socket_frame_not_pulled (w : World) (i : nat) (iw ih : Z) :
  pulled (exec (handle (FrameLoaded i iw ih)) w) = pulled w.
Proof.
  unfold exec.
  apply (keeps_apply (fun w' => pulled w' = pulled w)); [|done].
  keeps_walk
    ltac:(first [ lazymatch goal with
                  | |- keeps _ (drawToCanvas _) => by apply drawToCanvas_pulled
                  end
                | progress autounfold with js_gate ])
    ltac:(eassumption).
Qed.

(** Nothing else draws: timer callbacks and the other events leave the
    canvas alone. *)
Lemma task_draws_nothing (t : Task) (w : World) :
  ctxCalls (exec (run_task t) w) = ctxCalls w.
Proof.
  unfold exec. apply (keeps_apply (fun w' => ctxCalls w' = ctxCalls w)); [|done].
  destruct t; keeps_walk fail ltac:(eassumption).
Qed.

Lemma event_draws_nothing (e : Event) (w : World) :
  match e with PullLoaded _ _ _ | FrameLoaded _ _ _ => False | _ => True end ->
  ctxCalls (exec (handle e) w) = ctxCalls w.
Proof.
  intros He. unfold exec.
  apply (keeps_apply (fun w' => ctxCalls w' = ctxCalls w)); [|done].
  destruct e; try done;
    keeps_walk ltac:(progress autounfold with js_gate) ltac:(eassumption).
Qed.

(** ** Claims about the polling feed *)

(** *** C3 *)

(** C3, as the source has it: a response of the polling feed that arrives
    less than a frame interval after the last accepted frame is skipped.
    The handler draws nothing and issues no request; it clears the busy flag
    and arms one timer, due after the remaining delay, whose callback is
    [loadNextFrame].  When that callback runs in polling mode with the busy
    flag down, it issues a new request with a fresh timestamp and draws
    nothing: the frame that was fetched early is never presented. *)
Theorem pull_early_frame_skipped (w w2 : World) (c : nat) (img : Image) :
  now w - lastFrameTime (app w) < frameInterval (app w) ->
  useMjpgStream (app w2) = true ->
  isLoading (app w2) = false ->
  let w1 := exec (loader_onload c img) w in
  let w3 := exec (run_task (TLoadNextFrame c)) w2 in
  (throws (loader_onload c img) w = false /\
   presented w1 = presented w /\
   requests w1 = requests w /\
   isLoading (app w1) = false /\
   timers w1 =
     timers w ++
     [mkTimer (nextTimer w)
        (now w + (frameInterval (app w) - (now w - lastFrameTime (app w))))
        (TLoadNextFrame c)]) /\
  (requests w3 = requests w2 ++ [mkRequest (now w2) c (Url (mjpgUrl (app w2)) (now w2))] /\
   presented w3 = presented w2).
Proof.
  intros Hearly Hm Hl w1 w3. subst w1 w3. unfold exec, throws.
  rewrite (loader_onload_early _ _ _ Hearly). simpl run_task.
  rewrite (loadNextFrame_exec _ _ Hm Hl). simpl.
  repeat split. do 3 f_equal. lia.
Qed.

(** In the restart scenario the response of the second loader arrives at
    1250, 50 ms after the frame accepted at 1200. *)
Lemma pull_early_frame_skipped_witness :
  let w := advance 1250 (run restart_prefix pull_world) in
  let img := mkImage (Url "/video_feed" 1110) 640 480 in
  let w1 := exec (loader_onload 1 img) w in
  presented w1 = presented w /\
  timers w1 = timers w ++ [mkTimer (nextTimer w) (1250 + (100 - (1250 - 1200))) (TLoadNextFrame 1)] /\
  request_times (exec (run_task (TLoadNextFrame 1)) (with_now 1300 w1)) =
    [1000; 1110; 1300].
Proof.
  intros w img w1.
  destruct (pull_early_frame_skipped w (with_now 1300 w1) 1 img)
    as ((_ & Hp & _ & _ & Ht) & (Hr & _));
    [vm_compute; reflexivity | vm_compute; reflexivity | vm_compute; reflexivity |].
  split; [exact Hp|]. split; [exact Ht|].
  unfold request_times. rewrite Hr. vm_compute. reflexivity.
Defined.

(** C3 as stated fails.  In the restart scenario the second loader's
    request of 1110 is answered at 1250; that frame is never presented,
    however long one waits, and a new request goes out at 1300. *)
Lemma pull_early_frame_dropped :
  let w := advance 60000 (run restart_trace pull_world) in
  requests (run restart_prefix pull_world) =
    [mkRequest 1000 0 (Url "/video_feed" 1000);
     mkRequest 1110 1 (Url "/video_feed" 1110)] /\
  inflight <$> loaders (run restart_prefix pull_world) !! 1%nat =
    Some (Some (Url "/video_feed" 1110)) /\
  inflight <$> loaders (run restart_trace pull_world) !! 1%nat = Some None /\
  presented w = [(1200, mkImage (Url "/video_feed" 1000) 640 480)] /\
  request_times w = [1000; 1110; 1300] /\
  timers w = [].
Proof. by vm_compute. Qed.

(** *** C5 *)

(** C5: the failure handler of the polling feed never throws; it shows the
    error status at once (when the page has a status element), clears the
    busy flag and arms exactly one timer, due 1000 ms later whatever the
    frame interval is.  In the event loop, with nothing else pending, a
    failure at time [t] is followed by exactly one new request, at
    [t + 1000] and not before, and the feed is then waiting for a response
    again.  Three failures in a row give three retries, 1050 ms apart, the
    error status, and no uncaught exception. *)
Theorem pull_failure_retry :
  (forall (w : World) (c : nat),
     loader_onerror c w =
       (Normal tt,
        with_nextTimer (S (nextTimer w))
          (with_timers (timers w ++ [mkTimer (nextTimer w) (now w + 1000) (TRetry c)])
             (with_statusElement
                (match statusElement w with
                 | Some _ =>
                     Some (mkStatusView "❌ Stream Error" "live2d-status status-error")
                 | None => None
                 end)
                (with_consoleErrors (consoleErrors w ++ ["MJPG stream error"])
                   (with_app (set_isLoading false (app w)) w)))))) /\
  (forall (w : World) (c : nat) (s : Src) (t : Z),
     timers w = [] ->
     useMjpgStream (app w) = true ->
     inflight <$> loaders w !! c = Some (Some s) ->
     now w <= t ->
     let w1 := deliver (t, PullFailed c) w in
     let w2 := advance (t + 1000) w1 in
     statusElement w1 =
       match statusElement w with
       | Some _ => Some (mkStatusView "❌ Stream Error" "live2d-status status-error")
       | None => None
       end /\
     timers w1 = [mkTimer (nextTimer w) (t + 1000) (TRetry c)] /\
     (forall t', t <= t' < t + 1000 -> requests (advance t' w1) = requests w) /\
     requests w2 =
       requests w ++ [mkRequest (t + 1000) c (Url (mjpgUrl (app w)) (t + 1000))] /\
     timers w2 = [] /\
     useMjpgStream (app w2) = true /\
     inflight <$> loaders w2 !! c = Some (Some (Url (mjpgUrl (app w)) (t + 1000))) /\
     now w2 = t + 1000 /\
     uncaught w2 = uncaught w) /\
  (let w := advance 4150 (run three_failures pull_world) in
   request_times w = [1000; 2050; 3100; 4150] /\
   statusElement w = Some (mkStatusView "❌ Stream Error" "live2d-status status-error") /\
   presented w = [] /\
   uncaught w = []).
Proof.
  split; [exact loader_onerror_exec|].
  split; [exact failure_cycle|].
  by vm_compute.
Qed.

(** The first request fails late, at 1650, after the timer of the main
    tab has fired: it is retried at 2650. *)
Lemma pull_failure_retry_witness :
  let w1 := deliver (1650, PullFailed 0) (advance 1600 pull_world) in
  timers w1 = [mkTimer 2 2650 (TRetry 0)] /\
  requests (advance 2649 w1) = [mkRequest 1000 0 (Url "/video_feed" 1000)] /\
  requests (advance 2650 w1) =
    [mkRequest 1000 0 (Url "/video_feed" 1000);
     mkRequest 2650 0 (Url "/video_feed" 2650)].
Proof.
  destruct (proj1 (proj2 pull_failure_retry) (advance 1600 pull_world) 0%nat
              (Url "/video_feed" 1000) 1650)
    as (_ & Ht & Hq & Hr & _);
    [reflexivity | reflexivity | reflexivity | vm_compute; discriminate |].
  split; [exact Ht|]. split; [|exact Hr].
  apply (Hq 2649). lia.
Defined.

(** The success handler of the polling feed never reads the mode flag:
    it does the same in either mode. *)
Lemma loader_onload_ignores_mode (w : World) (c : nat) (img : Image) (b : bool) :
  loader_onload c img (with_app (set_useMjpgStream b (app w)) w) =
    (fst (loader_onload c img w),
     with_app (set_useMjpgStream b (app (snd (loader_onload c img w))))
              (snd (loader_onload c img w))).
Proof.
  destruct w as [a]. destruct a.
  unfold loader_onload, drawToCanvas, updateLive2DStatus. js_red.
  repeat (case_match; js_red); simplify_eq/=; first [reflexivity | congruence].
Qed.

(** *** C4 *)

(** C4 fails on the code: [loaderImg.onload] does not look at the mode.
    The mode is toggled at 1010 while the first request is in flight; the
    response arrives at 1300, when the socket feed has been started, and is
    drawn on the new canvas. *)
Theorem late_pull_response_presented :
  let w := run late_response pull_world in
  useMjpgStream (app w) = false /\
  live2dSocket (app w) = Some 0%nat /\
  currentStream (app w) = Some (mkCanvas 1 800 600) /\
  presented w = [(1300, mkImage (Url "/video_feed" 1000) 640 480)] /\
  lastFrameTime (app w) = 1300.
Proof. by vm_compute. Qed.

(** ** Claims about the socket feed *)

(** A frame that arrives early is only stored: it replaces the pending
    frame of its socket; nothing is drawn, decoded or scheduled. *)
Lemma on_live2d_frame_early (w : World) (k : nat) (frame : JsVal) :
  now w - lastFrameTime (app w) < frameInterval (app w) ->
  on_live2d_frame k frame w =
    (Normal tt,
     with_sockets
       (alter (set_pendingFrame frame) k
          (alter (fun s => set_frameCount (frameCount s + 1) s) k (sockets w))) w).
Proof.
  intros H. unfold on_live2d_frame. js_red.
  apply Z.ltb_lt in H. rewrite H. by destruct w.
Qed.

(** The flush callback does not touch the time of the last frame. *)
Lemma flushPending_lastFrameTime (w : World) (k : nat) :
  lastFrameTime (app (exec (flushPending k) w)) = lastFrameTime (app w).
Proof.
  apply (keeps_apply (fun w' => lastFrameTime (app w') = lastFrameTime (app w)));
    [|done].
  keeps_walk fail ltac:(eassumption).
Qed.

(** *** C1 *)

(** C1 fails on the code.  Frames reach the socket feed at 2000, 2030 and
    2060.  The first is presented at 2000; the other two are stored, the
    third over the second, and no timer is armed for them: right after the
    third frame only the notification timer and the stream start timer are
    pending.  Nothing is presented at 2100 or at any later time; the frame
    of 2060 stays in [pendingFrame]. *)
Theorem push_pending_frame_stranded :
  let frameA := mkImage (DataUri "data:image/jpeg;base64,A") 640 480 in
  pushed push_world = [] /\
  frameInterval (app push_world) = 100 /\
  task <$> timers (run three_frames push_world) = [TNotifyFade 0; TStartBackground] /\
  pushed (advance 2100 (run three_frames push_world)) = [(2000, frameA)] /\
  pushed (advance 60000 (run three_frames push_world)) = [(2000, frameA)] /\
  pendingFrame <$> sockets (advance 60000 (run three_frames push_world)) =
    [jpeg "C"] /\
  timers (advance 60000 (run three_frames push_world)) = [] /\
  decoding (advance 60000 (run three_frames push_world)) = [None].
Proof. by vm_compute. Qed.

(** *** C2 *)

(** C2 fails on the code for the socket feed.  Frames arrive at 2000,
    2030, 2100 and 2250.  The frame of 2030 is stored; the frame of 2100 is
    accepted and arms the flush of the stored frame for 2200; the flush
    does not move [lastFrameTime], so the frame of 2250 is accepted as
    well: the socket feed presents at 2200 and again at 2250, 50 ms
    later (and the frame of 2030 after the frame of 2100). *)
Theorem push_presentations_too_close :
  let w := advance 60000 (run four_frames push_world) in
  frameInterval (app w) = 100 /\
  pushed w =
    [(2000, mkImage (DataUri "data:image/jpeg;base64,A") 640 480);
     (2100, mkImage (DataUri "data:image/jpeg;base64,C") 640 480);
     (2200, mkImage (DataUri "data:image/jpeg;base64,B") 640 480);
     (2250, mkImage (DataUri "data:image/jpeg;base64,D") 640 480)] /\
  ~ spaced 100 (fst <$> pushed w).
Proof.
  split; [by vm_compute|]. split; [by vm_compute|].
  vm_compute. intros (_ & _ & H & _). by apply H.
Qed.

(** *** C6 *)





(** ** Claims about the controller *)

(** The toggle negates the mode flag; what follows the assignment leaves
    the flag alone. *)
Lemma toggle_flag (w : World) :
  useMjpgStream (app (exec toggleStreamMethod w)) = negb (useMjpgStream (app w)).
Proof.
  unfold exec, toggleStreamMethod.
  rewrite (bind_normal this _ w w (app w) eq_refl).
  rewrite (bind_normal (assign _) _ w
             (with_app (set_useMjpgStream (negb (useMjpgStream (app w))) (app w)) w)
             tt eq_refl).
  apply (keeps_apply (fun w' => useMjpgStream (app w') = negb (useMjpgStream (app w))));
    [|done].
  keeps_walk fail ltac:(eassumption).
Qed.

(** After a toggle into polling mode the URL is the video feed. *)
Lemma toggle_url (w : World) :
  useMjpgStream (app (exec toggleStreamMethod w)) = true ->
  mjpgUrl (app (exec toggleStreamMethod w)) = "/video_feed".
Proof.
  rewrite toggle_flag. intros Hb.
  unfold exec, toggleStreamMethod.
  rewrite (bind_normal this _ w w (app w) eq_refl).
  rewrite (bind_normal (assign _) _ w
             (with_app (set_useMjpgStream (negb (useMjpgStream (app w))) (app w)) w)
             tt eq_refl).
  rewrite (bind_normal this _ _ _ _ eq_refl). simpl useMjpgStream. rewrite Hb.
  rewrite (bind_normal (assign _ ≫= _) _ _ _ tt eq_refl).
  apply (keeps_apply url_ok); [url_walk|reflexivity].
Qed.

(** *** C8 *)

(** C8 fails on the code: [cleanupStream] clears two timer fields that are
    never assigned, and leaves a socket alone that has not connected yet.
    A toggle 10 ms after a polled frame leaves the polling feed's
    [loadNextFrame] timer pending.  A toggle to the socket feed and back
    before the socket has connected leaves that socket open and current;
    when it connects and delivers a frame, the frame is presented in
    polling mode. *)
Theorem toggle_leaves_timer_and_socket :
  (let w := run toggle_after_frame pull_world in
   useMjpgStream (app w) = false /\
   timers w =
     [mkTimer 1 1500 TTabInit; mkTimer 2 1140 (TLoadNextFrame 0);
      mkTimer 3 4050 (TNotifyFade 0); mkTimer 4 1150 TInitStream]) /\
  (let w1 := run (take 2 toggle_back) pull_world in
   let w2 := run toggle_back pull_world in
   useMjpgStream (app w1) = true /\
   live2dSocket (app w1) = Some 0%nat /\
   sockets w1 = [mkSocket false false 0 JNull] /\
   useMjpgStream (app w2) = true /\
   sockets w2 = [mkSocket true false 1 JNull] /\
   presented w2 = [(1400, mkImage (DataUri "data:image/jpeg;base64,A") 640 480)]).
Proof. by vm_compute. Qed.

(** *** C10 *)

(** C10: from any state, two calls of [toggleStreamMethod] restore
    [useMjpgStream]; after any call that leaves [useMjpgStream] true,
    [mjpgUrl] is ['/video_feed']; and in every state the page can reach,
    whatever events arrive, [mjpgUrl] is ['/video_feed']. *)
Theorem toggle_involution :
  (forall w : World,
     useMjpgStream (app (exec toggleStreamMethod (exec toggleStreamMethod w))) =
     useMjpgStream (app w)) /\
  (forall w : World,
     useMjpgStream (app (exec toggleStreamMethod w)) = true ->
     mjpgUrl (app (exec toggleStreamMethod w)) = "/video_feed") /\
  (forall (t0 : Z) (box : option (Z * Z)) (status : option StatusView)
          (trace : list (Z * Event)),
     mjpgUrl (app (run trace (boot t0 box status))) = "/video_feed").
Proof.
  split; [|split].
  - intros w. rewrite !toggle_flag. apply negb_involutive.
  - exact toggle_url.
  - intros t0 box status trace. apply url_ok_run, url_ok_boot.
Qed.

(** The socket feed is toggled back to the polling feed. *)
Lemma toggle_involution_witness :
  useMjpgStream (app push_world) = false /\
  mjpgUrl (app (exec toggleStreamMethod push_world)) = "/video_feed".
Proof.
  split; [reflexivity|].
  apply (proj1 (proj2 toggle_involution) push_world). reflexivity.
Defined.

(** * Further properties of the stream code *)

(** [cleanupStream], in full: the two timer fields are cleared (and their
    timers cancelled, had they been set), a connected socket is
    disconnected and dropped, and the stream fields are reset. *)
Lemma cleanupStream_exec (w : World) :
  let a := app w in
  let t1 := match mjpgRefreshInterval a with
            | Some id => filter (fun tm => tid tm ≠ id) (timers w)
            | None => timers w
            end in
  let t2 := match canvasRenderTimeout a with
            | Some id => filter (fun tm => tid tm ≠ id) t1
            | None => t1
            end in
  let live := match live2dSocket a with
              | Some k => default false (connected <$> sockets w !! k)
              | None => false
              end in
  cleanupStream w =
    (Normal tt,
     with_app
       (mkApp (useMjpgStream a) (mjpgUrl a) None false (canvasContext a)
          (lastFrameTime a) (frameInterval a) None false None None
          (if live then None else live2dSocket a))
       (with_sockets
          (match live2dSocket a with
           | Some k =>
               if live
               then alter (fun s => set_disconnected true (set_connected false s)) k
                          (sockets w)
               else sockets w
           | None => sockets w
           end)
          (with_timers t2 w))).
Proof.
  destruct w as [a]; destruct a as [? ? ? ? ? ? ? ? ? ri ct ls]. simpl.
  unfold cleanupStream, disconnect. js_red.
  destruct ri, ct, ls as [k|]; js_red;
    try destruct (default false (connected <$> _ !! k)); reflexivity.
Qed.

(** X1: tearing the stream down twice is the same as tearing it down once,
    and tearing down never throws. *)
Theorem cleanupStream_idempotent (w : World) :
  throws cleanupStream w = false /\
  exec cleanupStream (exec cleanupStream w) = exec cleanupStream w.
Proof.
  unfold throws, exec. split; [by rewrite cleanupStream_exec|].
  rewrite (cleanupStream_exec w). simpl snd. rewrite cleanupStream_exec. simpl.
  destruct w as [a]; destruct a as [? ? ? ? ? ? ? ? ? ri ct ls]. simpl.
  destruct ls as [k|]; [|reflexivity].
  destruct (default false (connected <$> _ !! k)) eqn:E; [reflexivity|].
  simpl. by rewrite E.
Qed.

Section Sure.
Context {A B : Type} (P : World -> Prop).

Lemma sure_ret (a : A) : sure P (mret a).
Proof. intros w Hw. split; [done|by exists a]. Qed.

Lemma sure_bind (m : Js A) (k : A -> Js B) :
  sure P m -> (forall a, sure P (k a)) -> sure P (m ≫= k).
Proof.
  intros Hm Hk w Hw. destruct (Hm w Hw) as [H1 [a Ha]].
  unfold mbind, Js_bind, bind. destruct (m w) as [r w']. simpl in *. subst r.
  by apply Hk.
Qed.

Lemma sure_prim (m : Js A) :
  (forall w, P w -> P (snd (m w)) /\ exists a, fst (m w) = Normal a) -> sure P m.
Proof. done. Qed.
End Sure.

(** Walk through a handler that cannot throw. *)
Ltac sure_step known leaf :=
  lazymatch goal with
  | |- sure _ (mret _) => apply sure_ret
  | |- sure _ (ret _) => apply sure_ret
  | |- sure _ (mbind _ _) => apply sure_bind; [|intros ?]
  | |- sure _ (match ?x with _ => _ end) => destruct x eqn:?
  | |- sure _ _ =>
      first [ known
            | progress autounfold with js_handlers js_gate
            | apply sure_prim; intros ? ?; split; [solve [leaf]|by eexists] ]
  end.

Ltac sure_walk known leaf := repeat sure_step known leaf.

Lemma sure_setupCanvas (box : Z * Z) :
  sure (fun w => displayBox w = Some box) setupCanvas.
Proof.
  intros w Hw. unfold setupCanvas. js_red. rewrite Hw. destruct box. js_red.
  split; [done|by eexists].
Qed.

Lemma initializeLive2DStream_started (w : World) (box : Z * Z) :
  displayBox w = Some box ->
  throws initializeLive2DStream w = false /\
  streamInitialized (app (exec initializeLive2DStream w)) = true /\
  displayBox (exec initializeLive2DStream w) = Some box.
Proof.
  intros Hbox. unfold throws, exec, initializeLive2DStream.
  rewrite (bind_normal get _ w w w eq_refl). rewrite Hbox.
  destruct (streamInitialized (app w)) eqn:Hi; [done|].
  rewrite (bind_normal (assign _) _ w (with_app (set_streamInitialized true (app w)) w)
             tt eq_refl).
  match goal with |- context [fst (?m ?w1)] =>
    assert (sure (fun w' => displayBox w' = Some box) m) as Hs;
      [|destruct (Hs w1 Hbox) as [Hb [[] Ht]]; rewrite Ht]
  end.
  { sure_walk
      ltac:(idtac; lazymatch goal with
                   | |- sure _ setupCanvas => apply sure_setupCanvas
                   end)
      ltac:(eassumption). }
  split; [done|]. split; [|done].
  apply (keeps_apply (fun w' => streamInitialized (app w') = true)); [|done].
  keeps_walk fail ltac:(eassumption).
Qed.

(** X2: [initializeLive2DStream] starts at most one feed.  Without the
    display element it only logs an error.  With the element, it never
    throws and leaves the stream marked as initialized; a call on a stream
    that is marked as initialized changes nothing, so calling it twice is
    the same as calling it once. *)
Theorem initializeLive2DStream_once (w : World) :
  (displayBox w = None ->
   initializeLive2DStream w =
     (Normal tt,
      with_consoleErrors (consoleErrors w ++ ["Live2D display element not found"]) w)) /\
  (displayBox w <> None ->
   (streamInitialized (app w) = true -> initializeLive2DStream w = (Normal tt, w)) /\
   throws initializeLive2DStream w = false /\
   streamInitialized (app (exec initializeLive2DStream w)) = true /\
   exec initializeLive2DStream (exec initializeLive2DStream w) =
     exec initializeLive2DStream w).
Proof.
  split.
  - intros H. unfold initializeLive2DStream. js_red. by rewrite H.
  - intros H. destruct (displayBox w) as [box|] eqn:Hbox; [clear H|done].
    assert (forall w', displayBox w' <> None -> streamInitialized (app w') = true ->
                       initializeLive2DStream w' = (Normal tt, w')) as Hnoop.
    { intros w' Hb Hi. unfold initializeLive2DStream. js_red.
      destruct (displayBox w'); [|done]. by rewrite Hi. }
    destruct (initializeLive2DStream_started w box Hbox) as (Ht & Hi & Hb).
    split; [intros Hs; apply Hnoop; [by rewrite Hbox|done]|].
    split; [done|]. split; [done|].
    unfold exec in *. rewrite Hnoop; [done|by rewrite Hb|done].
Qed.

(** A page without display element, and the start page, where the stream
    is already running. *)
Lemma initializeLive2DStream_once_witness :
  consoleErrors (exec initializeLive2DStream (page 1000 None None)) =
    ["Live2D display element not found"] /\
  loaders (exec initializeLive2DStream (page 1000 None None)) = [] /\
  initializeLive2DStream pull_world = (Normal tt, pull_world).
Proof.
  split; [|split].
  - unfold exec.
    by rewrite (proj1 (initializeLive2DStream_once (page 1000 None None)) eq_refl).
  - unfold exec.
    by rewrite (proj1 (initializeLive2DStream_once (page 1000 None None)) eq_refl).
  - apply (proj2 (initializeLive2DStream_once pull_world)); [discriminate|reflexivity].
Defined.


(** X3: the socket feed buffers one frame and the last one wins.  Two
    frames that arrive on a socket while the gate is closed leave the
    second one pending and count both; nothing is decoded, drawn or
    scheduled, and the time of the last frame does not move. *)
Theorem pending_frame_last_wins
    (w : World) (k : nat) (s : Socket) (frame1 frame2 : JsVal) :
  now w - lastFrameTime (app w) < frameInterval (app w) ->
  sockets w !! k = Some s ->
  let w2 := exec (on_live2d_frame k frame2) (exec (on_live2d_frame k frame1) w) in
  sockets w2 !! k =
    Some (mkSocket (connected s) (disconnected s) (frameCount s + 2) frame2) /\
  (forall j, j <> k -> sockets w2 !! j = sockets w !! j) /\
  decoding w2 = decoding w /\
  ctxCalls w2 = ctxCalls w /\
  timers w2 = timers w /\
  app w2 = app w.
Proof.
  intros Hearly Hk w2. subst w2. unfold exec.
  rewrite (on_live2d_frame_early _ _ _ Hearly). simpl snd.
  rewrite on_live2d_frame_early by done. simpl.
  split.
  - rewrite !list_lookup_alter_eq, Hk. simpl. do 2 f_equal.
    unfold set_pendingFrame, set_frameCount. simpl. f_equal. lia.
  - split; [|done]. intros j Hj. by rewrite !list_lookup_alter_ne.
Qed.

(** On the socket feed of the scenarios, 30 ms after an accepted frame. *)
Lemma pending_frame_last_wins_witness :
  let w := advance 2030 (run [(2000, SockFrame 0 (jpeg "A"))] push_world) in
  let w2 := exec (on_live2d_frame 0 (jpeg "C")) (exec (on_live2d_frame 0 (jpeg "B")) w) in
  sockets w2 !! 0%nat = Some (mkSocket true false 3 (jpeg "C")) /\
  timers w2 = timers w.
Proof.
  intros w w2.
  destruct (pending_frame_last_wins w 0 (mkSocket true false 1 JNull)
              (jpeg "B") (jpeg "C")) as (H1 & _ & _ & _ & H2 & _);
    [vm_compute; reflexivity | reflexivity |].
  split; [exact H1 | exact H2].
Defined.

(** X4: only a completed image load draws.  No timer callback and no event
    other than the load of a polled image or of a socket frame image calls
    the canvas. *)
Theorem only_image_loads_draw :
  (forall (t : Task) (w : World), ctxCalls (exec (run_task t) w) = ctxCalls w) /\
  (forall (e : Event) (w : World),
     (forall c iw ih, e <> PullLoaded c iw ih) ->
     (forall i iw ih, e <> FrameLoaded i iw ih) ->
     ctxCalls (exec (handle e) w) = ctxCalls w).
Proof.
  split; [exact task_draws_nothing|].
  intros e w H1 H2. apply event_draws_nothing.
  destruct e; try done; [by eapply H1|by eapply H2].
Qed.

(** A toggle click on the start page draws nothing. *)
Lemma only_image_loads_draw_witness :
  ctxCalls (exec (handle ClickToggle) pull_world) = ctxCalls pull_world.
Proof. apply (proj2 only_image_loads_draw ClickToggle pull_world); done. Defined.

(** X5: the rate ceiling of the polling feed.  Whatever events arrive and
    in whatever order (responses, failures, socket frames, toggles,
    restarts), two consecutive presentations of polled images are at least
    one frame interval apart: from any state in which nothing polled was
    presented after the last accepted frame, and in particular from the
    start of the page, where the interval is 100 ms. *)
Theorem polling_rate_ceiling :
  (forall (w : World) (trace : list (Z * Event)),
     throttled w ->
     spaced (frameInterval (app w)) (pull_times (run trace w))) /\
  (forall (t0 : Z) (box : option (Z * Z)) (status : option StatusView)
          (trace : list (Z * Event)),
     0 <= t0 -> spaced 100 (pull_times (run trace (boot t0 box status)))).
Proof.
  split.
  - intros w trace. apply pull_rate_ceiling.
  - intros. by apply pull_rate_ceiling_boot.
Qed.

(** The restart scenario, in which two loaders answer 50 ms apart. *)
Lemma polling_rate_ceiling_witness :
  spaced 100 (pull_times (run restart_trace pull_world)).
Proof.
  apply (proj2 polling_rate_ceiling 1000 (Some (800, 600))
           (Some (mkStatusView "" "")) restart_trace).
  lia.
Defined.

(** The two timer fields that [cleanupStream] clears are never assigned. *)
Lemma timer_fields_task (t : Task) :
  keeps (fun w => mjpgRefreshInterval (app w) = None /\ canvasRenderTimeout (app w) = None)
        (run_task t).
Proof.
  destruct t; keeps_walk ltac:(progress autounfold with js_gate)
                ltac:(first [eassumption | by destruct_and?; split]).
Qed.

Lemma timer_fields_handle (e : Event) :
  keeps (fun w => mjpgRefreshInterval (app w) = None /\ canvasRenderTimeout (app w) = None)
        (handle e).
Proof.
  destruct e; keeps_walk ltac:(progress autounfold with js_gate)
                ltac:(first [eassumption | by destruct_and?; split]).
Qed.

(** X6: the timer cancelling of [cleanupStream] is dead code.  In every
    state the page can reach, whatever events arrive, [mjpgRefreshInterval]
    and [canvasRenderTimeout] are unset, so [cleanupStream] cancels no
    timer: it leaves the timer queue exactly as it found it. *)
Theorem cleanup_cancels_nothing
    (t0 : Z) (box : option (Z * Z)) (status : option StatusView)
    (trace : list (Z * Event)) :
  let w := run trace (boot t0 box status) in
  mjpgRefreshInterval (app w) = None /\
  canvasRenderTimeout (app w) = None /\
  timers (exec cleanupStream w) = timers w.
Proof.
  intros w.
  assert (mjpgRefreshInterval (app w) = None /\ canvasRenderTimeout (app w) = None)
    as [H1 H2].
  { subst w.
    apply (keeps_run (fun w => mjpgRefreshInterval (app w) = None /\
                               canvasRenderTimeout (app w) = None));
      auto using timer_fields_task, timer_fields_handle.
    unfold boot. apply keeps_dispatch; [done| |done].
    keeps_walk ltac:(progress autounfold with js_gate)
      ltac:(first [eassumption | by destruct_and?; split]). }
  split; [done|]. split; [done|].
  unfold exec. rewrite cleanupStream_exec. simpl. by rewrite H1, H2.
Qed.

Lemma earliest_two (tm1 tm2 : Timer) :
  due tm2 < due tm1 -> earliest [tm1; tm2] = Some tm2.
Proof. intros H. simpl. apply Z.ltb_lt in H. by rewrite H. Qed.

Lemma toggle_switches_feed_pre (w : World) (bw bh t : Z) :
  displayBox w = Some (bw, bh) ->
  timers w = [] ->
  mjpgRefreshInterval (app w) = None ->
  canvasRenderTimeout (app w) = None ->
  now w <= t ->
  let w1 := deliver (t, ClickToggle) w in
  timers w1 =
    [mkTimer (nextTimer w) (t + 3000) (TNotifyFade (length (notifications w)));
     mkTimer (S (nextTimer w)) (t + 100) TInitStream] /\
  now w1 = t /\
  displayBox w1 = Some (bw, bh) /\
  useMjpgStream (app w1) = negb (useMjpgStream (app w)) /\
  streamInitialized (app w1) = false /\
  isLoading (app w1) = false /\
  mjpgRefreshInterval (app w1) = None /\
  nextTimer w1 = S (S (nextTimer w)) /\
  loaders w1 = loaders w /\
  length (sockets w1) = length (sockets w) /\
  requests w1 = requests w /\
  nextCanvas w1 = nextCanvas w /\
  uncaught w1 = uncaught w /\
  (useMjpgStream (app w1) = true -> mjpgUrl (app w1) = "/video_feed").
Proof.
  intros Hbox Ht Hri Hct Hnow w1. subst w1.
  unfold deliver. rewrite advance_idle by done. simpl fst; simpl snd.
  replace (Z.max (now w) t) with t by lia.
  unfold dispatch, handle, toggleStreamMethod, showNotification.
  destruct w as [a]; destruct a as [flag]. simpl in *. subst.
  destruct flag; js_red;
    (match goal with |- context [cleanupStream ?w0] =>
       rewrite (cleanupStream_exec w0) end);
    js_red; repeat split; try done;
    repeat case_match; simpl; by rewrite ?length_alter.
Qed.

Lemma alter_snoc {A : Type} (f : A -> A) (l : list A) (x : A) :
  alter f (length l) (l ++ [x]) = l ++ [f x].
Proof. induction l as [|y l IH]; [done|]. simpl. f_equal. exact IH. Qed.

(** Starting the polling feed: a canvas, a loader, and its first request. *)
Lemma initializeLive2DStream_pull (w : World) (bw bh : Z) :
  displayBox w = Some (bw, bh) ->
  streamInitialized (app w) = false ->
  useMjpgStream (app w) = true ->
  isLoading (app w) = false ->
  let w' := exec initializeLive2DStream w in
  let url := Url (mjpgUrl (app w)) (now w) in
  throws initializeLive2DStream w = false /\
  loaders w' = loaders w ++ [mkLoader true (Some url)] /\
  requests w' = requests w ++ [mkRequest (now w) (length (loaders w)) url] /\
  currentStream (app w') = Some (mkCanvas (nextCanvas w) bw bh) /\
  canvasContext (app w') = Some (nextCanvas w) /\
  streamInitialized (app w') = true /\
  isLoading (app w') = true /\
  useMjpgStream (app w') = true /\
  sockets w' = sockets w /\
  live2dSocket (app w') = live2dSocket (app w) /\
  timers w' = timers w /\
  now w' = now w.
Proof.
  intros Hbox Hi Hm Hl.
  destruct w as [a ? ? ? ? ? ? ? ? st]; destruct a. simpl in *. subst.
  unfold throws, exec, initializeLive2DStream, setupCanvas, initializeMjpgStream,
    loadNextFrame, updateLive2DStatus.
  destruct st; js_red; by rewrite alter_snoc.
Qed.

(** Starting the socket feed: a canvas, a socket that becomes the current
    one, and the delayed request to start the stream. *)
Lemma initializeLive2DStream_push (w : World) (bw bh : Z) :
  displayBox w = Some (bw, bh) ->
  streamInitialized (app w) = false ->
  useMjpgStream (app w) = false ->
  mjpgRefreshInterval (app w) = None ->
  let w' := exec initializeLive2DStream w in
  throws initializeLive2DStream w = false /\
  sockets w' = sockets w ++ [mkSocket false false 0 JNull] /\
  live2dSocket (app w') = Some (length (sockets w)) /\
  timers w' = timers w ++ [mkTimer (nextTimer w) (now w + 1000) TStartBackground] /\
  currentStream (app w') = Some (mkCanvas (nextCanvas w) bw bh) /\
  canvasContext (app w') = Some (nextCanvas w) /\
  streamInitialized (app w') = true /\
  useMjpgStream (app w') = false /\
  loaders w' = loaders w /\
  requests w' = requests w /\
  now w' = now w.
Proof.
  intros Hbox Hi Hm Hri.
  destruct w as [a ? ? ? ? ? ? ? ? st]; destruct a. simpl in *. subst.
  unfold throws, exec, initializeLive2DStream, setupCanvas, initializeWebSocketStream,
    updateLive2DStatus.
  destruct st; by js_red.
Qed.

Lemma filter_keep_first (tm1 tm2 : Timer) :
  tid tm1 <> tid tm2 -> filter (fun x => tid x ≠ tid tm2) [tm1; tm2] = [tm1].
Proof.
  intros H. rewrite !filter_cons, filter_nil.
  rewrite decide_True by done. by rewrite decide_False by (intros H'; by apply H').
Qed.

Lemma fire_due_step (fuel : nat) (t : Z) (w : World) (tm : Timer) :
  earliest (timers w) = Some tm ->
  due tm <= t ->
  fire_due (S fuel) t w =
    fire_due fuel t
      (dispatch (run_task (task tm))
         (with_now (Z.max (now w) (due tm))
            (with_timers (filter (fun x => tid x ≠ tid tm) (timers w)) w))).
Proof. intros E Hd. simpl. rewrite E. apply Z.leb_le in Hd. by rewrite Hd. Qed.

Lemma fire_due_stop (fuel : nat) (t : Z) (w : World) (tm : Timer) :
  earliest (timers w) = Some tm -> t < due tm -> fire_due fuel t w = w.
Proof.
  intros E Hd. destruct fuel; simpl; [done|]. rewrite E.
  apply Z.leb_gt in Hd. by rewrite Hd.
Qed.

Lemma dispatch_normal (h : Js unit) (w : World) :
  throws h w = false -> dispatch h w = exec h w.
Proof. unfold throws, dispatch, exec. by destruct (h w) as [[[]|e] w']. Qed.

(** X7: the toggle button switches the feed.  On a page with a display
    element and no timer pending, a click at time [t] flips the mode and
    tears the stream down at once; 100 ms later, and not before, the feed of
    the new mode is started on a fresh canvas: the polling feed creates a
    loader and sends its first request, the socket feed opens a socket and
    makes it the current one. *)
Theorem toggle_switches_feed (w : World) (bw bh t : Z) :
  displayBox w = Some (bw, bh) ->
  timers w = [] ->
  mjpgRefreshInterval (app w) = None ->
  canvasRenderTimeout (app w) = None ->
  now w <= t ->
  let w1 := deliver (t, ClickToggle) w in
  let w2 := advance (t + 100) w1 in
  (useMjpgStream (app w1) = negb (useMjpgStream (app w)) /\
   streamInitialized (app w1) = false /\
   forall t', t <= t' < t + 100 ->
     streamInitialized (app (advance t' w1)) = false /\
     requests (advance t' w1) = requests w /\
     length (sockets (advance t' w1)) = length (sockets w)) /\
  (useMjpgStream (app w2) = negb (useMjpgStream (app w)) /\
   streamInitialized (app w2) = true /\
   currentStream (app w2) = Some (mkCanvas (nextCanvas w) bw bh) /\
   uncaught w2 = uncaught w /\
   if useMjpgStream (app w2)
   then loaders w2 =
          loaders w ++ [mkLoader true (Some (Url "/video_feed" (t + 100)))] /\
        requests w2 =
          requests w ++
          [mkRequest (t + 100) (length (loaders w)) (Url "/video_feed" (t + 100))] /\
        length (sockets w2) = length (sockets w)
   else length (sockets w2) = S (length (sockets w)) /\
        sockets w2 !! length (sockets w) = Some (mkSocket false false 0 JNull) /\
        live2dSocket (app w2) = Some (length (sockets w)) /\
        requests w2 = requests w).
Proof.
  intros Hbox Ht Hri Hct Hnow w1 w2.
  destruct (toggle_switches_feed_pre w bw bh t Hbox Ht Hri Hct Hnow)
    as (Ht1 & Hn1 & Hb1 & Hm1 & Hi1 & Hl1 & Hri1 & Hnt1 & Hlo1 & Hso1 & Hrq1 & Hnc1 & Hu1 & Hurl1).
  fold w1 in Ht1, Hn1, Hb1, Hm1, Hi1, Hl1, Hri1, Hnt1, Hlo1, Hso1, Hrq1, Hnc1, Hu1, Hurl1.
  set (fade := mkTimer (nextTimer w) (t + 3000) (TNotifyFade (length (notifications w))))
    in *.
  set (init := mkTimer (S (nextTimer w)) (t + 100) TInitStream) in *.
  assert (earliest (timers w1) = Some init) as He.
  { rewrite Ht1. apply earliest_two. simpl. lia. }
  split.
  { split; [done|]. split; [done|]. intros t' Ht'.
    assert (advance t' w1 = with_now (Z.max (now w1) t') w1) as ->.
    { unfold advance. by rewrite (fire_due_stop _ t' w1 init He) by (simpl; lia). }
    simpl. by rewrite Hi1, Hrq1, Hso1. }
  set (w0 := with_now (t + 100) (with_timers [fade] w1)).
  assert (advance (t + 100) w1 =
          with_now (t + 100) (exec initializeLive2DStream w0) /\
          throws initializeLive2DStream w0 = false) as [Ea Hthrow].
  { assert (throws initializeLive2DStream w0 = false) as Hth.
    { destruct (initializeLive2DStream_started w0 (bw, bh)) as [H _]; [|done].
      subst w0. simpl. exact Hb1. }
    split; [|done].
    unfold advance. rewrite Ht1. simpl budget.
    rewrite (fire_due_step _ _ w1 init He) by (simpl; lia).
    rewrite Ht1, (filter_keep_first fade init) by (simpl; lia).
    rewrite Hn1. simpl due. replace (Z.max t (t + 100)) with (t + 100) by lia.
    simpl task. simpl run_task. fold w0. rewrite (dispatch_normal _ _ Hth).
    destruct (useMjpgStream (app w0)) eqn:Hm0.
    - destruct (initializeLive2DStream_pull w0 bw bh) as (_ & _ & _ & _ & _ & _ & _ & _ & _ & _ & Htm & Hnw);
        [exact Hb1|exact Hi1|exact Hm0|exact Hl1|].
      rewrite (fire_due_stop _ _ _ fade); [by rewrite Hnw; simpl; rewrite Z.max_id| |simpl; lia].
      by rewrite Htm.
    - destruct (initializeLive2DStream_push w0 bw bh) as (_ & _ & _ & Htm & _ & _ & _ & _ & _ & _ & Hnw);
        [exact Hb1|exact Hi1|exact Hm0|exact Hri1|].
      rewrite (fire_due_stop _ _ _
                 (mkTimer (nextTimer w0) (now w0 + 1000) TStartBackground));
        [by rewrite Hnw; simpl; rewrite Z.max_id| |simpl; lia].
      rewrite Htm. change (timers w0) with [fade].
      apply (earliest_two fade). simpl. lia. }
  subst w2. rewrite Ea. simpl.
  assert (uncaught (exec initializeLive2DStream w0) = uncaught w) as Hu.
  { rewrite <- Hu1. change (uncaught w1) with (uncaught w0).
    apply (keeps_apply (fun w' => uncaught w' = uncaught w0)); [|done].
    keeps_walk fail ltac:(eassumption). }
  destruct (useMjpgStream (app w0)) eqn:Hm0.
  - destruct (initializeLive2DStream_pull w0 bw bh)
      as (_ & Hlo & Hrq & Hcs & _ & Hsi & _ & Hmo & Hso & _ & _ & _);
      [exact Hb1|exact Hi1|exact Hm0|exact Hl1|].
    rewrite Hmo, Hsi, Hcs, Hlo, Hrq, Hso.
    change (useMjpgStream (app w0)) with (useMjpgStream (app w1)) in Hm0.
    change (mjpgUrl (app w0)) with (mjpgUrl (app w1)).
    change (now w0) with (t + 100).
    change (loaders w0) with (loaders w1). change (requests w0) with (requests w1).
    change (sockets w0) with (sockets w1). change (nextCanvas w0) with (nextCanvas w1).
    rewrite (Hurl1 Hm0), Hlo1, Hrq1, Hnc1, Hso1, <- Hm1, Hm0. done.
  - destruct (initializeLive2DStream_push w0 bw bh)
      as (_ & Hso & Hls & _ & Hcs & _ & Hsi & Hmo & _ & Hrq & _);
      [exact Hb1|exact Hi1|exact Hm0|exact Hri1|].
    rewrite Hmo, Hsi, Hcs, Hso, Hls, Hrq.
    change (useMjpgStream (app w0)) with (useMjpgStream (app w1)) in Hm0.
    change (requests w0) with (requests w1).
    change (sockets w0) with (sockets w1). change (nextCanvas w0) with (nextCanvas w1).
    rewrite Hrq1, Hnc1, Hso1, <- Hm1, Hm0, length_app. simpl.
    repeat split; try done; [lia|].
    by rewrite <- Hso1, lookup_app_r, Nat.sub_diag.
Qed.

(** The start page, once the timer of the main tab has fired, toggled at
    1700. *)
Lemma toggle_switches_feed_witness :
  let w := advance 1600 pull_world in
  let w2 := advance 1800 (deliver (1700, ClickToggle) w) in
  useMjpgStream (app w2) = false /\
  streamInitialized (app w2) = true /\
  live2dSocket (app w2) = Some 0%nat /\
  sockets w2 !! 0%nat = Some (mkSocket false false 0 JNull).
Proof.
  intros w w2.
  destruct (toggle_switches_feed w 800 600 1700)
    as (_ & Hm & Hi & _ & _ & Hfeed);
    [reflexivity | reflexivity | reflexivity | reflexivity | vm_compute; discriminate |].
  change (useMjpgStream (app (advance (1700 + 100) (deliver (1700, ClickToggle) w))))
    with (useMjpgStream (app w2)) in *.
  assert (useMjpgStream (app w2) = false) as E by exact Hm.
  rewrite E in Hfeed. destruct Hfeed as (_ & Hs & Hl & _).
  split; [exact E|]. split; [exact Hi|]. split; [exact Hl|exact Hs].
Defined.

(** * Properties of the rest of the page *)

(** ** Camera controls *)

(** An invariant of the timer callbacks and of some of the events is an
    invariant of the traces made of these events. *)
Section LoopOn.
Variable P : World -> Prop.
Variable ok : Event -> Prop.
Hypothesis P_task : forall t, keeps P (run_task t).
Hypothesis P_handle : forall e, ok e -> keeps P (handle e).
Hypothesis P_timers : forall w v, P w -> P (with_timers v w).
Hypothesis P_now : forall w t, P w -> P (with_now (Z.max (now w) t) w).
Hypothesis P_uncaught : forall w v, P w -> P (with_uncaught v w).

Lemma keeps_fire_due_on (fuel : nat) (t : Z) (w : World) :
  P w -> P (fire_due fuel t w).
Proof using P_task P_timers P_now P_uncaught.
  revert w. induction fuel as [|fuel IH]; intros w Hw; simpl; [done|].
  destruct (earliest (timers w)) as [tm|]; [|done].
  destruct (due tm <=? t); [|done].
  apply IH, keeps_dispatch; [done|apply P_task|].
  apply (P_now (with_timers _ w)), P_timers, Hw.
Qed.

Lemma keeps_run_on (trace : list (Z * Event)) (w : World) :
  Forall (fun te => ok (snd te)) trace -> P w -> P (run trace w).
Proof using P_task P_handle P_timers P_now P_uncaught.
  revert w. induction trace as [|te trace IH]; intros w Hok Hw; simpl; [done|].
  apply Forall_cons in Hok as [Hte Hok].
  apply IH; [done|]. unfold deliver.
  apply keeps_dispatch; [done|by apply P_handle|].
  unfold advance. by apply P_now, keeps_fire_due_on.
Qed.
End LoopOn.

Lemma pull_only_initializeLive2DStream : keeps pull_only initializeLive2DStream.
Proof.
  intros w [H1 H2].
  destruct w as [a ? ? ? ? ? ? ? db st]; destruct a as [? ? ? ini ? ? ? ? ld].
  simpl in *. subst.
  unfold pull_only, initializeLive2DStream, setupCanvas, initializeMjpgStream,
    loadNextFrame, updateLive2DStatus.
  destruct db as [[]|], ini, ld, st; by js_red.
Qed.

Ltac pull_only_walk :=
  keeps_walk
    ltac:(idtac; lazymatch goal with
                 | |- keeps _ initializeLive2DStream =>
                     apply pull_only_initializeLive2DStream
                 | |- _ => progress autounfold with js_gate
                 end)
    ltac:(first [eassumption | by unfold pull_only in *; destruct_and?; split]).

Lemma pull_only_task (t : Task) : keeps pull_only (run_task t).
Proof. destruct t; cbn [run_task]; try unfold tabInit; pull_only_walk. Qed.

Lemma pull_only_handle (e : Event) : e <> ClickToggle -> keeps pull_only (handle e).
Proof. intros He. destruct e; [done|..]; cbn [handle]; pull_only_walk. Qed.

Lemma pull_only_boot (t0 : Z) (box : option (Z * Z)) (status : option StatusView) :
  pull_only (boot t0 box status).
Proof.
  unfold boot. apply keeps_dispatch; [done| |done].
  apply keeps_bind; [|intros _]; pull_only_walk.
Qed.

(** X8: the scan button needs the socket feed.  [scanCameras] never
    throws; with a socket of the avatar namespace it sends [scan_cameras]
    on it and shows a notification; as long as the feed was never toggled,
    the page has no such socket and the button does nothing at all. *)
Theorem scanCameras_needs_socket :
  (forall w, throws scanCameras w = false) /\
  (forall w k, live2dSocket (app w) = Some k ->
     emitted (exec scanCameras w) = emitted w ++ [(k, "scan_cameras")] /\
     notifications (exec scanCameras w) =
       notifications w ++ [("Scanning for cameras...", "info")]) /\
  (forall (t0 : Z) (box : option (Z * Z)) (status : option StatusView)
          (trace : list (Z * Event)),
     Forall (fun te => snd te <> ClickToggle) trace ->
     scanCameras (run trace (boot t0 box status)) =
       (Normal tt, run trace (boot t0 box status))).
Proof.
  split; [|split].
  - intros w. unfold scanCameras, showNotification. js_red.
    destruct (live2dSocket (app w)) eqn:E; js_red; [|done]. by rewrite E.
  - intros w k E. unfold scanCameras, showNotification. js_red.
    rewrite E. js_red. by rewrite E.
  - intros t0 box status trace Hok.
    assert (pull_only (run trace (boot t0 box status))) as [_ H].
    { apply (keeps_run_on pull_only (fun e => e <> ClickToggle));
        auto using pull_only_task, pull_only_handle, pull_only_boot. }
    unfold scanCameras. js_red. by rewrite H.
Qed.

(** The start page after its first polled frame; and the same page after a
    switch to the socket feed. *)
Lemma scanCameras_needs_socket_witness :
  scanCameras (run [(1040, PullLoaded 0 640 480)] pull_world) =
    (Normal tt, run [(1040, PullLoaded 0 640 480)] pull_world) /\
  emitted (exec scanCameras push_world) = emitted push_world ++ [(0%nat, "scan_cameras")].
Proof.
  split.
  - apply (proj2 (proj2 scanCameras_needs_socket) 1000 (Some (800, 600))
             (Some (mkStatusView "" "")) [(1040, PullLoaded 0 640 480)]).
    repeat constructor; discriminate.
  - apply (proj1 (proj2 scanCameras_needs_socket) push_world 0%nat). reflexivity.
Defined.

(** ** Restart *)

Lemma earliest_one (tm : Timer) : earliest [tm] = Some tm.
Proof. done. Qed.

Lemma filter_own_timer (tm : Timer) : filter (fun x => tid x ≠ tid tm) [tm] = [].
Proof. rewrite filter_cons, filter_nil. by rewrite decide_False by (intros H; by apply H). Qed.

Lemma fire_due_none (fuel : nat) (t : Z) (w : World) :
  earliest (timers w) = None -> fire_due fuel t w = w.
Proof. intros E. destruct fuel; simpl; [done|]. by rewrite E. Qed.

Lemma restart_pre (w : World) (bw bh t : Z) :
  displayBox w = Some (bw, bh) ->
  timers w = [] ->
  mjpgRefreshInterval (app w) = None ->
  canvasRenderTimeout (app w) = None ->
  now w <= t ->
  let w1 := deliver (t, ClickRestart) w in
  timers w1 = [mkTimer (nextTimer w) (t + 100) TRestartStream] /\
  now w1 = t /\
  displayBox w1 = Some (bw, bh) /\
  useMjpgStream (app w1) = useMjpgStream (app w) /\
  mjpgUrl (app w1) = mjpgUrl (app w) /\
  streamInitialized (app w1) = false /\
  currentStream (app w1) = None /\
  isLoading (app w1) = false /\
  mjpgRefreshInterval (app w1) = None /\
  nextTimer w1 = S (nextTimer w) /\
  loaders w1 = loaders w /\
  length (sockets w1) = length (sockets w) /\
  requests w1 = requests w /\
  nextCanvas w1 = nextCanvas w /\
  notifications w1 = notifications w /\
  uncaught w1 = uncaught w.
Proof.
  intros Hbox Ht Hri Hct Hnow w1. subst w1.
  unfold deliver. rewrite advance_idle by done. simpl fst; simpl snd.
  replace (Z.max (now w) t) with t by lia.
  unfold dispatch, handle, startLive2DStream.
  destruct w as [a]; destruct a. simpl in *. subst.
  js_red.
  (match goal with |- context [cleanupStream ?w0] =>
     rewrite (cleanupStream_exec w0) end);
  js_red; repeat split; try done;
  repeat case_match; simpl; by rewrite ?length_alter.
Qed.

Lemma showNotification_exec (message type : string) (w : World) :
  showNotification message type w =
    (Normal tt,
     with_nextTimer (S (nextTimer w))
       (with_timers (timers w ++
                     [mkTimer (nextTimer w) (now w + 3000)
                        (TNotifyFade (length (notifications w)))])
          (with_notifications (notifications w ++ [(message, type)]) w))).
Proof. unfold showNotification. by js_red. Qed.

(** On a page with a display element and no timer pending, a click at
    time [t] tears the stream down at once and keeps the mode; 100 ms later
    the feed of that mode is started on a fresh canvas and the user is told
    so. *)
Lemma restart_clean (w : World) (bw bh t : Z) :
  displayBox w = Some (bw, bh) ->
  timers w = [] ->
  mjpgRefreshInterval (app w) = None ->
  canvasRenderTimeout (app w) = None ->
  now w <= t ->
  let w1 := deliver (t, ClickRestart) w in
  let w2 := advance (t + 100) w1 in
  (useMjpgStream (app w1) = useMjpgStream (app w) /\
   streamInitialized (app w1) = false /\
   currentStream (app w1) = None /\
   requests w1 = requests w /\
   notifications w1 = notifications w) /\
  (useMjpgStream (app w2) = useMjpgStream (app w) /\
   streamInitialized (app w2) = true /\
   currentStream (app w2) = Some (mkCanvas (nextCanvas w) bw bh) /\
   notifications w2 = notifications w ++ [("Restarting stream...", "info")] /\
   uncaught w2 = uncaught w /\
   if useMjpgStream (app w)
   then loaders w2 =
          loaders w ++ [mkLoader true (Some (Url (mjpgUrl (app w)) (t + 100)))] /\
        requests w2 =
          requests w ++
          [mkRequest (t + 100) (length (loaders w)) (Url (mjpgUrl (app w)) (t + 100))] /\
        length (sockets w2) = length (sockets w)
   else length (sockets w2) = S (length (sockets w)) /\
        sockets w2 !! length (sockets w) = Some (mkSocket false false 0 JNull) /\
        live2dSocket (app w2) = Some (length (sockets w)) /\
        requests w2 = requests w).
Proof.
  intros Hbox Ht Hri Hct Hnow w1 w2.
  destruct (restart_pre w bw bh t Hbox Ht Hri Hct Hnow)
    as (Ht1 & Hn1 & Hb1 & Hm1 & Hurl1 & Hi1 & Hcs1 & Hl1 & Hri1 & Hnt1 & Hlo1 & Hso1 &
        Hrq1 & Hnc1 & Hno1 & Hu1).
  fold w1 in Ht1, Hn1, Hb1, Hm1, Hurl1, Hi1, Hcs1, Hl1, Hri1, Hnt1, Hlo1, Hso1, Hrq1,
    Hnc1, Hno1, Hu1.
  split; [done|].
  set (again := mkTimer (nextTimer w) (t + 100) TRestartStream) in *.
  set (w0 := with_now (t + 100) (with_timers [] w1)).
  set (w3 := exec initializeLive2DStream w0).
  assert (throws initializeLive2DStream w0 = false) as Hth.
  { destruct (initializeLive2DStream_started w0 (bw, bh)) as [H _]; [|done].
    subst w0. simpl. exact Hb1. }
  assert (dispatch (run_task TRestartStream) w0 =
          exec (showNotification "Restarting stream..." "info") w3) as Ed.
  { unfold dispatch, exec. simpl run_task. unfold throws in Hth. subst w3. unfold exec.
    destruct (initializeLive2DStream w0) as [[[]|e] w'] eqn:E; [|done].
    rewrite (bind_normal _ _ _ _ _ E). by rewrite showNotification_exec. }
  assert (now w3 = t + 100 /\
          forall tm, tm ∈ timers w3 -> t + 100 < due tm) as [Hnow3 Htm3].
  { subst w3. destruct (useMjpgStream (app w0)) eqn:Hm0.
    - destruct (initializeLive2DStream_pull w0 bw bh)
        as (_ & _ & _ & _ & _ & _ & _ & _ & _ & _ & Htm & Hnw);
        [exact Hb1|exact Hi1|exact Hm0|exact Hl1|].
      rewrite Hnw, Htm. split; [done|]. intros tm H. by apply elem_of_nil in H.
    - destruct (initializeLive2DStream_push w0 bw bh)
        as (_ & _ & _ & Htm & _ & _ & _ & _ & _ & _ & Hnw);
        [exact Hb1|exact Hi1|exact Hm0|exact Hri1|].
      rewrite Hnw, Htm. split; [done|]. intros tm H.
      change (timers w0) with (@nil Timer) in H. simpl in H.
      apply list_elem_of_singleton in H. subst tm. simpl. lia. }
  assert (advance (t + 100) w1 =
          exec (showNotification "Restarting stream..." "info") w3) as Ea.
  { unfold advance. rewrite Ht1. simpl budget.
    rewrite (fire_due_step _ _ w1 again) by (rewrite ?Ht1; simpl; done || lia).
    rewrite Ht1, (filter_own_timer again).
    rewrite Hn1. simpl due. replace (Z.max t (t + 100)) with (t + 100) by lia.
    simpl task. fold w0. rewrite Ed.
    unfold exec. rewrite showNotification_exec. simpl snd.
    set (w4 := with_nextTimer _ _).
    assert (forall tm, tm ∈ timers w4 -> t + 100 < due tm) as Htm4.
    { intros tm H. subst w4. simpl in H. apply elem_of_app in H as [H|H]; [by apply Htm3|].
      apply list_elem_of_singleton in H. subst tm. simpl. lia. }
    assert (fire_due 3 (t + 100) w4 = w4) as ->.
    { destruct (earliest (timers w4)) as [tm|] eqn:E.
      - apply (fire_due_stop _ _ _ tm E). apply Htm4.
        by apply earliest_Some in E as [? _].
      - by apply fire_due_none. }
    subst w4. cbv [with_now with_nextTimer with_timers with_notifications]. simpl.
    by rewrite Hnow3, Z.max_id. }
  subst w2. rewrite Ea. unfold exec. rewrite showNotification_exec. simpl.
  assert (uncaught w3 = uncaught w) as Hu.
  { rewrite <- Hu1. change (uncaught w1) with (uncaught w0).
    apply (keeps_apply (fun w' => uncaught w' = uncaught w0)); [|done].
    keeps_walk fail ltac:(eassumption). }
  assert (notifications w3 = notifications w) as Hno.
  { rewrite <- Hno1. change (notifications w1) with (notifications w0).
    apply (keeps_apply (fun w' => notifications w' = notifications w0)); [|done].
    keeps_walk fail ltac:(eassumption). }
  rewrite Hu, Hno. subst w3.
  destruct (useMjpgStream (app w0)) eqn:Hm0.
  - destruct (initializeLive2DStream_pull w0 bw bh)
      as (_ & Hlo & Hrq & Hcs & _ & Hsi & _ & Hmo & Hso & _ & _ & _);
      [exact Hb1|exact Hi1|exact Hm0|exact Hl1|].
    rewrite Hmo, Hsi, Hcs, Hlo, Hrq, Hso.
    change (useMjpgStream (app w0)) with (useMjpgStream (app w1)) in Hm0.
    change (mjpgUrl (app w0)) with (mjpgUrl (app w1)).
    change (now w0) with (t + 100).
    change (loaders w0) with (loaders w1). change (requests w0) with (requests w1).
    change (sockets w0) with (sockets w1). change (nextCanvas w0) with (nextCanvas w1).
    rewrite Hurl1, Hlo1, Hrq1, Hnc1, Hso1, <- Hm1, Hm0. done.
  - destruct (initializeLive2DStream_push w0 bw bh)
      as (_ & Hso & Hls & _ & Hcs & _ & Hsi & Hmo & _ & Hrq & _);
      [exact Hb1|exact Hi1|exact Hm0|exact Hri1|].
    rewrite Hmo, Hsi, Hcs, Hso, Hls, Hrq.
    change (useMjpgStream (app w0)) with (useMjpgStream (app w1)) in Hm0.
    change (requests w0) with (requests w1).
    change (sockets w0) with (sockets w1). change (nextCanvas w0) with (nextCanvas w1).
    rewrite Hrq1, Hnc1, Hso1, <- Hm1, Hm0, length_app. simpl.
    repeat split; try done; [lia|].
    by rewrite <- Hso1, lookup_app_r, Nat.sub_diag.
Qed.

(** The click itself, in any state. *)
Lemma restart_click (w : World) :
  mjpgRefreshInterval (app w) = None ->
  canvasRenderTimeout (app w) = None ->
  let w1 := dispatch (handle ClickRestart) w in
  timers w1 = timers w ++ [mkTimer (nextTimer w) (now w + 100) TRestartStream] /\
  useMjpgStream (app w1) = useMjpgStream (app w) /\
  streamInitialized (app w1) = false /\
  currentStream (app w1) = None /\
  requests w1 = requests w /\
  notifications w1 = notifications w /\
  uncaught w1 = uncaught w.
Proof.
  intros Hri Hct w1. subst w1.
  unfold dispatch, handle, startLive2DStream.
  destruct w as [a]; destruct a. simpl in *. subst.
  js_red.
  (match goal with |- context [cleanupStream ?w0] =>
     rewrite (cleanupStream_exec w0) end).
  js_red. repeat split; repeat case_match; done.
Qed.

(** X9: the start-stream button restarts the feed of the current mode,
    unless an older timer is faster.  In any state (the two timer handles
    unset, as they always are) a click tears the stream down at once,
    keeps the mode and arms one timer, due 100 ms later; it cancels no
    timer.  On a page with a display element and no timer pending at the
    click at time [t], that timer starts the feed of the mode on a fresh
    canvas at [t + 100] and tells the user so: the polling feed sends a
    first request with a new loader, the socket feed opens a new socket.
    With a timer pending the feed may be back earlier: on the start page a
    click at 1450 is followed by the timer of the main tab at 1500, which
    finds the stream stopped and starts it; the restart timer at 1550 then
    only shows the notification, and no request is sent at 1550. *)
Theorem restart_restarts_feed :
  (forall w : World,
     mjpgRefreshInterval (app w) = None ->
     canvasRenderTimeout (app w) = None ->
     let w1 := dispatch (handle ClickRestart) w in
     timers w1 = timers w ++ [mkTimer (nextTimer w) (now w + 100) TRestartStream] /\
     useMjpgStream (app w1) = useMjpgStream (app w) /\
     streamInitialized (app w1) = false /\
     currentStream (app w1) = None /\
     requests w1 = requests w /\
     notifications w1 = notifications w /\
     uncaught w1 = uncaught w) /\
  (forall (w : World) (bw bh t : Z),
     displayBox w = Some (bw, bh) ->
     timers w = [] ->
     mjpgRefreshInterval (app w) = None ->
     canvasRenderTimeout (app w) = None ->
     now w <= t ->
     let w1 := deliver (t, ClickRestart) w in
     let w2 := advance (t + 100) w1 in
     useMjpgStream (app w2) = useMjpgStream (app w) /\
     streamInitialized (app w2) = true /\
     currentStream (app w2) = Some (mkCanvas (nextCanvas w) bw bh) /\
     notifications w2 = notifications w ++ [("Restarting stream...", "info")] /\
     uncaught w2 = uncaught w /\
     if useMjpgStream (app w)
     then loaders w2 =
            loaders w ++ [mkLoader true (Some (Url (mjpgUrl (app w)) (t + 100)))] /\
          requests w2 =
            requests w ++
            [mkRequest (t + 100) (length (loaders w)) (Url (mjpgUrl (app w)) (t + 100))] /\
          length (sockets w2) = length (sockets w)
     else length (sockets w2) = S (length (sockets w)) /\
          sockets w2 !! length (sockets w) = Some (mkSocket false false 0 JNull) /\
          live2dSocket (app w2) = Some (length (sockets w)) /\
          requests w2 = requests w) /\
  (let w1 := deliver (1450, ClickRestart) pull_world in
   task <$> timers pull_world = [TTabInit] /\
   due <$> timers pull_world = [1500] /\
   streamInitialized (app (advance 1499 w1)) = false /\
   streamInitialized (app (advance 1500 w1)) = true /\
   request_times (advance 1500 w1) = [1000; 1500] /\
   notifications (advance 1500 w1) = [] /\
   request_times (advance 1550 w1) = [1000; 1500] /\
   notifications (advance 1550 w1) = [("Restarting stream...", "info")] /\
   uncaught (advance 1550 w1) = []).
Proof.
  split; [apply restart_click|]. split.
  - intros w bw bh t Hbox Ht Hri Hct Hnow w1 w2.
    by destruct (restart_clean w bw bh t Hbox Ht Hri Hct Hnow) as [_ H].
  - by vm_compute.
Qed.

(** The start page, once the timer of the main tab has fired, restarted at
    1700. *)
Lemma restart_restarts_feed_witness :
  let w := advance 1600 pull_world in
  let w2 := advance 1800 (deliver (1700, ClickRestart) w) in
  timers (dispatch (handle ClickRestart) w) = [mkTimer 2 1700 TRestartStream] /\
  streamInitialized (app w2) = true /\
  notifications w2 = [("Restarting stream...", "info")] /\
  request_times w2 = [1000; 1800].
Proof.
  intros w w2. destruct restart_restarts_feed as (H1 & H2 & _).
  split.
  { destruct (H1 w) as [H _]; [reflexivity|reflexivity|exact H]. }
  destruct (H2 w 800 600 1700)
    as (_ & Hi & _ & Hno & _ & Hfeed);
    [reflexivity | reflexivity | reflexivity | reflexivity | vm_compute; discriminate |].
  change (advance (1700 + 100) (deliver (1700, ClickRestart) w)) with w2 in *.
  change (useMjpgStream (app w)) with true in Hfeed. cbv iota in Hfeed.
  destruct Hfeed as (_ & Hrq & _).
  split; [exact Hi|]. split; [exact Hno|].
  unfold request_times. rewrite Hrq. reflexivity.
Defined.

(** ** Tabs and swipe gestures *)

(** Unfold the monad of the shell. *)
Ltac sh_unf :=
  cbv beta iota delta
    [mbind mret Sh_bind Sh_ret sh_get sh_modify sh_throw sh_exec sh_throws lift async
     sh_setTimeout socket_emit fetch].
Ltac sh_red := sh_unf; simpl.

(** Reduce the projections of a shell that was assigned to. *)
Ltac sh_proj :=
  cbn [world put_world currentTheme put_currentTheme currentMode put_currentMode
       currentTab put_currentTab isMobile put_isMobile isOverlayExpanded
       put_isOverlayExpanded startX put_startX currentX put_currentX startY put_startY
       currentY put_currentY isSwiping put_isSwiping tabContents put_tabContents
       tabButtons put_tabButtons themeCards put_themeCards dataTheme put_dataTheme
       dataMode put_dataMode chatOverlay put_chatOverlay expandToggle put_expandToggle
       messageInput put_messageInput sendButton put_sendButton chatMessages
       put_chatMessages typingIndicator put_typingIndicator hasBackground
       put_hasBackground localStorage put_localStorage sent put_sent fetches put_fetches
       pending put_pending rejected put_rejected vtsStatus put_vtsStatus cameraStatus
       put_cameraStatus cards put_cards].

(** Comparisons of texts are computed when both texts are known. *)
#[local] Arguments String.eqb !_ !_.

Lemma has_deactivate (name : string) (l : list (string * bool)) :
  has name (deactivate l) = has name l.
Proof. induction l as [|x l IH]; [done|]. simpl. by rewrite IH. Qed.

Lemma active_deactivate (l : list (string * bool)) : active (deactivate l) = [].
Proof.
  unfold active. induction l as [|x l IH]; [done|]. simpl.
  rewrite filter_cons. by rewrite decide_False by done.
Qed.

Lemma active_activate_first (name : string) (l : list (string * bool)) :
  has name l = true -> active (activate_first name (deactivate l)) = [name].
Proof.
  unfold active. induction l as [|x l IH]; [done|]. simpl. intros H.
  destruct (String.eqb (fst x) name) eqn:E.
  - apply String.eqb_eq in E. rewrite filter_cons. rewrite decide_True by done.
    simpl. f_equal; [done|]. apply active_deactivate.
  - simpl in H. rewrite filter_cons. rewrite decide_False by done. by apply IH.
Qed.

Lemma names_activate_first (name : string) (l : list (string * bool)) :
  fst <$> activate_first name l = fst <$> l.
Proof.
  induction l as [|x l IH]; [done|]. cbn [activate_first].
  destruct (String.eqb (fst x) name); csimpl; [done|]. by rewrite IH.
Qed.

Lemma names_deactivate (l : list (string * bool)) : fst <$> deactivate l = fst <$> l.
Proof. induction l as [|x l IH]; [done|]. csimpl. by rewrite IH. Qed.

Lemma has_names (name : string) (l1 l2 : list (string * bool)) :
  fst <$> l1 = fst <$> l2 -> has name l1 = has name l2.
Proof.
  revert l2. induction l1 as [|x l1 IH]; intros [|y l2] H; try done.
  csimpl in H. injection H as Hx Hl. simpl. rewrite Hx. by rewrite (IH l2).
Qed.

(** What [onTabSwitch] leaves alone. *)
Lemma onTabSwitch_frame (tabName : string) (s : Shell) :
  fst (onTabSwitch tabName s) = Normal tt /\
  tabContents (snd (onTabSwitch tabName s)) = tabContents s /\
  tabButtons (snd (onTabSwitch tabName s)) = tabButtons s /\
  currentTab (snd (onTabSwitch tabName s)) = currentTab s.
Proof.
  unfold onTabSwitch, focusMessageInput, loadAnalyticsData, loadThemeGallery,
    onTabSwitch_main.
  repeat case_match; sh_red; repeat case_match; simplify_eq/=; done.
Qed.

Lemma switchTab_present (tabName : string) (s : Shell) :
  has_tab tabName s = true ->
  switchTab tabName s =
    onTabSwitch tabName
      (put_currentTab tabName
         (put_tabButtons (activate_first tabName (deactivate (tabButtons s)))
            (put_tabContents
               (activate_first (String.append tabName "-tab") (deactivate (tabContents s)))
               s))).
Proof.
  unfold has_tab. intros H. unfold switchTab. sh_red.
  rewrite !has_deactivate, H. done.
Qed.

Lemma switchTab_absent (tabName : string) (s : Shell) :
  has_tab tabName s = false ->
  switchTab tabName s =
    (Normal tt,
     put_tabButtons (deactivate (tabButtons s))
       (put_tabContents (deactivate (tabContents s)) s)).
Proof.
  unfold has_tab. intros H. unfold switchTab. sh_red.
  rewrite !has_deactivate, H. done.
Qed.

(** What the swipes need of a switch to a tab of the page. *)
Lemma switchTab_present_current (tabName : string) (s : Shell) :
  has_tab tabName s = true ->
  sh_throws (switchTab tabName) s = false /\
  currentTab (sh_exec (switchTab tabName) s) = tabName.
Proof.
  intros H. unfold sh_exec, sh_throws.
  rewrite (switchTab_present _ _ H).
  match goal with |- context [onTabSwitch _ ?s0] =>
    destruct (onTabSwitch_frame tabName s0) as (Hn & Hc & Hb & Ht) end.
  by rewrite Hn, Ht.
Qed.

(** X10: [switchTab] shows one tab.  When the page has the content and the
    button of the tab, the call cannot throw, it makes that tab the current
    one, and afterwards exactly that content and that button are active,
    whatever was active before; no element is added or removed. *)
Theorem switchTab_shows_one_tab (tabName : string) (s : Shell) :
  has_tab tabName s = true ->
  let s' := sh_exec (switchTab tabName) s in
  sh_throws (switchTab tabName) s = false /\
  currentTab s' = tabName /\
  active (tabContents s') = [String.append tabName "-tab"] /\
  active (tabButtons s') = [tabName] /\
  fst <$> tabContents s' = fst <$> tabContents s /\
  fst <$> tabButtons s' = fst <$> tabButtons s.
Proof.
  intros H s'. subst s'. unfold sh_exec, sh_throws.
  rewrite (switchTab_present _ _ H).
  match goal with |- context [onTabSwitch _ ?s0] =>
    destruct (onTabSwitch_frame tabName s0) as (Hn & Hc & Hb & Ht) end.
  rewrite Hn, Hc, Hb, Ht. simpl.
  apply andb_true_iff in H as [H1 H2].
  rewrite !active_activate_first by done.
  by rewrite !names_activate_first, !names_deactivate.
Qed.

Lemma switchTab_shows_one_tab_witness :
  currentTab (sh_exec (switchTab "appearance") tabs_page) = "appearance" /\
  active (tabContents (sh_exec (switchTab "appearance") tabs_page)) = ["appearance-tab"].
Proof.
  destruct (switchTab_shows_one_tab "appearance" tabs_page) as (_ & H1 & H2 & _);
    [reflexivity|].
  split; [exact H1|exact H2].
Defined.

(** X11: [switchTab] to a tab that the page lacks blanks the page.  When
    the content or the button of the tab is missing, every tab content and
    every tab button loses the class [active], nothing is shown instead,
    and the current tab stays the one that is no longer displayed; the
    stream is not touched. *)
Theorem switchTab_missing_tab (tabName : string) (s : Shell) :
  has_tab tabName s = false ->
  let s' := sh_exec (switchTab tabName) s in
  sh_throws (switchTab tabName) s = false /\
  active (tabContents s') = [] /\
  active (tabButtons s') = [] /\
  currentTab s' = currentTab s /\
  world s' = world s /\
  fetches s' = fetches s.
Proof.
  intros H s'. subst s'. unfold sh_exec, sh_throws.
  rewrite (switchTab_absent _ _ H). simpl.
  by rewrite !active_deactivate.
Qed.

Lemma switchTab_missing_tab_witness :
  active (tabContents (sh_exec (switchTab "settings") tabs_page)) = [] /\
  currentTab (sh_exec (switchTab "settings") tabs_page) = "analytics".
Proof.
  destruct (switchTab_missing_tab "settings" tabs_page) as (_ & H1 & _ & H2 & _);
    [reflexivity|].
  split; [exact H1|exact H2].
Defined.

Lemma has_tab_switchTab (t tabName : string) (s : Shell) :
  has_tab t (sh_exec (switchTab tabName) s) = has_tab t s.
Proof.
  unfold sh_exec. destruct (has_tab tabName s) eqn:H.
  - rewrite (switchTab_present _ _ H).
    match goal with |- context [onTabSwitch _ ?s0] =>
      destruct (onTabSwitch_frame tabName s0) as (Hn & Hc & Hb & Ht) end.
    unfold has_tab. rewrite Hc, Hb. simpl.
    f_equal; apply has_names;
      by rewrite names_activate_first, names_deactivate.
  - rewrite (switchTab_absent _ _ H). unfold has_tab. simpl.
    by rewrite !has_deactivate.
Qed.

Lemma indexOf_other (x : string) :
  x <> "main" -> x <> "analytics" -> x <> "appearance" ->
  indexOf ["main"; "analytics"; "appearance"] x = -1.
Proof.
  intros H1 H2 H3. cbn [indexOf].
  rewrite (proj2 (String.eqb_neq "main" x)) by congruence.
  rewrite (proj2 (String.eqb_neq "analytics" x)) by congruence.
  by rewrite (proj2 (String.eqb_neq "appearance" x)) by congruence.
Qed.

(** X12: a swipe moves to the neighbouring tab.  On a page that has the
    three tabs, [swipeLeft] goes from main to analytics and from analytics
    to appearance and does nothing on appearance; [swipeRight] goes the
    other way and does nothing on main.  When the current tab is none of
    the three, [swipeLeft] goes to main and [swipeRight] does nothing.
    Neither can throw, and the page still has the three tabs. *)
Theorem swipe_moves_to_neighbour (s : Shell) :
  has_tab "main" s = true ->
  has_tab "analytics" s = true ->
  has_tab "appearance" s = true ->
  let l := sh_exec swipeLeft s in
  let r := sh_exec swipeRight s in
  (sh_throws swipeLeft s = false /\ sh_throws swipeRight s = false) /\
  (currentTab s = "main" -> currentTab l = "analytics" /\ r = s) /\
  (currentTab s = "analytics" -> currentTab l = "appearance" /\ currentTab r = "main") /\
  (currentTab s = "appearance" -> l = s /\ currentTab r = "analytics") /\
  (currentTab s <> "main" -> currentTab s <> "analytics" ->
   currentTab s <> "appearance" -> currentTab l = "main" /\ r = s) /\
  (forall t, has_tab t l = has_tab t s /\ has_tab t r = has_tab t s).
Proof.
  intros Hm Ha Hp l r.
  pose proof (switchTab_present_current "main" s Hm) as (Tm & Cm).
  pose proof (switchTab_present_current "analytics" s Ha) as (Ta & Ca).
  pose proof (switchTab_present_current "appearance" s Hp) as (Tp & Cp).
  assert (swipeLeft s =
          let i := indexOf ["main"; "analytics"; "appearance"] (currentTab s) in
          if i <? 2 then switchTab (item ["main"; "analytics"; "appearance"] (i + 1)) s
          else (Normal tt, s)) as EL.
  { unfold swipeLeft. sh_unf. cbv zeta.
    change (Z.of_nat (length ["main"; "analytics"; "appearance"]) - 1) with 2.
    by case_match. }
  assert (swipeRight s =
          let i := indexOf ["main"; "analytics"; "appearance"] (currentTab s) in
          if i >? 0 then switchTab (item ["main"; "analytics"; "appearance"] (i - 1)) s
          else (Normal tt, s)) as ER.
  { unfold swipeRight. sh_unf. cbv zeta. by case_match. }
  subst l r. unfold sh_exec, sh_throws in *.
  assert (currentTab s = "main" \/ currentTab s = "analytics" \/
          currentTab s = "appearance" \/
          (currentTab s <> "main" /\ currentTab s <> "analytics" /\
           currentTab s <> "appearance")) as Hcase.
  { destruct (decide (currentTab s = "main")); [by left|].
    destruct (decide (currentTab s = "analytics")); [by right; left|].
    destruct (decide (currentTab s = "appearance")); [by right; right; left|].
    by right; right; right. }
  assert (forall t tabName, has_tab t (snd (switchTab tabName s)) = has_tab t s) as Hk.
  { intros t tabName. apply has_tab_switchTab. }
  rewrite EL, ER.
  destruct Hcase as [E|[E|[E|(E1 & E2 & E3)]]].
  - rewrite E. simpl. repeat split; try done; try by rewrite E in *.
    all: try (intros; congruence). all: apply Hk.
  - rewrite E. simpl. repeat split; try done; try by rewrite E in *.
    all: try (intros; congruence). all: apply Hk.
  - rewrite E. simpl. repeat split; try done; try by rewrite E in *.
    all: try (intros; congruence). all: apply Hk.
  - rewrite (indexOf_other _ E1 E2 E3). simpl.
    repeat split; try done; try (intros; congruence).
Qed.

Lemma swipe_moves_to_neighbour_witness :
  currentTab (sh_exec swipeLeft tabs_page) = "appearance" /\
  currentTab (sh_exec swipeRight tabs_page) = "main".
Proof.
  destruct (swipe_moves_to_neighbour tabs_page) as (_ & _ & H & _);
    [reflexivity|reflexivity|reflexivity|].
  apply H. reflexivity.
Defined.

Lemma onTabSwitch_currentX (tabName : string) (s : Shell) :
  currentX (snd (onTabSwitch tabName s)) = currentX s.
Proof.
  unfold onTabSwitch, focusMessageInput, loadAnalyticsData, loadThemeGallery,
    onTabSwitch_main.
  repeat case_match; sh_red; repeat case_match; simplify_eq/=; done.
Qed.

Lemma switchTab_currentX (tabName : string) (s : Shell) :
  currentX (snd (switchTab tabName s)) = currentX s.
Proof.
  destruct (has_tab tabName s) eqn:H.
  - rewrite (switchTab_present _ _ H). by rewrite onTabSwitch_currentX.
  - by rewrite (switchTab_absent _ _ H).
Qed.

Lemma swipe_currentX (s : Shell) :
  currentX (snd (swipeLeft s)) = currentX s /\
  currentX (snd (swipeRight s)) = currentX s.
Proof.
  unfold swipeLeft, swipeRight. sh_unf. cbv zeta.
  split; case_match; try done; apply switchTab_currentX.
Qed.

(** X13: a tap is judged against the last move.  [touchend] compares the
    start of the touch with the position of the last [touchmove] the page
    has ever seen, which no listener resets (0 on a fresh page).  So a
    touch that ends without moving swipes left when it started more than
    60 pixels to the right of that position, swipes right when it started
    more than 60 pixels to its left, and does nothing otherwise. *)
Theorem tap_judged_against_last_move (s : Shell) (x : Z) :
  let tap := doc_touchstart x;; doc_touchend in
  (x - currentX s > 60 -> tap s = swipeLeft (put_startX x s)) /\
  (currentX s - x > 60 -> tap s = swipeRight (put_startX x s)) /\
  (Z.abs (x - currentX s) <= 60 -> tap s = (Normal tt, put_startX x s)) /\
  currentX (sh_exec tap s) = currentX s.
Proof.
  intros tap. subst tap. unfold doc_touchstart, doc_touchend. sh_red.
  repeat split.
  - intros H. rewrite (proj2 (Z.gtb_gt _ _)) by lia.
    by rewrite (proj2 (Z.gtb_gt _ _)) by lia.
  - intros H. rewrite (proj2 (Z.gtb_gt _ _)) by lia.
    destruct (x - currentX s >? 0) eqn:E; [apply Z.gtb_gt in E; lia|done].
  - intros H. destruct (Z.abs (x - currentX s) >? 60) eqn:E; [apply Z.gtb_gt in E; lia|done].
  - destruct (Z.abs (x - currentX s) >? 60); [|done].
    destruct (x - currentX s >? 0); apply (swipe_currentX (put_startX x s)).
Qed.

(** A fresh page showing the main tab: the first tap, at 200 pixels from
    the left edge, shows the analytics tab. *)
Lemma tap_judged_against_last_move_witness :
  currentTab (sh_exec (doc_touchstart 200;; doc_touchend)
                (put_currentTab "main" tabs_page)) = "analytics".
Proof.
  unfold sh_exec.
  rewrite (proj1 (tap_judged_against_last_move (put_currentTab "main" tabs_page) 200))
    by (simpl; lia).
  reflexivity.
Defined.

(** ** Chat overlay *)

Lemma toggleOverlay_exec (s : Shell) (o : Overlay) (ic : string) :
  chatOverlay s = Some o ->
  expandToggle s = Some (Some ic) ->
  toggleOverlay s =
    (Normal tt,
     if isOverlayExpanded s
     then put_expandToggle (Some (Some "fas fa-chevron-up"))
            (put_chatOverlay (Some (set_expanded false o))
               (put_isOverlayExpanded false s))
     else put_pending (pending s ++ [(now (world s) + 300, TFocusInput)])
            (put_expandToggle (Some (Some "fas fa-chevron-down"))
               (put_chatOverlay (Some (set_expanded true o))
                  (put_isOverlayExpanded true s)))).
Proof.
  intros Ho Hi. unfold toggleOverlay. sh_red. rewrite Ho, Hi. sh_red.
  rewrite Ho. by destruct (isOverlayExpanded s).
Qed.

(** A toggle without its [<i>]: the flag and the class are changed before
    the icon is touched. *)
Lemma toggleOverlay_no_icon (s : Shell) (o : Overlay) :
  chatOverlay s = Some o ->
  expandToggle s = Some None ->
  toggleOverlay s =
    (Thrown "TypeError: Cannot set properties of null (setting 'className')",
     put_chatOverlay (Some (set_expanded (negb (isOverlayExpanded s)) o))
       (put_isOverlayExpanded (negb (isOverlayExpanded s)) s)).
Proof.
  intros Ho Hi. unfold toggleOverlay. sh_red. rewrite Ho, Hi. sh_red.
  by rewrite Ho.
Qed.

Lemma toggleOverlay_absent (s : Shell) :
  chatOverlay s = None \/ expandToggle s = None -> toggleOverlay s = (Normal tt, s).
Proof.
  intros [H|H]; unfold toggleOverlay; sh_red; rewrite H; [done|].
  by destruct (chatOverlay s).
Qed.

(** X14: the expand toggle flips the overlay and keeps the page in step.
    On a page with the overlay and a toggle that contains its [<i>] icon,
    [toggleOverlay] cannot throw; it negates [isOverlayExpanded], and
    afterwards the class [expanded] of the overlay and the chevron of the
    icon agree with the flag, whatever they were; expanding, and only
    expanding, arms the timer that focuses the input 300 ms later; a second
    call restores the flag.  When the toggle has no [<i>], the call throws
    a [TypeError] after it has negated the flag and set the class, and
    arms no timer.  On a page that lacks the overlay or the toggle nothing
    happens. *)
Theorem toggleOverlay_in_step (s : Shell) :
  (forall o ic,
     chatOverlay s = Some o -> expandToggle s = Some (Some ic) ->
     let s' := sh_exec toggleOverlay s in
     sh_throws toggleOverlay s = false /\
     isOverlayExpanded s' = negb (isOverlayExpanded s) /\
     chatOverlay s' = Some (mkOverlay (isOverlayExpanded s') (transform o)) /\
     expandToggle s' =
       Some (Some (if isOverlayExpanded s' then "fas fa-chevron-down"
                   else "fas fa-chevron-up")) /\
     pending s' =
       (if isOverlayExpanded s' then pending s ++ [(now (world s) + 300, TFocusInput)]
        else pending s) /\
     isOverlayExpanded (sh_exec toggleOverlay s') = isOverlayExpanded s) /\
  (forall o,
     chatOverlay s = Some o -> expandToggle s = Some None ->
     toggleOverlay s =
       (Thrown "TypeError: Cannot set properties of null (setting 'className')",
        put_chatOverlay
          (Some (mkOverlay (negb (isOverlayExpanded s)) (transform o)))
          (put_isOverlayExpanded (negb (isOverlayExpanded s)) s))) /\
  (chatOverlay s = None \/ expandToggle s = None -> toggleOverlay s = (Normal tt, s)).
Proof.
  split; [|split].
  - intros o ic Ho Hi s'. subst s'. unfold sh_exec, sh_throws.
    rewrite (toggleOverlay_exec s o ic Ho Hi).
    destruct (isOverlayExpanded s) eqn:E; simpl; repeat split; done.
  - intros o Ho Hi. by rewrite (toggleOverlay_no_icon s o Ho Hi).
  - apply toggleOverlay_absent.
Qed.

Lemma toggleOverlay_in_step_witness :
  isOverlayExpanded (sh_exec toggleOverlay tabs_page) = true /\
  pending (sh_exec toggleOverlay tabs_page) = [(1300, TFocusInput)] /\
  sh_throws toggleOverlay (put_expandToggle (Some None) tabs_page) = true /\
  toggleOverlay (put_chatOverlay None tabs_page) =
    (Normal tt, put_chatOverlay None tabs_page).
Proof.
  destruct (toggleOverlay_in_step tabs_page) as [H _].
  destruct (H (mkOverlay false None) "fas fa-chevron-up" eq_refl eq_refl)
    as (_ & H1 & _ & _ & H2 & _).
  split; [exact H1|]. split; [exact H2|]. split.
  { unfold sh_throws.
    rewrite (proj1 (proj2 (toggleOverlay_in_step (put_expandToggle (Some None) tabs_page)))
               (mkOverlay false None) eq_refl eq_refl).
    reflexivity. }
  apply (proj2 (proj2 (toggleOverlay_in_step (put_chatOverlay None tabs_page)))).
  left. reflexivity.
Defined.

Lemma gtb_true (a b : Z) : b < a -> (a >? b) = true.
Proof. intros H. by apply Z.gtb_lt. Qed.
Lemma gtb_false (a b : Z) : a <= b -> (a >? b) = false.
Proof. intros H. rewrite Z.gtb_ltb. by apply Z.ltb_ge. Qed.
Lemma ltb_true (a b : Z) : a < b -> (a <? b) = true.
Proof. intros H. by apply Z.ltb_lt. Qed.
Lemma ltb_false (a b : Z) : b <= a -> (a <? b) = false.
Proof. intros H. by apply Z.ltb_ge. Qed.

(** A move during a swipe records the position and at most changes the
    visual feedback. *)
Lemma header_touchmove_exec (s : Shell) (o : Overlay) (y : Z) :
  isSwiping s = true ->
  chatOverlay s = Some o ->
  exists tr,
    header_touchmove y s =
      (Normal tt, put_chatOverlay (Some (mkOverlay (expanded o) tr)) (put_currentY y s)).
Proof.
  intros Hs Ho. destruct s; destruct o as [e tr0]. simpl in Hs, Ho. subst.
  unfold header_touchmove, updateSwipeVisualFeedback. sh_red.
  destruct (Z.abs _ >? 10); sh_red; [|by eexists].
  repeat case_match; sh_red; by eexists.
Qed.

(** The end of a touch: whether the overlay is to be flipped, and what
    the listener does after the flip, if the flip lets it go on. *)
Lemma header_touchend_exec (s : Shell) (o : Overlay) :
  isSwiping s = true ->
  chatOverlay s = Some o ->
  let diff := startY s - currentY s in
  let flip :=
    if isOverlayExpanded s then diff <? -40 else diff >? 40 in
  let finish s1 :=
    put_currentY 0 (put_startY 0 (put_isSwiping false
      (put_chatOverlay (set_transform None <$> chatOverlay s1) s1))) in
  header_touchend s =
    if flip then
      match toggleOverlay s with
      | (Normal _, s1) => (Normal tt, finish s1)
      | (Thrown e, s1) => (Thrown e, s1)
      end
    else (Normal tt, finish s).
Proof.
  intros Hs Ho diff flip finish. subst diff flip finish.
  unfold header_touchend, clearSwipeVisualFeedback. sh_unf. rewrite Hs. cbv iota.
  set (sy := startY s). set (cy := currentY s).
  destruct (Z.lt_trichotomy (sy - cy) (-40)) as [H|[H|H]];
    [|
     |destruct (Z.le_gt_cases (sy - cy) 40) as [H'|H']].
  - rewrite (gtb_true (Z.abs _) 40), (gtb_false (sy - cy) 0), (ltb_true (sy - cy) 0),
      (ltb_true (sy - cy) (-40)), (gtb_false (sy - cy) 40) by lia.
    destruct (isOverlayExpanded s); cbn [negb andb]; cbv beta iota; [|done].
    by destruct (toggleOverlay s) as [[[]|e] s1].
  - rewrite (gtb_false (Z.abs _) 40), (ltb_false (sy - cy) (-40)),
      (gtb_false (sy - cy) 40) by lia.
    by destruct (isOverlayExpanded s).
  - rewrite (gtb_false (Z.abs _) 40), (ltb_false (sy - cy) (-40)),
      (gtb_false (sy - cy) 40) by lia.
    by destruct (isOverlayExpanded s).
  - rewrite (gtb_true (Z.abs _) 40), (gtb_true (sy - cy) 0), (ltb_false (sy - cy) 0),
      (ltb_false (sy - cy) (-40)), (gtb_true (sy - cy) 40) by lia.
    destruct (isOverlayExpanded s); cbn [negb andb]; cbv beta iota; [done|].
    by destruct (toggleOverlay s) as [[[]|e] s1].
Qed.

(** The first two events of a swipe: the position is recorded, the
    overlay keeps its state and may get a visual feedback. *)
Lemma header_moved (s : Shell) (o : Overlay) (y0 y1 : Z) :
  chatOverlay s = Some o ->
  exists tr,
    sh_dispatch (header_touchmove y1) (sh_dispatch (header_touchstart y0) s) =
      put_chatOverlay (Some (mkOverlay (expanded o) tr))
        (put_currentY y1 (put_isSwiping true (put_startY y0 s))).
Proof.
  intros Ho.
  set (s1 := put_isSwiping true (put_startY y0 s)).
  destruct (header_touchmove_exec s1 o y1 eq_refl Ho) as [tr Em].
  exists tr. unfold sh_dispatch at 2. unfold header_touchstart. sh_unf. fold s1.
  unfold sh_dispatch. by rewrite Em.
Qed.

(** X15: a swipe on the header of the overlay sets its state.  The page
    has the overlay; a touch starts at [y0], moves (last to [y1]) and
    ends.  With a toggle that contains its icon, a swipe up by more than
    40 pixels leaves the overlay expanded, a swipe down by more than 40
    pixels leaves it collapsed, whatever it was before, and a shorter
    movement leaves it as it was; no listener throws, the visual feedback
    is removed and the three closure variables are reset.  Without the
    toggle a swipe changes nothing but the closure variables.  With a
    toggle that has no icon the flag is set in the same way, but whenever
    it changes the [touchend] listener dies in [toggleOverlay]: the
    exception is reported, the feedback stays on the overlay and the
    closure variables keep the values of the swipe. *)
Theorem header_swipe_sets_state (s : Shell) (o : Overlay) (y0 y1 : Z) :
  chatOverlay s = Some o ->
  let s' := header_swipe y0 y1 s in
  let moved := sh_dispatch (header_touchmove y1) (sh_dispatch (header_touchstart y0) s) in
  let want :=
    if y0 - y1 >? 40 then true
    else if y1 - y0 >? 40 then false
    else isOverlayExpanded s in
  (forall ic,
     expandToggle s = Some (Some ic) ->
     uncaught (world s') = uncaught (world s) /\
     isOverlayExpanded s' = want /\
     (if Bool.eqb want (isOverlayExpanded s)
      then chatOverlay s' = Some (mkOverlay (expanded o) None) /\
           expandToggle s' = expandToggle s
      else chatOverlay s' = Some (mkOverlay want None) /\
           expandToggle s' =
             Some (Some (if want then "fas fa-chevron-down" else "fas fa-chevron-up"))) /\
     startY s' = 0 /\ currentY s' = 0 /\ isSwiping s' = false) /\
  (expandToggle s = None ->
   uncaught (world s') = uncaught (world s) /\
   isOverlayExpanded s' = isOverlayExpanded s /\
   chatOverlay s' = Some (mkOverlay (expanded o) None) /\
   startY s' = 0 /\ currentY s' = 0 /\ isSwiping s' = false) /\
  (expandToggle s = Some None ->
   isOverlayExpanded s' = want /\
   if Bool.eqb want (isOverlayExpanded s)
   then uncaught (world s') = uncaught (world s) /\
        chatOverlay s' = Some (mkOverlay (expanded o) None) /\
        startY s' = 0 /\ currentY s' = 0 /\ isSwiping s' = false
   else uncaught (world s') =
          uncaught (world s) ++
          ["TypeError: Cannot set properties of null (setting 'className')"] /\
        chatOverlay s' = set_expanded want <$> chatOverlay moved /\
        startY s' = y0 /\ currentY s' = y1 /\ isSwiping s' = true).
Proof.
  intros Ho s' moved want. subst s' moved. unfold header_swipe.
  destruct (header_moved s o y0 y1 Ho) as [tr ->].
  set (s2 := put_chatOverlay _ _).
  pose proof (header_touchend_exec s2 (mkOverlay (expanded o) tr) eq_refl eq_refl) as Ee.
  cbv zeta in Ee.
  change (startY s2) with y0 in Ee. change (currentY s2) with y1 in Ee.
  change (isOverlayExpanded s2) with (isOverlayExpanded s) in Ee.
  assert ((if isOverlayExpanded s then y0 - y1 <? -40 else y0 - y1 >? 40) =
          negb (Bool.eqb want (isOverlayExpanded s)) /\
          (Bool.eqb want (isOverlayExpanded s) = false ->
           want = negb (isOverlayExpanded s))) as [Ef Ew].
  { subst want.
    destruct (Z.lt_trichotomy (y0 - y1) (-40)) as [H|[H|H]];
      [|
       |destruct (Z.le_gt_cases (y0 - y1) 40) as [H'|H']].
    - rewrite (ltb_true (y0 - y1) (-40)), (gtb_false (y0 - y1) 40),
        (gtb_true (y1 - y0) 40) by lia. by destruct (isOverlayExpanded s).
    - rewrite (ltb_false (y0 - y1) (-40)), (gtb_false (y0 - y1) 40),
        (gtb_false (y1 - y0) 40) by lia. by destruct (isOverlayExpanded s).
    - rewrite (ltb_false (y0 - y1) (-40)), (gtb_false (y0 - y1) 40),
        (gtb_false (y1 - y0) 40) by lia. by destruct (isOverlayExpanded s).
    - rewrite (ltb_false (y0 - y1) (-40)), (gtb_true (y0 - y1) 40) by lia.
      by destruct (isOverlayExpanded s). }
  rewrite Ef in Ee. clearbody want.
  unfold sh_dispatch. rewrite Ee. clear Ee Ef.
  split; [|split].
  - intros ic Hi.
    rewrite (toggleOverlay_exec s2 (mkOverlay (expanded o) tr) ic eq_refl Hi).
    change (isOverlayExpanded s2) with (isOverlayExpanded s).
    destruct (Bool.eqb want (isOverlayExpanded s)) eqn:Eb; cbn [negb]; cbv iota.
    + apply eqb_prop in Eb. subst s2. sh_proj. by rewrite Eb.
    + specialize (Ew eq_refl). subst want s2.
      destruct (isOverlayExpanded s); sh_proj; by repeat split.
  - intros Hi.
    rewrite (toggleOverlay_absent s2) by by right.
    assert (want = isOverlayExpanded s \/ Bool.eqb want (isOverlayExpanded s) = false)
      as Hc.
    { destruct (Bool.eqb want (isOverlayExpanded s)) eqn:Eb; [left|by right].
      by apply eqb_prop. }
    destruct (Bool.eqb want (isOverlayExpanded s)); cbn [negb]; cbv iota;
      subst s2; sh_proj; by repeat split.
  - intros Hi.
    rewrite (toggleOverlay_no_icon s2 (mkOverlay (expanded o) tr) eq_refl Hi).
    change (isOverlayExpanded s2) with (isOverlayExpanded s).
    destruct (Bool.eqb want (isOverlayExpanded s)) eqn:Eb; cbn [negb]; cbv iota.
    + apply eqb_prop in Eb. subst s2. sh_proj. by rewrite Eb.
    + specialize (Ew eq_refl). subst want s2. sh_proj. by repeat split.
Qed.

(** A collapsed overlay is swiped up by 100 pixels; the same on a page
    whose toggle has lost its icon. *)
Lemma header_swipe_sets_state_witness :
  isOverlayExpanded (header_swipe 700 600 tabs_page) = true /\
  uncaught (world (header_swipe 700 600 tabs_page)) = [] /\
  isSwiping (header_swipe 700 600 (put_expandToggle (Some None) tabs_page)) = true /\
  isSwiping (header_swipe 700 600 (put_expandToggle None tabs_page)) = false.
Proof.
  destruct (header_swipe_sets_state tabs_page (mkOverlay false None) 700 600 eq_refl)
    as (H & _).
  destruct (H "fas fa-chevron-up" eq_refl) as (H1 & H2 & _).
  split; [exact H2|]. split; [exact H1|]. split.
  - destruct (header_swipe_sets_state (put_expandToggle (Some None) tabs_page)
                (mkOverlay false None) 700 600 eq_refl) as (_ & _ & H3).
    destruct (H3 eq_refl) as (_ & H4). exact (proj2 (proj2 (proj2 (proj2 H4)))).
  - destruct (header_swipe_sets_state (put_expandToggle None tabs_page)
                (mkOverlay false None) 700 600 eq_refl) as (_ & H3 & _).
    destruct (H3 eq_refl) as (_ & _ & _ & _ & _ & H4). exact H4.
Defined.

(** X16: a tap on the header never leaves the overlay expanded.  On a
    mobile page with the overlay, a tap on its header (beside the toggle
    button) is delivered as [touchstart], [touchend] and [click].  The touch starts at height [y]
    and does not move, so [touchend] compares [y] with the position 0 that
    the last completed touch left behind.  With a toggle on the page:
    when the header lies more than 40 pixels below the top, a tap on a
    collapsed overlay expands it and collapses it again, and a tap on an
    expanded overlay collapses it; within the top 40 pixels the tap just
    toggles.  This holds whether the toggle contains its icon or not; with
    the icon no listener throws, without it every call of [toggleOverlay]
    ends in a [TypeError] (two for the tap that expands and collapses).
    Without a toggle the tap does not change the overlay at all. *)
Theorem header_tap_collapses (s : Shell) (o : Overlay) (y : Z) :
  chatOverlay s = Some o ->
  currentY s = 0 ->
  0 <= y ->
  let s' := header_tap y s in
  let e := "TypeError: Cannot set properties of null (setting 'className')" in
  (expandToggle s <> None ->
   isOverlayExpanded s' = (if y >? 40 then false else negb (isOverlayExpanded s))) /\
  (forall ic,
     expandToggle s = Some (Some ic) -> uncaught (world s') = uncaught (world s)) /\
  (expandToggle s = Some None ->
   uncaught (world s') =
     uncaught (world s) ++
     (if (y >? 40) && negb (isOverlayExpanded s) then [e; e] else [e])) /\
  (expandToggle s = None ->
   isOverlayExpanded s' = isOverlayExpanded s /\
   uncaught (world s') = uncaught (world s)).
Proof.
  intros Ho Hc Hy s' e. subst s' e. unfold header_tap.
  set (s1 := put_isSwiping true (put_startY y s)).
  assert (sh_dispatch (header_touchstart y) s = s1) as -> by done.
  pose proof (header_touchend_exec s1 o eq_refl Ho) as Ee. cbv zeta in Ee.
  change (startY s1) with y in Ee. change (currentY s1) with (currentY s) in Ee.
  change (isOverlayExpanded s1) with (isOverlayExpanded s) in Ee.
  rewrite Hc, Z.sub_0_r, (ltb_false y (-40)) in Ee by lia.
  change (chatOverlay s1) with (chatOverlay s) in Ee. rewrite Ho in Ee.
  change (set_transform None <$> Some o) with (Some (set_transform None o)) in Ee.
  assert (forall ic, expandToggle s = Some (Some ic) ->
            isOverlayExpanded (header_tap y s) =
              (if y >? 40 then false else negb (isOverlayExpanded s)) /\
            uncaught (world (header_tap y s)) = uncaught (world s)) as Hicon.
  { intros ic Hi. unfold header_tap. fold s1.
    change (sh_dispatch (header_touchstart y) s) with s1.
    unfold sh_dispatch. rewrite Ee.
    rewrite (toggleOverlay_exec s1 o ic Ho Hi).
    change (isOverlayExpanded s1) with (isOverlayExpanded s).
    destruct (y >? 40), (isOverlayExpanded s) eqn:Ex; cbv iota;
      (erewrite toggleOverlay_exec; [|sh_proj; reflexivity|sh_proj; try exact Hi; reflexivity]);
      subst s1; sh_proj; by rewrite ?Ex. }
  assert (expandToggle s = Some None ->
            isOverlayExpanded (header_tap y s) =
              (if y >? 40 then false else negb (isOverlayExpanded s)) /\
            uncaught (world (header_tap y s)) =
              uncaught (world s) ++
              (if (y >? 40) && negb (isOverlayExpanded s)
               then ["TypeError: Cannot set properties of null (setting 'className')";
                     "TypeError: Cannot set properties of null (setting 'className')"]
               else ["TypeError: Cannot set properties of null (setting 'className')"]))
    as Hnone.
  { intros Hi. unfold header_tap.
    change (sh_dispatch (header_touchstart y) s) with s1.
    unfold sh_dispatch. rewrite Ee.
    rewrite (toggleOverlay_no_icon s1 o Ho Hi).
    change (isOverlayExpanded s1) with (isOverlayExpanded s).
    destruct (y >? 40), (isOverlayExpanded s) eqn:Ex; cbv iota; cbn [andb negb];
      (erewrite toggleOverlay_no_icon; [|sh_proj; reflexivity|sh_proj; exact Hi]);
      subst s1; sh_proj; rewrite ?Ex; cbn [uncaught with_uncaught];
      by rewrite <- ?app_assoc. }
  split; [|split; [|split]].
  - intros Hn. destruct (expandToggle s) as [[ic|]|] eqn:Hi; [| |done].
    + by destruct (Hicon ic eq_refl).
    + by destruct (Hnone eq_refl).
  - intros ic Hi. by destruct (Hicon ic Hi).
  - intros Hi. by destruct (Hnone Hi).
  - intros Hi. unfold sh_dispatch at 2 4. rewrite Ee.
    rewrite (toggleOverlay_absent s1) by by right.
    assert (forall s2, expandToggle s2 = None -> sh_dispatch toggleOverlay s2 = s2) as Hd.
    { intros s2 H2. unfold sh_dispatch. by rewrite (toggleOverlay_absent s2) by by right. }
    destruct (if isOverlayExpanded s then false else y >? 40);
      rewrite Hd by (subst s1; sh_proj; exact Hi); by subst s1.
Qed.

(** The header of the collapsed overlay lies 700 pixels below the top;
    the same page without the icon and without the toggle. *)
Lemma header_tap_collapses_witness :
  isOverlayExpanded (header_tap 700 tabs_page) = false /\
  uncaught (world (header_tap 700 tabs_page)) = [] /\
  length (uncaught (world (header_tap 700 (put_expandToggle (Some None) tabs_page)))) = 2%nat /\
  isOverlayExpanded (header_tap 700 (put_expandToggle None tabs_page)) = false.
Proof.
  destruct (header_tap_collapses tabs_page (mkOverlay false None) 700 eq_refl eq_refl)
    as (H1 & H2 & _); [lia|].
  split; [apply H1; discriminate|]. split; [exact (H2 "fas fa-chevron-up" eq_refl)|].
  split.
  - destruct (header_tap_collapses (put_expandToggle (Some None) tabs_page)
                (mkOverlay false None) 700 eq_refl eq_refl) as (_ & _ & H3 & _); [lia|].
    rewrite (H3 eq_refl). reflexivity.
  - destruct (header_tap_collapses (put_expandToggle None tabs_page)
                (mkOverlay false None) 700 eq_refl eq_refl) as (_ & _ & _ & H4); [lia|].
    exact (proj1 (H4 eq_refl)).
Defined.

(** ** Theme *)

Lemma getItem_setItem (key v : string) (l : list (string * string)) :
  getItem key (setItem key v l) = Some v.
Proof. unfold setItem. cbn [getItem fst snd]. by rewrite String.eqb_refl. Qed.

Lemma getItem_filter (key key' : string) (l : list (string * string)) :
  key <> key' -> getItem key (filter (fun kv => fst kv ≠ key') l) = getItem key l.
Proof.
  intros Hne. induction l as [|kv l IH]; [done|].
  rewrite filter_cons. cbn [getItem]. case_decide as Hk.
  - cbn [getItem]. by rewrite IH.
  - rewrite IH.
    by rewrite (proj2 (String.eqb_neq (fst kv) key)) by congruence.
Qed.

Lemma getItem_setItem_ne (key key' v : string) (l : list (string * string)) :
  key <> key' -> getItem key (setItem key' v l) = getItem key l.
Proof.
  intros Hne. unfold setItem. cbn [getItem fst snd].
  rewrite (proj2 (String.eqb_neq key' key)) by congruence.
  by apply getItem_filter.
Qed.

Lemma or_default_nonempty (v d : string) : v <> "" -> or_default (Some v) d = v.
Proof. intros H. unfold or_default. by rewrite (proj2 (String.eqb_neq v "")). Qed.

(** What [changeTheme] does, field by field. *)
Lemma changeTheme_exec (themeName : string) (mode : option string) (save : bool)
    (s : Shell) :
  let m' := match mode with
            | Some m => if String.eqb m "" then currentMode s else m
            | None => currentMode s
            end in
  let s' := snd (changeTheme themeName mode save s) in
  fst (changeTheme themeName mode save s) = Normal tt /\
  currentTheme s' = themeName /\
  currentMode s' = m' /\
  dataTheme s' = Some themeName /\
  dataMode s' = match mode with
                | Some m => if String.eqb m "" then None else Some m
                | None => None
                end /\
  themeCards s' =
    ((fun card => (fst card, String.eqb (fst card) themeName)) <$> themeCards s) /\
  localStorage s' =
    (if save
     then setItem "lumi-mode" m' (setItem "lumi-theme" themeName (localStorage s))
     else localStorage s) /\
  sent s' = sent s ++ [ThemeChanged themeName m'] /\
  rejected s' = rejected s.
Proof.
  destruct s as [w ? ? ? ? ? ? ? ? ? ? ? ? ? ? ? ? ? ? ? ? ? hb].
  destruct w as [? ? ? ? ? ? ? ? ? st].
  unfold changeTheme, updateThemeSelection, updateBackgroundGradient.
  destruct st, hb, save, mode as [m|]; try destruct (String.eqb m "");
    sh_unf; simpl; done.
Qed.

(** X17: the theme survives a reload.  [changeTheme] with [save] stores
    the theme and the mode it ends with; [applyStoredTheme] on a page that
    finds this storage (a later load of the page) sets the same theme and
    mode on the root element and in [this], does not write the storage
    again, and reports the pair to the server.  The names must not be
    empty: an empty stored text counts as missing. *)
Theorem theme_survives_reload
    (themeName : string) (mode : option string) (s later : Shell) :
  let s1 := sh_exec (changeTheme themeName mode true) s in
  let m := currentMode s1 in
  themeName <> "" ->
  m <> "" ->
  localStorage later = localStorage s1 ->
  let s2 := sh_exec applyStoredTheme later in
  m = match mode with
      | Some m' => if String.eqb m' "" then currentMode s else m'
      | None => currentMode s
      end /\
  currentTheme s2 = themeName /\
  currentMode s2 = m /\
  dataTheme s2 = Some themeName /\
  dataMode s2 = Some m /\
  localStorage s2 = localStorage later /\
  sent s2 = sent later ++ [ThemeChanged themeName m].
Proof.
  intros s1 m Ht Hm Hl s2. subst s2 m s1. unfold sh_exec in *.
  destruct (changeTheme_exec themeName mode true s)
    as (_ & _ & Hmode & _ & _ & _ & Hst & _).
  cbv zeta in Hmode, Hst. split; [exact Hmode|].
  rewrite Hst in Hl. rewrite <- Hmode in Hl.
  set (m := currentMode (snd (changeTheme themeName mode true s))) in *.
  assert (applyStoredTheme later = changeTheme themeName (Some m) false later) as ->.
  { unfold applyStoredTheme. sh_unf. cbv zeta. rewrite Hl.
    rewrite getItem_setItem, getItem_setItem_ne, getItem_setItem by done.
    rewrite !or_default_nonempty by done. reflexivity. }
  destruct (changeTheme_exec themeName (Some m) false later)
    as (_ & H1 & H2 & H3 & H4 & _ & H5 & H6 & _).
  cbv zeta in H2, H4, H5, H6.
  rewrite (proj2 (String.eqb_neq m "")) in H2, H4, H6 by done.
  by rewrite H1, H2, H3, H4, H5, H6.
Qed.

(** The dark ocean theme is chosen on the page of the scenarios; the page
    is loaded again with the storage this leaves. *)
Lemma theme_survives_reload_witness :
  let later := put_localStorage [("lumi-mode", "dark"); ("lumi-theme", "ocean")] tabs_page in
  currentTheme (sh_exec applyStoredTheme later) = "ocean" /\
  dataMode (sh_exec applyStoredTheme later) = Some "dark".
Proof.
  intros later.
  destruct (theme_survives_reload "ocean" (Some "dark") tabs_page later)
    as (_ & H1 & _ & _ & H2 & _);
    [discriminate|vm_compute; discriminate|vm_compute; reflexivity|].
  split; [exact H1|exact H2].
Defined.

Lemma active_select (themeName : string) (l : list (string * bool)) :
  active ((fun card => (fst card, String.eqb (fst card) themeName)) <$> l) =
    filter (fun n => n = themeName) (fst <$> l).
Proof.
  unfold active. induction l as [|card l IH]; [done|].
  csimpl. rewrite !filter_cons. simpl.
  destruct (String.eqb_spec (fst card) themeName) as [E|E].
  - repeat case_decide; try done. csimpl. by rewrite IH.
  - repeat case_decide; done.
Qed.

(** X18: choosing a theme card drops the mode from the page.  A click on a
    theme card calls [changeTheme] with the theme alone.  The root element
    then carries the new [data-theme] but no [data-mode] any more, while
    [currentMode] keeps the mode, the storage holds it, and the server is
    told it; the cards of that theme, and no others, are active. *)
Theorem theme_card_drops_mode (themeName : string) (s : Shell) :
  let s' := sh_exec (changeTheme themeName None true) s in
  sh_throws (changeTheme themeName None true) s = false /\
  dataTheme s' = Some themeName /\
  dataMode s' = None /\
  currentMode s' = currentMode s /\
  getItem "lumi-mode" (localStorage s') = Some (currentMode s) /\
  getItem "lumi-theme" (localStorage s') = Some themeName /\
  sent s' = sent s ++ [ThemeChanged themeName (currentMode s)] /\
  active (themeCards s') = filter (fun n => n = themeName) (fst <$> themeCards s).
Proof.
  intros s'. subst s'. unfold sh_exec, sh_throws.
  destruct (changeTheme_exec themeName None true s)
    as (H0 & _ & H2 & H3 & H4 & H5 & H6 & H7 & _).
  cbv zeta in H2, H6, H7.
  rewrite H0, H2, H3, H4, H5, H6, H7.
  rewrite getItem_setItem, getItem_setItem_ne, getItem_setItem by done.
  repeat split; try done.
  apply active_select.
Qed.

(** ** Chat box *)

(** X19: a blank message is not sent.  When the text of the input is empty
    after trimming, [sendMessage] changes nothing: no chat entry, nothing
    sent, the input keeps its text.  On a page without the input the
    method fails inside its promise: the caller sees no exception and
    nothing else changes. *)
Theorem blank_message_not_sent (trim : string -> string) (s : Shell) :
  (forall input,
     messageInput s = Some input -> trim (value input) = "" ->
     sendMessage trim s = (Normal tt, s)) /\
  (messageInput s = None ->
   sendMessage trim s =
     (Normal tt,
      put_rejected
        (rejected s ++ ["TypeError: Cannot read properties of null (reading 'value')"])
        s)).
Proof.
  split.
  - intros input Hi Ht. unfold sendMessage. sh_unf. rewrite Hi. cbv zeta.
    by rewrite Ht.
  - intros Hi. unfold sendMessage. sh_unf. by rewrite Hi.
Qed.
Lemma blank_message_not_sent_witness :
  sendMessage trim_blanks (put_messageInput (Some (mkInput "   " true)) tabs_page) =
    (Normal tt, put_messageInput (Some (mkInput "   " true)) tabs_page) /\
  rejected (sh_exec (sendMessage trim_blanks) (put_messageInput None tabs_page)) =
    ["TypeError: Cannot read properties of null (reading 'value')"].
Proof.
  split.
  - apply (proj1 (blank_message_not_sent trim_blanks
                    (put_messageInput (Some (mkInput "   " true)) tabs_page))
             (mkInput "   " true)); reflexivity.
  - unfold sh_exec.
    rewrite (proj2 (blank_message_not_sent trim_blanks (put_messageInput None tabs_page)))
      by reflexivity.
    reflexivity.
Defined.


(** X20: a message and its answer.  On a page with the input, the chat
    list and the send button, a text that is not blank is appended to the
    chat as the user's entry, the input is emptied, the typing indicator is
    shown and the send button is disabled.  Then, on a mobile page with a
    collapsed overlay, the overlay is expanded; if its toggle has no icon,
    this throws inside the promise and the message is never sent.
    Otherwise exactly one [chat_message] with the trimmed text goes to the
    server and nothing is rejected.  The state of the send button is not
    consulted, so Enter sends even while the button is disabled.  The
    answer of the server hides the indicator, enables the button again and
    appends the text as the entry of the assistant. *)
Theorem send_then_response
    (trim : string -> string) (s : Shell) (input : Input)
    (msgs : list (string * string)) (b : bool) (response : string) :
  messageInput s = Some input ->
  chatMessages s = Some msgs ->
  sendButton s = Some b ->
  trim (value input) <> "" ->
  let s1 := sh_exec (on_keypress trim "Enter" false) s in
  let s2 := sh_exec (on_chat_response response) s1 in
  let fails := isMobile s && negb (isOverlayExpanded s) && toggle_breaks s in
  on_keypress trim "Enter" false s = sendMessage trim s /\
  sh_throws (sendMessage trim) s = false /\
  chatMessages s1 = Some (msgs ++ [(trim (value input), "user")]) /\
  messageInput s1 = Some (mkInput "" (focused input)) /\
  sendButton s1 = Some true /\
  typingIndicator s1 = (fun _ => false) <$> typingIndicator s /\
  sent s1 = (if fails then sent s else sent s ++ [ChatMessage (trim (value input))]) /\
  rejected s1 =
    (if fails
     then rejected s ++ ["TypeError: Cannot set properties of null (setting 'className')"]
     else rejected s) /\
  (fails = true -> isOverlayExpanded s1 = true) /\
  sh_throws (on_chat_response response) s1 = false /\
  chatMessages s2 =
    Some (msgs ++ [(trim (value input), "user"); (response, "ai")]) /\
  sendButton s2 = Some false /\
  typingIndicator s2 = (fun _ => true) <$> typingIndicator s /\
  sent s2 = sent s1 /\
  rejected s2 = rejected s1.
Proof.
  intros Hi Hc Hb Hm s1 s2 fails.
  assert (on_keypress trim "Enter" false s = sendMessage trim s) as E0 by done.
  split; [exact E0|]. subst s2 s1 fails. unfold sh_exec, sh_throws. rewrite E0. clear E0.
  apply String.eqb_neq in Hm.
  unfold sendMessage, on_chat_response, hideTypingIndicator, addMessage, set_disabled,
    showTypingIndicator, toggleOverlay, toggle_breaks.
  sh_unf. rewrite Hi. sh_unf. cbv zeta. rewrite Hm. cbv iota.
  set (msg := trim (value input)) in *. clearbody msg.
  destruct s as [w ? ? ? mob ex ? ? ? ? ? ? ? ? ? ? ov tg inp sb cm ty].
  simpl in Hi, Hc, Hb. subst.
  destruct tg as [[ic|]|]; destruct ty, ov, mob, ex.
  all: simpl.
  all: by rewrite <- ?app_assoc.
Qed.

(** The text [  hello ] is typed on the page of the scenarios, Enter is
    pressed and the server answers; the same on the page whose toggle has
    lost its icon. *)
Lemma send_then_response_witness :
  let s := put_messageInput (Some (mkInput "  hello " true)) tabs_page in
  let s1 := sh_exec (on_keypress trim_blanks "Enter" false) s in
  let t := put_expandToggle (Some None) s in
  let t1 := sh_exec (on_keypress trim_blanks "Enter" false) t in
  chatMessages (sh_exec (on_chat_response "hi") s1) =
    Some [("hello", "user"); ("hi", "ai")] /\
  sent s1 = [ChatMessage "hello"] /\
  sent t1 = [] /\
  chatMessages t1 = Some [("hello", "user")].
Proof.
  intros s s1 t t1.
  destruct (send_then_response trim_blanks s (mkInput "  hello " true) [] false "hi")
    as (_ & _ & _ & _ & _ & _ & H1 & _ & _ & _ & H2 & _);
    [reflexivity|reflexivity|reflexivity|vm_compute; discriminate|].
  destruct (send_then_response trim_blanks t (mkInput "  hello " true) [] false "hi")
    as (_ & _ & H3 & _ & _ & _ & H4 & _);
    [reflexivity|reflexivity|reflexivity|vm_compute; discriminate|].
  split; [exact H2|]. split; [exact H1|]. split; [exact H4|exact H3].
Defined.

(** ** Service cards and the status of the avatar services *)

Lemma find_card_update (service : string) (f : Card -> Card) (l : list (string * Card)) :
  find_card service (update_card service f l) = f <$> find_card service l.
Proof.
  unfold find_card. induction l as [|c l IH]; [done|].
  cbn [update_card List.find]. destruct (String.eqb (fst c) service) eqn:E.
  - cbn [List.find fst]. by rewrite E.
  - cbn [List.find]. by rewrite E.
Qed.

Lemma find_card_update_ne (service other : string) (f : Card -> Card)
    (l : list (string * Card)) :
  service <> other ->
  find_card service (update_card other f l) = find_card service l.
Proof.
  intros Hne. unfold find_card. induction l as [|c l IH]; [done|].
  cbn [update_card List.find]. destruct (String.eqb (fst c) other) eqn:E.
  - cbn [List.find fst]. apply String.eqb_eq in E.
    by rewrite (proj2 (String.eqb_neq (fst c) service)) by congruence.
  - cbn [List.find]. destruct (String.eqb (fst c) service); [done|apply IH].
Qed.

Lemma find_none_not_in (name : string) (l : list (string * Data)) :
  List.find (fun kv => String.eqb (fst kv) name) l = None <->
  name ∉ (fst <$> l).
Proof.
  induction l as [|kv l IH]; [split; [intros _; apply not_elem_of_nil|done]|].
  cbn [List.find]. csimpl. rewrite not_elem_of_cons.
  destruct (String.eqb_spec (fst kv) name) as [E|E].
  - split; [done|]. intros [H _]. by destruct H.
  - rewrite IH. split; [by split|by intros []].
Qed.

Lemma rev_is_reverse {A : Type} (l : list A) : rev l = reverse l.
Proof. unfold reverse. apply rev_alt. Qed.

(** A field that an update does not mention keeps its value. *)
Lemma field_app_absent (l fields : list (string * Data)) (name : string) :
  name ∉ (fst <$> fields) -> field (l ++ fields) name = field l name.
Proof.
  intros H. unfold field. rewrite rev_app_distr.
  assert (List.find (fun kv => String.eqb (fst kv) name) (rev fields) = None) as E.
  { apply find_none_not_in. rewrite rev_is_reverse, fmap_reverse.
    by rewrite elem_of_reverse. }
  revert E. generalize (rev fields). intros r E.
  induction r as [|kv r IH]; [done|].
  cbn [List.find] in E. destruct (String.eqb (fst kv) name) eqn:Ek; [done|].
  cbn [List.app List.find]. rewrite Ek. by apply IH.
Qed.

Lemma field_absent (fields : list (string * Data)) (name : string) :
  name ∉ (fst <$> fields) -> field fields name = DUndefined.
Proof. intros H. by rewrite <- (app_nil_l fields), field_app_absent. Qed.

Lemma field_snoc (l : list (string * Data)) (name : string) (v : Data) :
  field (l ++ [(name, v)]) name = v.
Proof.
  unfold field. rewrite rev_app_distr. cbn [rev List.app List.find fst snd].
  by rewrite String.eqb_refl.
Qed.

(** X21: the VTube Studio card follows the update alone.
    [updateVTSStatus] merges an update into [vtsStatus] and reports the
    merged state to the server, but the card is computed from the fields
    of the update itself.  So an update that mentions neither [connected]
    nor [source] (a change of [streaming], say) turns the card to Offline,
    "Not connected to VTube Studio", while [vtsStatus.connected] keeps its
    value.  An update that is [null] or [undefined] throws before the card
    is touched. *)
Theorem vts_card_follows_update_alone (s : Shell) (c : Card) :
  find_card "vts" (cards s) = Some c ->
  card_complete c = true ->
  (forall fields,
     let s' := sh_exec (updateVTSStatus (DObj fields)) s in
     sh_throws (updateVTSStatus (DObj fields)) s = false /\
     vtsStatus s' = vtsStatus s ++ fields /\
     sent s' = sent s ++ [VtsStatusUpdate (vtsStatus s ++ fields)] /\
     ("connected" ∉ (fst <$> fields) -> "source" ∉ (fst <$> fields) ->
      find_card "vts" (cards s') =
        Some (mkCard (Some "status-indicator status-offline")
                     (fmap (M:=option) (fun _ : string => "Offline") <$> statusText c)
                     (Some "Not connected to VTube Studio")) /\
      field (vtsStatus s') "connected" = field (vtsStatus s) "connected") /\
     (data_truthy (field fields "connected") = true ->
      find_card "vts" (cards s') =
        Some (mkCard (Some "status-indicator status-online")
                     (fmap (M:=option) (fun _ : string => "Online") <$> statusText c)
                     (Some (if data_truthy (field fields "modelLoaded")
                            then "Model loaded & streaming"
                            else "Live2D model streaming"))))) /\
  (forall status,
     status = DNull \/ status = DUndefined ->
     sh_throws (updateVTSStatus status) s = true /\
     cards (sh_exec (updateVTSStatus status) s) = cards s /\
     sent (sh_exec (updateVTSStatus status) s) = sent s).
Proof.
  intros Hc Hcc. split.
  - intros fields s'. subst s'.
    unfold updateVTSStatus, updateServiceCard, sh_prop, opt_prop, prop.
    sh_unf. cbv zeta. cbn [default].
    unfold sh_exec, sh_throws. cbn [fst snd].
    split; [done|]. split; [done|]. split; [done|].
    cbn [cards put_cards put_vtsStatus put_sent vtsStatus].
    rewrite find_card_update. simpl cards. rewrite Hc. cbn [fmap option_fmap option_map].
    unfold card_complete in Hcc. unfold show_status.
    destruct (statusText c) as [st|]; [|done].
    destruct (detailsText c); [|done]. destruct (indicator c); [|done].
    split.
    + intros H1 H2. rewrite (field_absent fields "connected" H1).
      rewrite (field_absent fields "source" H2). cbn.
      split; [done|]. by apply field_app_absent.
    + intros H. unfold or_else. rewrite H. cbv iota. rewrite !H. by destruct st.
  - intros status [-> | ->]; by vm_compute.
Qed.

(** The page of the scenarios, connected to VTube Studio, is told that
    streaming has started. *)
Lemma vts_card_follows_update_alone_witness :
  let s := put_vtsStatus [("connected", DBool true)] tabs_page in
  let s' := sh_exec (updateVTSStatus (DObj [("streaming", DBool true)])) s in
  find_card "vts" (cards s') =
    Some (mkCard (Some "status-indicator status-offline") (Some (Some "Offline"))
                 (Some "Not connected to VTube Studio")) /\
  field (vtsStatus s') "connected" = DBool true.
Proof.
  intros s s'.
  destruct (vts_card_follows_update_alone s new_card eq_refl eq_refl) as [H _].
  destruct (H [("streaming", DBool true)]) as (_ & _ & _ & H1 & _).
  apply H1; (apply not_elem_of_cons; split; [discriminate|apply not_elem_of_nil]).
Defined.

Lemma updateLive2DStatus_exec (source : string) (w : World) :
  fst (updateLive2DStatus source w) = Normal tt /\
  notifications (snd (updateLive2DStatus source w)) = notifications w /\
  timers (snd (updateLive2DStatus source w)) = timers w /\
  nextTimer (snd (updateLive2DStatus source w)) = nextTimer w /\
  now (snd (updateLive2DStatus source w)) = now w /\
  app (snd (updateLive2DStatus source w)) = app w.
Proof.
  unfold updateLive2DStatus. js_red. destruct (statusElement w); [|done].
  by repeat case_match.
Qed.

Lemma updateLive2DStatus_view (source text class : string) (w : World) :
  (source, text, class) = ("mjpg_stream", "🖥️ MJPG Stream", "live2d-status status-online") \/
  (source, text, class) =
    ("virtual_camera", "📡 WebSocket Stream", "live2d-status status-online") \/
  (source, text, class) =
    ("placeholder", "📷 Camera Setup Required", "live2d-status status-offline") ->
  statusElement (snd (updateLive2DStatus source w)) =
    (fun _ => mkStatusView text class) <$> statusElement w.
Proof.
  intros [H|[H|H]]; simplify_eq; unfold updateLive2DStatus; js_red;
    destruct (statusElement w) eqn:E; simpl; by rewrite ?E.
Qed.

(** X22: the camera notification fires on a rising edge.
    [updateCameraStatus] with an update object never throws.  It shows
    "Virtual camera connected!" exactly when the update says [available]
    and the merged status does not carry a truthy [_wasAvailable]; it then
    records the [available] of this update as [_wasAvailable], so that an
    update that does not mention [available] re-arms the notification.
    Whatever the stream indicator showed before, an error included, it is
    overwritten with the feed of the current mode when the merged status
    says [available], and with "Camera Setup Required" otherwise. *)
Theorem camera_notification_on_rising_edge (s : Shell) (fields : list (string * Data)) :
  let s' := sh_exec (updateCameraStatus (DObj fields)) s in
  let merged := cameraStatus s ++ fields in
  let rising :=
    data_truthy (field fields "available") &&
    negb (data_truthy (field merged "_wasAvailable")) in
  sh_throws (updateCameraStatus (DObj fields)) s = false /\
  notifications (world s') =
    notifications (world s) ++
    (if rising then [("✅ Virtual camera connected!", "success")] else []) /\
  cameraStatus s' = merged ++ [("_wasAvailable", field fields "available")] /\
  field (cameraStatus s') "_wasAvailable" = field fields "available" /\
  statusElement (world s') =
    (fun _ =>
       if data_truthy (field merged "available") then
         if useMjpgStream (app (world s))
         then mkStatusView "🖥️ MJPG Stream" "live2d-status status-online"
         else mkStatusView "📡 WebSocket Stream" "live2d-status status-online"
       else mkStatusView "📷 Camera Setup Required" "live2d-status status-offline")
    <$> statusElement (world s).
Proof.
  intros s' merged rising. subst s'.
  unfold updateCameraStatus, updateServiceCard, sh_prop, prop.
  unfold sh_exec, sh_throws. sh_unf. cbv zeta. sh_proj. cbn [own_props].
  fold merged.
  set (src := if data_truthy (field merged "available")
              then if useMjpgStream (app (world s)) then "mjpg_stream"
                   else "virtual_camera"
              else "placeholder").
  destruct (updateLive2DStatus_exec src (world s)) as (E1 & E2 & _).
  rewrite E1. cbv iota. sh_proj. fold rising.
  assert (statusElement (snd (updateLive2DStatus src (world s))) =
          (fun _ =>
             if data_truthy (field merged "available") then
               if useMjpgStream (app (world s))
               then mkStatusView "🖥️ MJPG Stream" "live2d-status status-online"
               else mkStatusView "📡 WebSocket Stream" "live2d-status status-online"
             else mkStatusView "📷 Camera Setup Required" "live2d-status status-offline")
          <$> statusElement (world s)) as E3.
  { subst src. destruct (data_truthy (field merged "available"));
      [destruct (useMjpgStream (app (world s)))|];
      apply updateLive2DStatus_view; auto. }
  destruct rising; cbv iota; sh_proj.
  - rewrite showNotification_exec. cbn [fst snd]. sh_proj.
    cbn [notifications with_nextTimer with_timers with_notifications statusElement].
    rewrite E2, E3, field_snoc. done.
  - cbn [fst snd]. sh_proj. rewrite E2, E3, field_snoc. by rewrite app_nil_r.
Qed.

Lemma updateServiceStatus_null (statusData : Data) (s : Shell) :
  statusData = DNull \/ statusData = DUndefined ->
  updateServiceStatus statusData s =
    (Thrown "TypeError: Cannot read properties of null or undefined", s).
Proof. by intros [-> | ->]. Qed.

(** The cards after [updateServiceStatus] with the object of the catch
    branch of [monitorServices]. *)
Lemma updateServiceStatus_error (s : Shell) :
  updateServiceStatus (DObj [("status", DStr "error")]) s =
    (Normal tt,
     put_cards
       (update_card "plugins" (show_status (DBool false) "Enabled: 0/0")
          (update_card "vts"
             (show_status
                (or_else (field (vtsStatus s) "connected")
                   (field (cameraStatus s) "available"))
                (if data_truthy (field (vtsStatus s) "connected")
                 then "VTS connected & streaming"
                 else if data_truthy (field (cameraStatus s) "available")
                      then "Virtual camera active"
                      else "VTS disconnected"))
             (update_card "discord" (show_status (DBool false) "Bot disabled")
                (update_card "ollama" (show_status (DBool false) "Model: Unknown")
                   (cards s)))))
       s).
Proof.
  unfold updateServiceStatus, updateServiceCard, sh_prop, prop.
  sh_unf. cbv zeta. sh_proj.
  destruct s. reflexivity.
Qed.

(** X23: when monitoring fails, the services show as offline.  If the
    status request fails, or its body is [null], [monitorServices] logs one
    error and redraws the cards from an object without status fields: the
    model card reads Offline, "Model: Unknown", the bot card Offline, "Bot
    disabled", the plugin card Offline, "Enabled: 0/0", whatever they
    showed; the VTube Studio card is redrawn from the state of the page.
    The follow-up request for the avatar status is not sent, and the
    promise is not rejected. *)
Theorem monitor_failure_shows_offline
    (s : Shell) (body : option Data) (c1 c2 c3 : Card) :
  body = None \/ body = Some DNull ->
  find_card "ollama" (cards s) = Some c1 -> card_complete c1 = true ->
  find_card "discord" (cards s) = Some c2 -> card_complete c2 = true ->
  find_card "plugins" (cards s) = Some c3 -> card_complete c3 = true ->
  let s' := sh_exec (monitorServices_response body) s in
  let offline (c : Card) (details : string) :=
    Some (mkCard (Some "status-indicator status-offline")
                 (fmap (M:=option) (fun _ : string => "Offline") <$> statusText c)
                 (Some details)) in
  sh_throws (monitorServices_response body) s = false /\
  rejected s' = rejected s /\
  fetches s' = fetches s /\
  consoleErrors (world s') = consoleErrors (world s) ++ ["Error monitoring services"] /\
  find_card "ollama" (cards s') = offline c1 "Model: Unknown" /\
  find_card "discord" (cards s') = offline c2 "Bot disabled" /\
  find_card "plugins" (cards s') = offline c3 "Enabled: 0/0".
Proof.
  intros Hb H1 C1 H2 C2 H3 C3 s' offline. subst s' offline.
  set (s0 := put_world (with_consoleErrors
                          (consoleErrors (world s) ++ ["Error monitoring services"])
                          (world s)) s).
  assert (monitorServices_response body s =
          updateServiceStatus (DObj [("status", DStr "error")]) s0) as E.
  { unfold monitorServices_response, try_catch, async.
    destruct Hb as [-> | ->].
    - sh_unf. cbv [console_error modify]. cbn [fst snd]. fold s0.
      rewrite updateServiceStatus_error. reflexivity.
    - sh_unf. rewrite (updateServiceStatus_null DNull s) by auto.
      cbv iota. cbv [console_error modify]. cbn [fst snd]. fold s0.
      rewrite updateServiceStatus_error. reflexivity. }
  unfold sh_exec, sh_throws. rewrite E, updateServiceStatus_error.
  cbn [fst snd]. sh_proj. subst s0. sh_proj.
  repeat first [rewrite find_card_update | rewrite find_card_update_ne by discriminate].
  rewrite H1, H2, H3.
  unfold card_complete in C1, C2, C3. unfold show_status. simpl.
  destruct (statusText c1), (detailsText c1), (indicator c1); try done.
  destruct (statusText c2), (detailsText c2), (indicator c2); try done.
  destruct (statusText c3), (detailsText c3), (indicator c3); done.
Qed.

Lemma monitor_failure_shows_offline_witness :
  let s' := sh_exec (monitorServices_response None) tabs_page in
  find_card "ollama" (cards s') =
    Some (mkCard (Some "status-indicator status-offline") (Some (Some "Offline"))
                 (Some "Model: Unknown")) /\
  fetches s' = [].
Proof.
  intros s'.
  destruct (monitor_failure_shows_offline tabs_page None new_card new_card new_card)
    as (_ & _ & H1 & _ & H2 & _); try reflexivity; [by left|].
  split; [exact H2|exact H1].
Defined.

(** ** The service manager *)

Lemma map_get_update {V : Type} (key : string) (f : V -> V) (l : list (string * V)) :
  map_get key (map_update key f l) = f <$> map_get key l.
Proof.
  induction l as [|kv l IH]; [done|].
  cbn [map_update map_get]. destruct (String.eqb (fst kv) key) eqn:E.
  - cbn [map_get fst snd]. by rewrite E.
  - cbn [map_get]. by rewrite E.
Qed.

(** What [updateServiceStatus] of the manager does to the entry and to the
    card of the service. *)
Lemma manager_updateServiceStatus_get (serviceId : string) (status : Status)
    (m : Manager) (c : Card) :
  find_card serviceId (serviceCards m) = Some c ->
  let m' := manager_updateServiceStatus serviceId status m in
  map_get serviceId (services m') =
    set_lastStatus (Some status) <$> map_get serviceId (services m) /\
  find_card serviceId (serviceCards m') =
    Some (show_status (online status) (details status) c) /\
  errors m' = errors m /\ fetched m' = fetched m /\ clock m' = clock m.
Proof.
  intros Hc m'. subst m'. unfold manager_updateServiceStatus. rewrite Hc.
  cbn [services serviceCards with_services with_serviceCards errors fetched clock].
  by rewrite map_get_update, find_card_update, Hc.
Qed.

(** X24: the card and the stored status of a service agree.  When the
    result of a check arrives for a service of the map whose card is
    complete, the manager cannot fail: the card shows Online exactly when
    the stored [online] is truthy, its details are the stored details, and
    [getServiceStatus] returns that status, stamped with the time of the
    check.  If the request failed, this status is offline, "Connection
    failed", and the error is logged once; if the body is an object,
    nothing is logged. *)
Theorem service_card_and_status_agree
    (m : Manager) (serviceId : string) (body : option Data) (c : Card) (x : Service) :
  find_card serviceId (serviceCards m) = Some c ->
  card_complete c = true ->
  map_get serviceId (services m) = Some x ->
  let m' := checkService_result serviceId body m in
  let st := getServiceStatus serviceId m' in
  let is_on := data_truthy (online st) in
  find_card serviceId (serviceCards m') =
    Some (mkCard
            (Some (if is_on then "status-indicator status-online"
                   else "status-indicator status-offline"))
            (fmap (M:=option) (fun _ : string => if is_on then "Online" else "Offline")
               <$> statusText c)
            (Some (details st))) /\
  lastChecked st = Some (clock m) /\
  map_get serviceId (services m') = Some (set_lastStatus (Some st) x) /\
  (body = None ->
   st = mkStatus (DBool false) "Connection failed" (Some (clock m)) /\
   errors m' = errors m ++ [String.append "Error checking service " serviceId]) /\
  (forall fields, body = Some (DObj fields) -> errors m' = errors m).
Proof.
  intros Hc Hcc Hx m' st is_on.
  assert (exists status m0,
            m' = manager_updateServiceStatus serviceId status m0 /\
            serviceCards m0 = serviceCards m /\ services m0 = services m /\
            lastChecked status = Some (clock m) /\
            (body = None ->
             status = mkStatus (DBool false) "Connection failed" (Some (clock m)) /\
             errors m0 = errors m ++ [String.append "Error checking service " serviceId]) /\
            (forall fields, body = Some (DObj fields) -> errors m0 = errors m))
    as (status & m0 & Em & Hcards & Hsv & Hlc & Hfail & Hok).
  { subst m'. unfold checkService_result.
    destruct body as [data|]; cbn [mbind option_bind].
    - destruct (determineServiceStatus serviceId data) as [o|] eqn:Ed; cbn [mbind option_bind].
      + destruct (getServiceDetails serviceId data) as [t|] eqn:Eg; cbn [mbind option_bind].
        * by eexists _, m.
        * eexists _, _. split; [done|]. repeat split; try done.
          intros fields [= ->]. unfold getServiceDetails, prop in Eg.
          by repeat case_match.
      + eexists _, _. split; [done|]. repeat split; try done.
        intros fields [= ->]. unfold determineServiceStatus, prop in Ed.
        by repeat case_match.
    - eexists _, _. split; [done|]. by repeat split. }
  rewrite <- Hcards in Hc. rewrite <- Hsv in Hx.
  destruct (manager_updateServiceStatus_get serviceId status m0 c Hc)
    as (Hg & Hf & He & _).
  rewrite <- Em in Hg, Hf, He.
  assert (st = status) as Est.
  { subst st. unfold getServiceStatus. by rewrite Hg, Hx. }
  subst is_on. rewrite Est, Hf, Hg, Hx, He.
  split.
  { unfold card_complete in Hcc. unfold show_status.
    destruct (statusText c), (detailsText c), (indicator c); try done.
    by destruct (data_truthy (online status)). }
  split; [done|]. split; [done|]. split.
  - intros Hb. by destruct (Hfail Hb) as [-> ->].
  - intros fields Hb. by apply (Hok fields).
Qed.

(** The four cards of a new manager; the check of the model service finds
    the server down, then up with the model [llama3]. *)
Lemma service_card_and_status_agree_witness :
  details (getServiceStatus "ollama" (checkService_result "ollama" None (new_manager 50))) =
    "Connection failed" /\
  find_card "ollama"
    (serviceCards
       (checkService_result "ollama"
          (Some (DObj [("features", DObj [("ai_engine", DBool true)]);
                       ("config", DObj [("ollama_model", DStr "llama3")])]))
          (new_manager 50))) =
    Some (mkCard (Some "status-indicator status-online") (Some (Some "Online"))
                 (Some "Model: llama3")).
Proof.
  split.
  - destruct (service_card_and_status_agree (new_manager 50) "ollama" None new_card
                (mkService "Ollama" "fas fa-brain" "/api/status" 30000 true None)
                eq_refl eq_refl eq_refl) as (_ & _ & _ & H & _).
    destruct (H eq_refl) as [-> _]. reflexivity.
  - destruct (service_card_and_status_agree (new_manager 50) "ollama"
                (Some (DObj [("features", DObj [("ai_engine", DBool true)]);
                             ("config", DObj [("ollama_model", DStr "llama3")])]))
                new_card
                (mkService "Ollama" "fas fa-brain" "/api/status" 30000 true None)
                eq_refl eq_refl eq_refl) as (H & _).
    exact H.
Defined.

Lemma map_get_update_enabled (serviceId : string) (status : Status)
    (l : list (string * Service)) :
  enabled <$> map_get serviceId (map_update serviceId (set_lastStatus (Some status)) l) =
  enabled <$> map_get serviceId l.
Proof. rewrite map_get_update. by destruct (map_get serviceId l). Qed.

(** X25: a switch that the server never confirmed still counts.
    [toggleService] writes the new value of [enabled] into the entry before
    it sends the request and never takes it back: whatever the result of
    the request, the entry keeps the new value; unless the server answered
    ok, the card and the stored status stay as they were.  A service that
    was switched off this way is not checked any more: [checkService] sends
    nothing for it. *)
Theorem unconfirmed_switch_counts
    (m : Manager) (serviceId : string) (value : bool) (result : option bool) :
  let m1 := manager_toggleService serviceId value m in
  let m2 := manager_toggleService_result serviceId value result m1 in
  enabled <$> map_get serviceId (services m2) =
    (fun _ => value) <$> map_get serviceId (services m) /\
  (map_get serviceId (services m) <> None ->
   fetched m2 =
     fetched m ++ [PostEnabled (String.append "/api/config/services/" serviceId) value]) /\
  (result <> Some true ->
   serviceCards m2 = serviceCards m /\
   lastStatus <$> map_get serviceId (services m2) =
     lastStatus <$> map_get serviceId (services m)) /\
  (value = false -> checkService serviceId m2 = m2).
Proof.
  intros m1 m2.
  assert (enabled <$> map_get serviceId (services m1) =
          (fun _ => value) <$> map_get serviceId (services m) /\
          serviceCards m1 = serviceCards m /\
          lastStatus <$> map_get serviceId (services m1) =
            lastStatus <$> map_get serviceId (services m) /\
          (map_get serviceId (services m) <> None ->
           fetched m1 =
             fetched m ++
             [PostEnabled (String.append "/api/config/services/" serviceId) value]))
    as (H1 & H1c & H1s & H1f).
  { subst m1. unfold manager_toggleService.
    destruct (map_get serviceId (services m)) as [x|] eqn:E; [|by rewrite E].
    cbn [services serviceCards fetched with_fetched with_services].
    rewrite map_get_update, E. done. }
  assert (enabled <$> map_get serviceId (services m2) =
          enabled <$> map_get serviceId (services m1) /\
          fetched m2 = fetched m1 /\
          (result <> Some true ->
           serviceCards m2 = serviceCards m1 /\ services m2 = services m1))
    as (H2 & H2f & H2c).
  { subst m2. unfold manager_toggleService_result.
    destruct result as [[|]|]; [|done|done].
    unfold manager_updateServiceStatus.
    destruct (find_card serviceId (serviceCards m1)); [|done].
    cbn [services serviceCards fetched with_fetched with_services with_serviceCards].
    by rewrite map_get_update_enabled. }
  split; [by rewrite H2, H1|]. split; [intros H; by rewrite H2f, H1f|]. split.
  - intros Hr. destruct (H2c Hr) as [-> ->]. done.
  - intros ->. unfold checkService.
    destruct (map_get serviceId (services m2)) as [x|] eqn:E; [|done].
    rewrite H1 in H2. cbn in H2. destruct (map_get serviceId (services m)); [|done].
    cbn in H2. injection H2 as ->. done.
Qed.

(** The plugin service of a new manager is switched off while the server
    is down. *)
Lemma unconfirmed_switch_counts_witness :
  let m2 := manager_toggleService_result "plugins" false None
              (manager_toggleService "plugins" false (new_manager 50)) in
  checkService "plugins" m2 = m2 /\
  serviceCards m2 = service_cards.
Proof.
  intros m2.
  destruct (unconfirmed_switch_counts (new_manager 50) "plugins" false None)
    as (_ & _ & H1 & H2).
  split; [by apply H2|]. by apply H1.
Defined.

(** X26: a status is stored only when the service has a card.
    [updateServiceStatus] of the manager returns before it stores the
    status when the document has no element for the service: the result of
    a check is then dropped, and [getServiceStatus] keeps answering what
    it answered before ("Unknown" if nothing was stored).  With an
    element, complete or not, the status of a service of the map is
    stored, and [getServiceStatus] returns it. *)
Theorem status_stored_only_with_card
    (m : Manager) (serviceId : string) (status : Status) :
  (find_card serviceId (serviceCards m) = None ->
   manager_updateServiceStatus serviceId status m = m /\
   forall body,
     getServiceStatus serviceId (checkService_result serviceId body m) =
       getServiceStatus serviceId m) /\
  (find_card serviceId (serviceCards m) <> None ->
   map_get serviceId (services m) <> None ->
   getServiceStatus serviceId (manager_updateServiceStatus serviceId status m) = status).
Proof.
  split.
  - intros Hc.
    assert (forall st m0, serviceCards m0 = serviceCards m ->
                          manager_updateServiceStatus serviceId st m0 = m0) as Hno.
    { intros st m0 E. unfold manager_updateServiceStatus. by rewrite E, Hc. }
    split; [by apply Hno|]. intros body. unfold checkService_result.
    destruct (_ ≫= _); rewrite Hno; done.
  - intros Hc Hs. destruct (find_card serviceId (serviceCards m)) as [c|] eqn:E; [|done].
    destruct (manager_updateServiceStatus_get serviceId status m c E) as (Hg & _).
    unfold getServiceStatus. rewrite Hg.
    by destruct (map_get serviceId (services m)).
Qed.

(** A manager on a page without the container of the cards; and a new
    manager with its cards. *)
Lemma status_stored_only_with_card_witness :
  getServiceStatus "vts"
    (checkService_result "vts" None (with_serviceCards [] (new_manager 50))) =
    mkStatus (DBool false) "Unknown" None /\
  getServiceStatus "vts"
    (manager_updateServiceStatus "vts" (mkStatus (DBool true) "VTS connected" (Some 60))
       (new_manager 50)) =
    mkStatus (DBool true) "VTS connected" (Some 60).
Proof.
  split.
  - destruct (status_stored_only_with_card (with_serviceCards [] (new_manager 50)) "vts"
                (mkStatus (DBool false) "" None)) as [H _].
    destruct (H eq_refl) as [_ H']. rewrite H'. reflexivity.
  - apply (proj2 (status_stored_only_with_card (new_manager 50) "vts"
                    (mkStatus (DBool true) "VTS connected" (Some 60)))); discriminate.
Defined.

(** ** The tab manager *)

Lemma insert_by_priority_perm (x : string * TabConfig) (l : list (string * TabConfig)) :
  insert_by_priority x l ≡ₚ x :: l.
Proof.
  induction l as [|y l IH]; [done|]. cbn [insert_by_priority].
  destruct (priority (snd x) <=? priority (snd y)); [done|].
  rewrite IH. apply Permutation_swap.
Qed.

Lemma sort_by_priority_perm (l : list (string * TabConfig)) : sort_by_priority l ≡ₚ l.
Proof.
  induction l as [|x l IH]; [done|]. cbn [sort_by_priority foldr].
  rewrite insert_by_priority_perm. by f_equiv.
Qed.

Lemma ascending_insert (x : string * TabConfig) (l : list (string * TabConfig)) :
  ascending ((fun kv => priority (snd kv)) <$> l) ->
  ascending ((fun kv => priority (snd kv)) <$> insert_by_priority x l).
Proof.
  induction l as [|y l IH]; [done|]. intros H. cbn [insert_by_priority].
  destruct (priority (snd x) <=? priority (snd y)) eqn:E.
  - apply Z.leb_le in E. csimpl. split; [done|exact H].
  - apply Z.leb_gt in E. destruct l as [|z l].
    + csimpl. split; [lia|done].
    + csimpl in H. destruct H as [Hyz H]. specialize (IH H).
      cbn [insert_by_priority] in IH |- *.
      destruct (priority (snd x) <=? priority (snd z)); csimpl; csimpl in IH.
      * split; [lia|exact IH].
      * split; [exact Hyz|exact IH].
Qed.

Lemma sort_by_priority_ascending (l : list (string * TabConfig)) :
  ascending ((fun kv => priority (snd kv)) <$> sort_by_priority l).
Proof.
  induction l as [|x l IH]; [done|]. cbn [sort_by_priority foldr].
  by apply ascending_insert.
Qed.

Lemma map_get_None {V : Type} (key : string) (l : list (string * V)) :
  key ∉ (fst <$> l) -> map_get key l = None.
Proof.
  induction l as [|kv l IH]; [done|]. csimpl. rewrite not_elem_of_cons.
  intros [H1 H2]. cbn [map_get].
  rewrite (proj2 (String.eqb_neq (fst kv) key)) by congruence. by apply IH.
Qed.

Lemma map_get_elem {V : Type} (kv : string * V) (l : list (string * V)) :
  NoDup (fst <$> l) -> kv ∈ l -> map_get (fst kv) l = Some (snd kv).
Proof.
  induction l as [|y l IH]; [by intros _ ?%elem_of_nil|].
  csimpl. rewrite NoDup_cons. intros [Hy Hl] Hin. cbn [map_get].
  apply elem_of_cons in Hin as [->|Hin]; [by rewrite String.eqb_refl|].
  destruct (String.eqb_spec (fst y) (fst kv)) as [E|E]; [|by apply IH].
  exfalso. apply Hy. rewrite E. by apply list_elem_of_fmap_2.
Qed.

Lemma map_get_Some_elem {V : Type} (key : string) (v : V) (l : list (string * V)) :
  map_get key l = Some v -> key ∈ (fst <$> l).
Proof.
  induction l as [|y l IH]; [done|]. cbn [map_get]. csimpl.
  destruct (String.eqb_spec (fst y) key) as [E|E]; [intros _; rewrite E; left|].
  intros H. right. by apply IH.
Qed.

Lemma keys_map_set {V : Type} (key : string) (v : V) (l : list (string * V)) :
  fst <$> map_set key v l =
    if decide (key ∈ (fst <$> l)) then fst <$> l else (fst <$> l) ++ [key].
Proof.
  induction l as [|y l IH]; [done|]. cbn [map_set]. csimpl.
  destruct (String.eqb_spec (fst y) key) as [E|E].
  - rewrite decide_True by (rewrite E; left). csimpl. by rewrite E.
  - csimpl. rewrite IH. destruct (decide (key ∈ (fst <$> l))) as [Hin|Hin].
    + by rewrite decide_True by (by right).
    + rewrite decide_False; [done|]. rewrite not_elem_of_cons. by split; [congruence|].
Qed.

Lemma map_get_set {V : Type} (key : string) (v : V) (l : list (string * V)) :
  map_get key (map_set key v l) = Some v.
Proof.
  induction l as [|y l IH]; cbn [map_set map_get fst snd].
  - by rewrite String.eqb_refl.
  - destruct (String.eqb (fst y) key) eqn:E; cbn [map_get fst snd].
    + by rewrite String.eqb_refl.
    + by rewrite E.
Qed.

Lemma NoDup_map_set {V : Type} (key : string) (v : V) (l : list (string * V)) :
  NoDup (fst <$> l) -> NoDup (fst <$> map_set key v l).
Proof.
  intros H. rewrite keys_map_set. case_decide; [done|].
  apply NoDup_app. split; [done|]. split; [|apply NoDup_singleton].
  intros x Hx ->%list_elem_of_singleton. done.
Qed.

Lemma keys_map_delete {V : Type} (key : string) (l : list (string * V)) :
  fst <$> map_delete key l = filter (fun k => k ≠ key) (fst <$> l).
Proof.
  unfold map_delete. induction l as [|y l IH]; [done|].
  csimpl. rewrite !filter_cons. case_decide; csimpl; by rewrite IH.
Qed.

(** The navigation bar that [createTabNavigation] builds. *)
Lemma createTabNavigation_buttons (m : TabManager) :
  NoDup (fst <$> tabs m) ->
  hasNavigation m = true ->
  let m' := createTabNavigation m in
  tabs m' = tabs m /\
  fst <$> buttons m' ≡ₚ fst <$> tabs m /\
  button_priorities m' = (fun kv => priority (snd kv)) <$> sort_by_priority (tabs m) /\
  ascending (button_priorities m') /\
  length (button_priorities m') = length (tabs m) /\
  active (buttons m') = [].
Proof.
  intros Hnd Hnav m'. subst m'. unfold createTabNavigation. rewrite Hnav.
  cbn [negb tabs buttons with_buttons].
  assert (button_priorities
            (with_buttons ((fun kv => (fst kv, false)) <$> sort_by_priority (tabs m)) m) =
          (fun kv => priority (snd kv)) <$> sort_by_priority (tabs m)) as Ep.
  { unfold button_priorities. cbn [tabs buttons with_buttons].
    assert (forall kv, kv ∈ sort_by_priority (tabs m) -> kv ∈ tabs m) as Hsub.
    { intros kv. by rewrite sort_by_priority_perm. }
    revert Hsub. generalize (sort_by_priority (tabs m)). intros l Hsub.
    induction l as [|kv l IH]; [done|]. csimpl.
    rewrite (map_get_elem kv (tabs m)) by (done || apply Hsub; left).
    csimpl. f_equal. apply IH. intros kv' H. apply Hsub. by right. }
  split; [done|]. split.
  { rewrite <- list_fmap_compose. rewrite <- (sort_by_priority_perm (tabs m)) at 2.
    done. }
  split; [exact Ep|]. rewrite Ep. split; [apply sort_by_priority_ascending|].
  split; [by rewrite length_fmap, sort_by_priority_perm|].
  clear Ep. unfold active.
  induction (sort_by_priority (tabs m)) as [|kv l IH]; [done|].
  csimpl. rewrite filter_cons. cbn [snd]. case_decide; [done|exact IH].
Qed.

(** X27: the navigation bar lists every tab once, by priority.  On a page
    with the bar, [addTab] and [removeTab] rebuild the buttons from the
    map: there is one button for each tab of the map and no other, in
    order of ascending priority.  Adding a tab under an existing name
    replaces its settings and does not add a second button; after
    [removeTab] the tab has no button.  The new buttons are all inactive,
    so the highlight of the tab on show is lost. *)
Theorem navigation_lists_each_tab_once
    (m : TabManager) (tabId : string) (tabConfig : TabConfig) :
  NoDup (fst <$> tabs m) ->
  hasNavigation m = true ->
  let m1 := addTab tabId tabConfig m in
  let m2 := removeTab tabId m in
  (NoDup (fst <$> tabs m1) /\
   fst <$> buttons m1 ≡ₚ fst <$> tabs m1 /\
   (forall k, k ∈ (fst <$> buttons m1) <-> k = tabId \/ k ∈ (fst <$> tabs m)) /\
   map_get tabId (tabs m1) = Some tabConfig /\
   ascending (button_priorities m1) /\
   length (button_priorities m1) = length (buttons m1) /\
   active (buttons m1) = []) /\
  (NoDup (fst <$> tabs m2) /\
   fst <$> buttons m2 ≡ₚ fst <$> tabs m2 /\
   (forall k, k ∈ (fst <$> buttons m2) <-> k <> tabId /\ k ∈ (fst <$> tabs m)) /\
   ascending (button_priorities m2) /\
   active (buttons m2) = []).
Proof.
  intros Hnd Hnav m1 m2. split.
  - assert (NoDup (fst <$> map_set tabId tabConfig (tabs m))) as Hnd1
      by by apply NoDup_map_set.
    destruct (createTabNavigation_buttons
                (with_tabs (map_set tabId tabConfig (tabs m)) m) Hnd1 Hnav)
      as (Ht & Hp & _ & Ha & Hl & Hact).
    fold (addTab tabId tabConfig m) in Ht, Hp, Ha, Hl, Hact. fold m1 in Ht, Hp, Ha, Hl, Hact.
    cbn [tabs with_tabs] in Ht, Hp, Hl. rewrite Ht.
    split; [done|]. split; [done|]. split.
    { intros k. rewrite Hp, keys_map_set. case_decide as Hin.
      - split; [by right|]. by intros [->|].
      - rewrite elem_of_app, list_elem_of_singleton. tauto. }
    split; [apply map_get_set|]. split; [done|].
    split; [|done]. rewrite Hl. rewrite <- (length_fmap fst (buttons m1)).
    rewrite Hp. by rewrite length_fmap.
  - assert (NoDup (fst <$> map_delete tabId (tabs m))) as Hnd2.
    { rewrite keys_map_delete. by apply NoDup_filter. }
    destruct (createTabNavigation_buttons
                (with_tabs (map_delete tabId (tabs m)) m) Hnd2 Hnav)
      as (Ht & Hp & _ & Ha & _ & Hact).
    fold (removeTab tabId m) in Ht, Hp, Ha, Hact. fold m2 in Ht, Hp, Ha, Hact.
    cbn [tabs with_tabs] in Ht, Hp. rewrite Ht.
    split; [done|]. split; [done|]. split; [|done].
    intros k. rewrite Hp, keys_map_delete, list_elem_of_filter. tauto.
Qed.

(** A plugin tab of priority 2 is added to the three tabs, added again
    with priority 0, and removed. *)
Lemma navigation_lists_each_tab_once_witness :
  let plugin p := mkTabConfig "Plugin" "fas fa-plug" "plugin-tab" p in
  fst <$> buttons (addTab "plugin" (plugin 2) new_tab_manager) =
    ["main"; "analytics"; "plugin"; "appearance"] /\
  fst <$> buttons (addTab "plugin" (plugin 0) (addTab "plugin" (plugin 2) new_tab_manager)) =
    ["plugin"; "main"; "analytics"; "appearance"] /\
  "plugin" ∉ (fst <$> buttons (removeTab "plugin"
                                 (addTab "plugin" (plugin 2) new_tab_manager))).
Proof.
  intros plugin. split; [reflexivity|]. split; [reflexivity|].
  assert (NoDup (fst <$> tabs (addTab "plugin" (plugin 2) new_tab_manager))) as Hnd.
  { apply (navigation_lists_each_tab_once new_tab_manager "plugin" (plugin 2));
      [|reflexivity].
    apply (bool_decide_unpack (NoDup (fst <$> tabs new_tab_manager))).
    vm_compute. exact I. }
  destruct (navigation_lists_each_tab_once
              (addTab "plugin" (plugin 2) new_tab_manager) "plugin" (plugin 2) Hnd eq_refl)
    as (_ & _ & _ & H & _).
  intros Hin. apply H in Hin. by destruct Hin.
Defined.

Lemma map_get_delete {V : Type} (key : string) (l : list (string * V)) :
  map_get key (map_delete key l) = None.
Proof.
  apply map_get_None. rewrite keys_map_delete, list_elem_of_filter. by intros [H _].
Qed.

(** X28: a removed tab cannot be shown again, but stays on show.
    [switchToTab] with a name that is not in the map only logs a warning.
    So after [removeTab] a call for the removed tab changes nothing but the
    log; [removeTab] itself does not touch the tab contents or the current
    tab of the application, so a removed tab that was on show stays on
    show and stays the current tab. *)
Theorem removed_tab_stays_on_show (m : TabManager) (tabId : string) :
  (map_get tabId (tabs m) = None ->
   switchToTab tabId m =
     with_warnings
       (warnings m ++ [String.append "Tab " (String.append tabId " not found")]) m) /\
  (let m1 := removeTab tabId m in
   switchToTab tabId m1 =
     with_warnings
       (warnings m1 ++ [String.append "Tab " (String.append tabId " not found")]) m1 /\
   contents (switchToTab tabId m1) = contents m /\
   appTab (switchToTab tabId m1) = appTab m /\
   active (contents (switchToTab tabId m1)) = active (contents m)).
Proof.
  assert (forall m0, map_get tabId (tabs m0) = None ->
            switchToTab tabId m0 =
              with_warnings
                (warnings m0 ++ [String.append "Tab " (String.append tabId " not found")])
                m0) as Hwarn.
  { intros m0 H. unfold switchToTab. by rewrite H. }
  split; [apply Hwarn|].
  intros m1.
  assert (map_get tabId (tabs m1) = None /\ contents m1 = contents m /\
          appTab m1 = appTab m) as (Hg & Hc & Ha).
  { subst m1. unfold removeTab, createTabNavigation.
    destruct (negb _); cbn [tabs contents appTab with_tabs with_buttons];
      by rewrite map_get_delete. }
  rewrite (Hwarn m1 Hg). cbn [contents appTab with_warnings].
  by rewrite Hc, Ha.
Qed.

(** The main tab of a new manager is on show and is removed. *)
Lemma removed_tab_stays_on_show_witness :
  warnings (switchToTab "settings" new_tab_manager) = ["Tab settings not found"] /\
  active (contents (switchToTab "main" (removeTab "main" new_tab_manager))) = ["main-tab"].
Proof.
  split.
  - rewrite (proj1 (removed_tab_stays_on_show new_tab_manager "settings")) by reflexivity.
    reflexivity.
  - destruct (proj2 (removed_tab_stays_on_show new_tab_manager "main")) as (_ & _ & _ & H).
    rewrite H. reflexivity.
Defined.

(** Showing the analytics tab once. *)
Lemma switchToTab_analytics (m : TabManager) :
  map_get "analytics" (tabs m) <> None ->
  has "analytics-tab" (contents m) = true ->
  has "analytics" (buttons m) = true ->
  let m' := switchToTab "analytics" m in
  tabs m' = tabs m /\
  has "analytics-tab" (contents m') = true /\
  has "analytics" (buttons m') = true /\
  intervals m' = intervals m ++ [nextInterval m] /\
  analyticsInterval m' = Some (nextInterval m) /\
  nextInterval m' = S (nextInterval m) /\
  requested m' = requested m ++ ["/api/dashboard"] /\
  appTab m' = "analytics".
Proof.
  intros Ht Hc Hb m'. subst m'. unfold switchToTab.
  destruct (map_get "analytics" (tabs m)) as [cfg|] eqn:E; [clear Ht|done].
  cbn zeta. cbn [contents buttons with_contents with_buttons].
  rewrite !has_deactivate. change (String.append "analytics" "-tab") with "analytics-tab".
  rewrite Hc, Hb. cbn [andb].
  unfold onTabActivated. cbn [tabs with_contents with_buttons]. rewrite E.
  change (String.eqb "analytics" "main") with false.
  change (String.eqb "analytics" "analytics") with true. cbv iota.
  unfold initializeAnalyticsTab, startAnalyticsUpdates.
  cbn [tabs contents buttons intervals analyticsInterval nextInterval requested appTab
       with_appTab with_intervals with_requested with_contents with_buttons].
  repeat split; try done.
  - rewrite (has_names _ _ (deactivate (contents m))) by apply names_activate_first.
    by rewrite has_deactivate.
  - rewrite (has_names _ _ (deactivate (buttons m))) by apply names_activate_first.
    by rewrite has_deactivate.
Qed.

Lemma filter_ne_last (l : list nat) (k : nat) :
  Forall (fun i => (i < k)%nat) l -> filter (fun i => i ≠ k) (l ++ [k]) = l.
Proof.
  intros H. rewrite filter_app, filter_cons, filter_nil.
  rewrite decide_False by (intros Hk; by apply Hk). rewrite app_nil_r.
  induction H as [|i l Hi Hl IH]; [done|].
  rewrite filter_cons. rewrite decide_True by lia. by rewrite IH.
Qed.

(** X29: the analytics timers pile up.  Every time the analytics tab is
    shown, [startAnalyticsUpdates] starts a new interval and overwrites the
    handle of the previous one without clearing it, and
    [stopAnalyticsUpdates] clears only the interval of the handle.  After
    the tab was shown [n + 1] times, [n + 1] intervals are running, and
    [n] of them keep running after the updates were stopped; while the
    analytics tab is current, each of them requests the dashboard on every
    tick. *)
Theorem analytics_timers_pile_up (m : TabManager) (n : nat) :
  map_get "analytics" (tabs m) <> None ->
  has "analytics-tab" (contents m) = true ->
  has "analytics" (buttons m) = true ->
  intervals m = [] ->
  (0 < nextInterval m)%nat ->
  let m' := Nat.iter (S n) (switchToTab "analytics") m in
  length (intervals m') = S n /\
  length (intervals (stopAnalyticsUpdates m')) = n /\
  requested m' = requested m ++ replicate (S n) "/api/dashboard" /\
  requested (analytics_tick (stopAnalyticsUpdates m')) =
    requested m' ++ ["/api/dashboard"].
Proof.
  intros Ht Hc Hb Hi Hn m'.
  assert (forall k,
            let mk := Nat.iter k (switchToTab "analytics") m in
            tabs mk = tabs m /\
            has "analytics-tab" (contents mk) = true /\
            has "analytics" (buttons mk) = true /\
            intervals mk = seq (nextInterval m) k /\
            nextInterval mk = (nextInterval m + k)%nat /\
            requested mk = requested m ++ replicate k "/api/dashboard" /\
            (k <> O ->
             analyticsInterval mk = Some (nextInterval m + pred k)%nat /\
             appTab mk = "analytics")) as Hinv.
  { induction k as [|k IH]; intros mk; subst mk.
    - cbn [Nat.iter nat_rect]. rewrite Hi, app_nil_r, Nat.add_0_r. done.
    - cbn zeta in IH. destruct IH as (I1 & I2 & I3 & I4 & I5 & I6 & _).
      change (Nat.iter (S k) (switchToTab "analytics") m)
        with (switchToTab "analytics" (Nat.iter k (switchToTab "analytics") m)).
      destruct (switchToTab_analytics (Nat.iter k (switchToTab "analytics") m))
        as (S1 & S2 & S3 & S4 & S5 & S6 & S7 & S8); [by rewrite I1|done|done|].
      rewrite S1, S4, S5, S6, S7, I1, I4, I5, I6.
      repeat split; try done.
      + by rewrite seq_S.
      + rewrite <- app_assoc. f_equal. change ["/api/dashboard"] with (replicate 1 "/api/dashboard").
        rewrite <- replicate_add. f_equal. lia. }
  destruct (Hinv (S n)) as (_ & _ & _ & H4 & _ & H6 & H7).
  destruct H7 as [H7 H8]; [done|]. fold m' in H4, H6, H7, H8.
  cbn [pred] in H7.
  split; [by rewrite H4, length_seq|].
  assert (intervals (stopAnalyticsUpdates m') = seq (nextInterval m) n /\
          requested (stopAnalyticsUpdates m') = requested m' /\
          appTab (stopAnalyticsUpdates m') = "analytics") as (E1 & E2 & E3).
  { unfold stopAnalyticsUpdates. rewrite H7.
    destruct (nextInterval m + n =? 0)%nat eqn:E0; [apply Nat.eqb_eq in E0; lia|].
    cbn [intervals requested appTab with_intervals]. rewrite H4, seq_S.
    split; [|done]. apply filter_ne_last. apply Forall_seq. lia. }
  split; [by rewrite E1, length_seq|]. split; [done|].
  unfold analytics_tick. rewrite E3. cbn [requested with_requested]. by rewrite E2.
Qed.

(** The analytics tab of a new manager is shown three times. *)
Lemma analytics_timers_pile_up_witness :
  let m := with_buttons [("main", true); ("analytics", false); ("appearance", false)]
             new_tab_manager in
  let m' := Nat.iter 3 (switchToTab "analytics") m in
  intervals m' = [1; 2; 3]%nat /\
  length (intervals (stopAnalyticsUpdates m')) = 2%nat.
Proof.
  intros m m'. split; [reflexivity|].
  destruct (analytics_timers_pile_up m 2) as (_ & H & _);
    [discriminate|reflexivity|reflexivity|reflexivity|vm_compute; lia|].
  exact H.
Defined.

(** ** The constructor *)

Lemma sh_seq (A B : Type) (m : Sh A) (k : A -> Sh B) (s : Shell) (a : A) :
  fst (m s) = Normal a -> (m ≫= k) s = k a (snd (m s)).
Proof. intros H. unfold mbind, Sh_bind. destruct (m s) as [r s1]. simpl in *. by subst. Qed.

Lemma sh_seq_thrown (A B : Type) (m : Sh A) (k : A -> Sh B) (s : Shell) (e : string) :
  fst (m s) = Thrown e -> (m ≫= k) s = (Thrown e, snd (m s)).
Proof. intros H. unfold mbind, Sh_bind. destruct (m s) as [r s1]. simpl in *. by subst. Qed.

Lemma initializeLive2DStream_total (w : World) :
  fst (initializeLive2DStream w) = Normal tt.
Proof.
  destruct (displayBox w) as [box|] eqn:E.
  - destruct (initializeLive2DStream_started w box E) as (H & _). unfold throws in H.
    by destruct (fst (initializeLive2DStream w)) as [[]|].
  - unfold initializeLive2DStream. js_red. by rewrite E.
Qed.

Lemma initializeLive2DStream_now (w : World) :
  now (exec initializeLive2DStream w) = now w.
Proof.
  apply (keeps_apply (fun w' => now w' = now w)); [|done].
  generalize (now w). intros t.
  keeps_walk fail ltac:(eassumption).
Qed.

Lemma onTabSwitch_main_exec (w : World) :
  onTabSwitch_main w =
    (Normal tt,
     with_nextTimer (S (nextTimer w))
       (with_timers (timers w ++ [mkTimer (nextTimer w) (now w + 500) TTabInit]) w)).
Proof. done. Qed.

Lemma onTabSwitch_main_facts (s : Shell) :
  let s' := snd (onTabSwitch "main" s) in
  fst (onTabSwitch "main" s) = Normal tt /\
  world s' = exec onTabSwitch_main (world s) /\
  currentTab s' = currentTab s /\
  same_frame s s'.
Proof.
  unfold onTabSwitch. change (String.eqb "main" "main") with true. cbv iota.
  unfold focusMessageInput, same_frame, exec. sh_unf.
  destruct (messageInput s) eqn:Ei; [destruct (isOverlayExpanded s) eqn:Ee|];
    sh_unf; sh_proj; rewrite onTabSwitch_main_exec; cbn [fst snd]; sh_proj; done.
Qed.

Lemma switchTab_main_facts (s : Shell) :
  let s' := snd (switchTab "main" s) in
  fst (switchTab "main" s) = Normal tt /\
  world s' =
    (if has_tab "main" s then exec onTabSwitch_main (world s) else world s) /\
  currentTab s' = (if has_tab "main" s then "main" else currentTab s) /\
  same_frame s s'.
Proof.
  destruct (has_tab "main" s) eqn:H.
  - rewrite (switchTab_present _ _ H).
    match goal with |- context [onTabSwitch "main" ?s0] =>
      destruct (onTabSwitch_main_facts s0) as (F1 & F2 & F3 & F4) end.
    cbv zeta in F2, F3. cbv zeta. rewrite F1, F2, F3. split; [done|].
    split; [done|]. split; [done|].
    unfold same_frame in *. destruct F4 as (-> & -> & -> & -> & ->). done.
  - rewrite (switchTab_absent _ _ H). done.
Qed.

(** The stream state after [updateBackgroundGradient]. *)
Lemma gradient_world (hb : bool) (w : World) :
  (if hb then
     match statusElement w with
     | Some _ => w
     | None =>
         with_statusElement
           (Some (mkStatusView "🔌 Connecting..." "live2d-status status-offline")) w
     end
   else w) =
  with_statusElement (status_after_gradient hb (statusElement w)) w.
Proof. destruct w as [? ? ? ? ? ? ? ? ? st]. by destruct hb, st. Qed.

Lemma changeTheme_facts (themeName : string) (mode : option string) (save : bool)
    (s : Shell) :
  let s' := snd (changeTheme themeName mode save s) in
  world s' =
    with_statusElement (status_after_gradient (hasBackground s) (statusElement (world s)))
      (world s) /\
  currentTab s' = currentTab s /\
  hasBackground s' = hasBackground s /\ isMobile s' = isMobile s /\
  pending s' = pending s /\ fetches s' = fetches s /\
  (save = false -> localStorage s' = localStorage s).
Proof.
  destruct s as [w ? ? ? ? ? ? ? ? ? ? ? ? ? ? ? ? ? ? ? ? ? hb].
  destruct w as [? ? ? ? ? ? ? ? ? st].
  unfold changeTheme, updateThemeSelection, updateBackgroundGradient.
  destruct st, hb, save, mode as [m|]; try destruct (String.eqb m "");
    sh_unf; simpl; done.
Qed.

Lemma applyStoredTheme_facts (s : Shell) :
  let s' := snd (applyStoredTheme s) in
  fst (applyStoredTheme s) = Normal tt /\
  world s' =
    with_statusElement (status_after_gradient (hasBackground s) (statusElement (world s)))
      (world s) /\
  currentTab s' = currentTab s /\
  same_frame s s'.
Proof.
  unfold applyStoredTheme. sh_unf. cbv zeta.
  match goal with |- context [changeTheme ?t ?m ?sv s] =>
    destruct (changeTheme_exec t m sv s) as (F0 & _);
    destruct (changeTheme_facts t m sv s) as (F1 & F2 & F3 & F4 & F5 & F6 & F7) end.
  cbv zeta in F1, F2, F3, F4, F5, F6, F7.
  rewrite F0, F1, F2. unfold same_frame. rewrite F3, F4, F5, F6, F7 by done. done.
Qed.

Lemma initializeLive2DBackground_facts (s : Shell) :
  let s' := snd (initializeLive2DBackground s) in
  fst (initializeLive2DBackground s) = Normal tt /\
  world s' =
    exec initializeLive2DStream
      (with_statusElement
         (status_after_gradient (hasBackground s) (statusElement (world s))) (world s)) /\
  currentTab s' = currentTab s /\
  same_frame s s'.
Proof.
  unfold initializeLive2DBackground, updateBackgroundGradient, same_frame, exec.
  rewrite <- gradient_world.
  sh_unf. destruct (hasBackground s) eqn:Hb; [destruct (statusElement (world s)) eqn:Est|];
    sh_unf; sh_proj; rewrite ?Hb; cbv [modify]; cbn [fst snd]; sh_proj;
    rewrite initializeLive2DStream_total; cbn [fst snd]; sh_proj; done.
Qed.

Lemma boot_exec (t0 : Z) (box : option (Z * Z)) (status : option StatusView) :
  boot t0 box status =
    exec initializeLive2DStream (exec onTabSwitch_main (page t0 box status)).
Proof.
  unfold boot, dispatch, exec.
  rewrite (bind_normal onTabSwitch_main _ (page t0 box status) _ tt
             (onTabSwitch_main_exec _)).
  rewrite onTabSwitch_main_exec. cbn [snd].
  match goal with |- context [initializeLive2DStream ?w] =>
    pose proof (initializeLive2DStream_total w) as H;
    destruct (initializeLive2DStream w) as [[[]|e] w'] end; [done|discriminate].
Qed.

(** X30: the constructor starts the stream as the scenarios assume.  On a
    document with the send button and the message input, [new
    LumiEnhancedApp()] cannot throw: the status endpoint is requested
    twice and the dashboard once, the current tab is the main tab, and on
    a mobile page the timer that expands the overlay is armed.  If the
    document has the main tab, the stream state it leaves is [boot]: the
    timer of the main tab and the started feed, on a page whose status
    indicator was created by the theme code when the background element
    exists; without the main tab the feed is started all the same, by
    [initializeLive2DBackground] alone.  Without the send button or the input the
    constructor throws while it registers the listeners: no tab is shown,
    nothing is requested and the stream is never started. *)
Theorem constructor_starts_the_stream
    (s : Shell) (t0 : Z) (box : option (Z * Z)) (status : option StatusView) :
  world s = page t0 box status ->
  let s' := sh_exec new_LumiEnhancedApp s in
  (sendButton s <> None -> messageInput s <> None ->
   sh_throws new_LumiEnhancedApp s = false /\
   fetches s' = fetches s ++ ["/api/status"; "/api/status"; "/api/dashboard"] /\
   currentTab s' = "main" /\
   pending s' =
     pending s ++ (if isMobile s then [(t0 + 500, TToggleOverlay)] else []) /\
   (has_tab "main" s = true ->
    world s' = boot t0 box (status_after_gradient (hasBackground s) status)) /\
   (has_tab "main" s = false ->
    world s' =
      exec initializeLive2DStream
        (page t0 box (status_after_gradient (hasBackground s) status)))) /\
  (sendButton s = None \/ messageInput s = None ->
   sh_throws new_LumiEnhancedApp s = true /\
   world s' = page t0 box status /\
   fetches s' = fetches s /\
   tabContents s' = tabContents s /\
   dataTheme s' = dataTheme s).
Proof.
  intros Hw s'. subst s'. unfold sh_exec, sh_throws, new_LumiEnhancedApp.
  match goal with |- context [sh_modify ?F] => set (s0 := F s) end.
  match goal with |- context [(?m ≫= ?k) s] =>
    change ((m ≫= k) s) with (k tt s0) end. cbv beta.
  assert (world s0 = page t0 box status) as Hw0.
  { subst s0. sh_proj. by rewrite Hw. }
  assert (has_tab "main" s0 = has_tab "main" s) as Hh0 by done.
  split.
  - intros Hsb Hmi.
    assert (setupEventListeners s0 = (Normal tt, s0)) as E1.
    { unfold setupEventListeners. sh_unf. subst s0. sh_proj.
      destruct (sendButton s); [|done]. by destruct (messageInput s). }
    destruct (switchTab_main_facts s0) as (A1 & A2 & A3 & A4).
    set (s1 := snd (switchTab "main" s0)) in *. cbv zeta in A2, A3.
    destruct (applyStoredTheme_facts s1) as (B1 & B2 & B3 & B4).
    set (s2 := snd (applyStoredTheme s1)) in *. cbv zeta in B2, B3.
    set (s3 := put_fetches (fetches s2 ++ ["/api/status"]) s2).
    assert (initializeServiceMonitoring s2 = (Normal tt, s3)) as E3 by done.
    destruct (initializeLive2DBackground_facts s3) as (C1 & C2 & C3 & C4).
    set (s4 := snd (initializeLive2DBackground s3)) in *. cbv zeta in C2, C3.
    set (s5 := if isMobile s4
               then if String.eqb (currentTab s4) "main"
                    then put_pending (pending s4 ++ [(now (world s4) + 500, TToggleOverlay)]) s4
                    else s4
               else s4).
    assert (initializeApp s0 = (Normal tt, s5)) as Einit.
    { unfold initializeApp.
      rewrite (sh_seq _ _ setupEventListeners _ s0 tt) by by rewrite E1.
      rewrite E1. cbn [snd]. unfold initializeTabs.
      rewrite (sh_seq _ _ (switchTab "main") _ s0 tt) by exact A1. fold s1.
      rewrite (sh_seq _ _ applyStoredTheme _ s1 tt) by exact B1. fold s2.
      rewrite (sh_seq _ _ initializeServiceMonitoring _ s2 tt) by by rewrite E3.
      rewrite E3. cbn [snd].
      rewrite (sh_seq _ _ initializeLive2DBackground _ s3 tt) by exact C1. fold s4.
      subst s5. unfold optimizeForMobile. sh_unf.
      destruct (isMobile s4); [|done]. by destruct (String.eqb (currentTab s4) "main"). }
    rewrite (sh_seq _ _ initializeApp _ s0 tt) by by rewrite Einit.
    rewrite Einit. cbn [snd].
    assert (loadInitialData s5 =
            (Normal tt,
             put_fetches ((fetches s5 ++ ["/api/status"]) ++ ["/api/dashboard"])
               (put_fetches (fetches s5 ++ ["/api/status"]) s5))) as -> by done.
    cbn [fst snd]. sh_proj.
    unfold same_frame in A4, B4, C4.
    destruct A4 as (A4b & A4m & A4l & A4p & A4f).
    destruct B4 as (B4b & B4m & B4l & B4p & B4f).
    destruct C4 as (C4b & C4m & C4l & C4p & C4f).
    assert (hasBackground s3 = hasBackground s) as Hb3.
    { change (hasBackground s3) with (hasBackground s2). by rewrite B4b, A4b. }
    assert (isMobile s4 = isMobile s) as Hm4.
    { rewrite C4m. change (isMobile s3) with (isMobile s2). by rewrite B4m, A4m. }
    assert (world s5 = world s4 /\ fetches s5 = fetches s4) as [Ew5 Ef5].
    { subst s5. destruct (isMobile s4); [|done].
      by destruct (String.eqb (currentTab s4) "main"). }
    assert (fetches s4 = fetches s ++ ["/api/status"]) as Ef4.
    { rewrite C4f. subst s3. sh_proj. by rewrite B4f, A4f. }
    split; [done|]. split.
    { rewrite Ef5, Ef4. by rewrite <- !app_assoc. }
    assert (world s4 =
            exec initializeLive2DStream
              (with_statusElement
                 (status_after_gradient (hasBackground s)
                    (status_after_gradient (hasBackground s) (statusElement (world s1))))
                 (world s1))) as Ew4.
    { rewrite C2, Hb3. change (world s3) with (world s2). rewrite B2, A4b.
      change (hasBackground s0) with (hasBackground s).
      by destruct (world s1). }
    assert (currentTab s4 = "main") as Ec4.
    { rewrite C3. change (currentTab s3) with (currentTab s2). rewrite B3, A3.
      by destruct (has_tab "main" s0). }
    assert (now (world s4) = t0) as En.
    { rewrite Ew4, initializeLive2DStream_now, A2, Hw0.
      destruct (has_tab "main" s0); [|done].
      unfold exec. by rewrite onTabSwitch_main_exec. }
    assert (pending s4 = pending s) as Ep.
    { rewrite C4p. change (pending s3) with (pending s2). by rewrite B4p, A4p. }
    split.
    { subst s5. rewrite Hm4, Ec4. change (String.eqb "main" "main") with true.
      by destruct (isMobile s). }
    split.
    { subst s5. rewrite Hm4, Ec4. change (String.eqb "main" "main") with true.
      destruct (isMobile s); sh_proj; rewrite Ep, ?En; by rewrite ?app_nil_r. }
    split.
    + intros Hmain. rewrite Hh0, Hmain in A2.
      rewrite Ew5, Ew4, A2, Hw0, boot_exec. f_equal.
      unfold exec. rewrite !onTabSwitch_main_exec. cbn [snd].
      unfold page. by destruct (hasBackground s), status.
    + intros Hmain. rewrite Hh0, Hmain in A2.
      rewrite Ew5, Ew4, A2, Hw0. f_equal.
      unfold page. by destruct (hasBackground s), status.
  - intros Hmiss.
    assert (setupEventListeners s0 =
            (Thrown "TypeError: Cannot read properties of null (reading 'addEventListener')",
             s0)) as E1.
    { unfold setupEventListeners. sh_unf. subst s0. sh_proj.
      destruct Hmiss as [-> | ->]; [done|]. by destruct (sendButton s). }
    assert (initializeApp s0 =
            (Thrown "TypeError: Cannot read properties of null (reading 'addEventListener')",
             s0)) as Einit.
    { unfold initializeApp. erewrite sh_seq_thrown by by rewrite E1. by rewrite E1. }
    erewrite sh_seq_thrown by by rewrite Einit. rewrite Einit. cbn [fst snd].
    by rewrite Hw0.
Qed.

(** The page of the scenarios before the application is built; and the
    same page without its send button. *)
Lemma constructor_starts_the_stream_witness :
  let doc := put_currentTab "" (put_world (page 1000 (Some (800, 600)) None) tabs_page) in
  world (sh_exec new_LumiEnhancedApp doc) =
    boot 1000 (Some (800, 600))
      (Some (mkStatusView "🔌 Connecting..." "live2d-status status-offline")) /\
  sh_throws new_LumiEnhancedApp (put_sendButton None doc) = true.
Proof.
  intros doc. split.
  - destruct (proj1 (constructor_starts_the_stream doc 1000 (Some (800, 600)) None eq_refl))
      as (_ & _ & _ & _ & H & _); [discriminate|discriminate|].
    exact (H eq_refl).
  - destruct (proj2 (constructor_starts_the_stream (put_sendButton None doc) 1000
                       (Some (800, 600)) None eq_refl)) as [H _]; [by left|].
    exact H.
Defined.
